(** * Categorization audit (scripts/audit_categorization.py)

    A shallow embedding of [audit_categorization] and the properties of
    its grouping, matching, scoring and de-duplication passes.

    Conventions of the embedding.
    - A Python [str] is a Rocq [string] holding its UTF-8 encoding; on
      well-formed UTF-8 the Python operator [k in s] is byte-wise
      substring containment, and [==] is byte-wise equality.
    - [str.lower] is a built-in whose Unicode tables are not part of the
      script: it is the section variable [lower].  [ascii_lower] is the
      instance used in the examples; it agrees with [str.lower] on ASCII
      text.
    - A Python [dict] is an association list in insertion order, which is
      the iteration order of [dict.items()].
    - The rows produced by [csv.DictReader] are dictionaries whose values
      are either a string or [None] (the filler of a short row).
    - An uncaught exception is the result [Raise e]; nothing else of the
      run is observable then.
    - A Python [float] is an IEEE 754 binary64 number, a [spec_float]
      with the operations [SFdiv] and [SFmul] at precision 53.
    - The function prints its results; the embedding returns the two
      values it prints from, [category_health] and [unique_mismatches].
      Reading the file and formatting the lines are not modelled. *)

From Stdlib Require Import String Ascii List Bool ZArith Lia Permutation.
From Stdlib Require Import QArith Qpower Qabs Lqa DecimalString.
From Stdlib Require Import Floats.SpecFloat Floats.PrimFloat Floats.FloatOps.
Import ListNotations.

Local Open Scope string_scope.
Local Open Scope list_scope.

(** ** Exceptions *)

Inductive exn :=
| KeyError (key : string)
| AttributeError
| ZeroDivisionError
| OverflowError.

Inductive res (A : Type) :=
| Ok (a : A)
| Raise (e : exn).
Arguments Ok {A} a.
Arguments Raise {A} e.

Definition bind {A B} (m : res A) (k : A -> res B) : res B :=
  match m with
  | Ok a => k a
  | Raise e => Raise e
  end.

Notation "x <- m ;; k" := (bind m (fun x => k))
  (at level 61, m at next level, right associativity).
Notation "' p <- m ;; k" := (bind m (fun x => match x with p => k end))
  (at level 61, p pattern, m at next level, right associativity).

(** A [for] loop whose body may raise: the state is threaded from left to
    right and the first exception ends the loop. *)
Fixpoint for_each {A S} (body : S -> A -> res S) (l : list A) (s : S) : res S :=
  match l with
  | [] => Ok s
  | a :: l' => s' <- body s a ;; for_each body l' s'
  end.

(** ** Python values *)

(** A cell of a [csv.DictReader] row. *)
Inductive pyval :=
| PyNone
| PyStr (s : string).

Definition pyval_eqb (a b : pyval) : bool :=
  match a, b with
  | PyNone, PyNone => true
  | PyStr x, PyStr y => String.eqb x y
  | _, _ => false
  end.

(** A number stored in [category_health]: the literal [0] of the guard or
    the float of the division. *)
Inductive pynum :=
| PyInt (z : Z)
| PyFloat (f : spec_float).

(** ** Strings *)

(** [str_in k s] is the Python expression [k in s]. *)
Fixpoint str_in (k s : string) : bool :=
  if String.prefix k s then true
  else match s with
       | EmptyString => false
       | String _ s' => str_in k s'
       end.

(** [k] occurs in [s] as a contiguous run of characters. *)
Definition substring_of (k s : string) : Prop :=
  exists pre post : string, s = (pre ++ k ++ post)%string.

Definition ascii_lower_char (c : ascii) : ascii :=
  let n := nat_of_ascii c in
  if (65 <=? n)%nat && (n <=? 90)%nat then ascii_of_nat (n + 32) else c.

Fixpoint ascii_lower (s : string) : string :=
  match s with
  | EmptyString => EmptyString
  | String c s' => String (ascii_lower_char c) (ascii_lower s')
  end.

(** ** Dictionaries in insertion order *)

Definition row := list (string * pyval).

(** [p[key]] on a row. *)
Fixpoint row_lookup (p : row) (key : string) : option pyval :=
  match p with
  | [] => None
  | (k, v) :: p' => if String.eqb k key then Some v else row_lookup p' key
  end.

Definition row_getitem (p : row) (key : string) : res pyval :=
  match row_lookup p key with
  | Some v => Ok v
  | None => Raise (KeyError key)
  end.

Abbreviation dict V := (list (pyval * V)) (only parsing).

(** [key in d] *)
Definition dict_mem {V} (key : pyval) (d : dict V) : bool :=
  existsb (fun kv => pyval_eqb (fst kv) key) d.

(** [d[key] = v]: the value is replaced in place when the key is present,
    the entry is added last otherwise. *)
Fixpoint dict_set {V} (key : pyval) (v : V) (d : dict V) : dict V :=
  match d with
  | [] => [(key, v)]
  | (k, w) :: d' =>
      if pyval_eqb k key then (k, v) :: d' else (k, w) :: dict_set key v d'
  end.

(** [d[key].append(x)] for a dictionary of lists. *)
Definition dict_append {A} (key : pyval) (x : A) (d : dict (list A)) : dict (list A) :=
  map (fun kv => if pyval_eqb (fst kv) key then (fst kv, snd kv ++ [x]) else kv) d.

(** ** Grouping (lines 17-22) *)

Definition group_step (categories : dict (list pyval)) (p : row)
  : res (dict (list pyval)) :=
  cat <- row_getitem p "Category" ;;
  let categories :=
    if dict_mem cat categories then categories else dict_set cat [] categories in
  name <- row_getitem p "Product Name" ;;
  Ok (dict_append cat name categories).

Definition group_products (products : list row) : res (dict (list pyval)) :=
  for_each group_step products [].

(** ** Floats (line 67) *)

(** A Python [int] read as a significand with exponent 0. *)
Definition int_operand (z : Z) : spec_float :=
  match z with
  | Z0 => S754_zero false
  | Zpos p => S754_finite false p 0
  | Zneg p => S754_finite true p 0
  end.

(** [a / b] on two Python integers: the quotient rounded once to the
    nearest binary64 number, or an exception. *)
Definition int_truediv (a b : Z) : res spec_float :=
  if (b =? 0)%Z then Raise ZeroDivisionError
  else match SFdiv prec emax (int_operand a) (int_operand b) with
       | S754_infinity _ => Raise OverflowError
       | q => Ok q
       end.

(** [float(z)], exact whenever [z] has at most 53 significant bits. *)
Definition float_of_int (z : Z) : spec_float :=
  binary_normalize prec emax z 0 false.

(** [x * k] for a float [x] and an integer [k]. *)
Definition float_mul_int (x : spec_float) (k : Z) : spec_float :=
  SFmul prec emax x (float_of_int k).

(** The value of a finite binary64 number as a rational. *)
Definition SF2Q (f : spec_float) : Q :=
  match f with
  | S754_finite s m e => inject_Z (cond_Zopp s (Zpos m)) * Qpower 2 e
  | _ => 0
  end.

Definition is_finite_SF (f : spec_float) : bool :=
  match f with
  | S754_zero _ | S754_finite _ _ _ => true
  | _ => false
  end.

(** ** Mismatch records (lines 61-65) *)

Record Mismatch := mkMismatch {
  item : string;
  current : pyval;
  suggested : string
}.

(** ** Catalog items and groups, as the statements speak of them *)

(** The two fields the audit reads from a row. *)
Definition row_item (p : row) : res (pyval * pyval) :=
  cat <- row_getitem p "Category" ;;
  name <- row_getitem p "Product Name" ;;
  Ok (cat, name).

(** The rows as [(category, name)] pairs, in input order. *)
Fixpoint catalog (products : list row) : res (list (pyval * pyval)) :=
  match products with
  | [] => Ok []
  | p :: ps => it <- row_item p ;; its <- catalog ps ;; Ok (it :: its)
  end.

(** The distinct elements of a list, each at its first appearance. *)
Fixpoint uniq (l : list pyval) : list pyval :=
  match l with
  | [] => []
  | x :: l' => x :: filter (fun y => negb (pyval_eqb x y)) (uniq l')
  end.

(** The names filed under [cat], in input order. *)
Definition members (cat : pyval) (items : list (pyval * pyval)) : list pyval :=
  map snd (filter (fun it => pyval_eqb (fst it) cat) items).

Definition group_spec (items : list (pyval * pyval)) : dict (list pyval) :=
  map (fun cat => (cat, members cat items)) (uniq (map fst items)).

(** The [(category, name)] pairs held by a grouping. *)
Definition ungroup (categories : dict (list pyval)) : list (pyval * pyval) :=
  flat_map (fun g => map (pair (fst g)) (snd g)) categories.

(** What one row does to [categories], once its two fields are read. *)
Definition group_add (categories : dict (list pyval)) (it : pyval * pyval)
  : dict (list pyval) :=
  dict_append (fst it) (snd it)
    (if dict_mem (fst it) categories then categories
     else dict_set (fst it) [] categories).

(** A field is lacking when its key is absent or its cell is [None]. *)
Definition lacks_field (p : row) (key : string) : Prop :=
  row_lookup p key = None \/ row_lookup p key = Some PyNone.

(** [m] is the first record of [ms] with its item name. *)
Definition first_with_name (m : Mismatch) (ms : list Mismatch) : Prop :=
  exists pre post, ms = pre ++ m :: post /\ ~ In (item m) (map item pre).

(** The formula [100 * correctly_matched / len(members)] as Python
    evaluates it: one integer product, one rounded division. *)
Definition spec_alignment_pct (correctly_matched n_members : Z) : res pynum :=
  q <- int_truediv (100 * correctly_matched) n_members ;;
  Ok (PyFloat q).

(** A score lies in the closed interval from 0 to 100. *)
Definition in_0_100 (v : pynum) : Prop :=
  match v with
  | PyInt z => (0 <= z <= 100)%Z
  | PyFloat f =>
      is_finite_SF f = true /\ (0 <= SF2Q f)%Q /\ (SF2Q f <= 100)%Q
  end.

(** ** Rounding: notions for the bound on the score *)

(** The least integer not below the value a shift record stands for. *)
Definition up (mrs : shr_record) : Z :=
  (shr_m mrs + (if orb (shr_r mrs) (shr_s mrs) then 1 else 0))%Z.

Definition up_loc (m : Z) (l : location) : Z :=
  (m + match l with loc_Exact => 0 | loc_Inexact _ => 1 end)%Z.

(** [y] is [x] shifted right by [k] bits: the significand is halved [k]
    times, rounding down, and the sticky bits keep track of what was lost. *)
Definition shifted (k : Z) (x y : shr_record) : Prop :=
  (0 <= shr_m x ->
   0 <= shr_m y /\ shr_m y * 2 ^ k <= shr_m x /\
   forall N, up x <= 2 ^ k * N -> up y <= N)%Z.

(** [f] is a non-negative float of value at most [K]. *)
Definition bounded_by (K : Z) (f : spec_float) : Prop :=
  match f with
  | S754_zero false => True
  | S754_finite false m e => (e <= 0 /\ Zpos m <= K * 2 ^ (- e))%Z
  | _ => False
  end.

(** ** Rounding: notions for the accuracy of the score *)

(** The shift record [mrs] stands for the rational [N / D]: significand
    and round bit give it to the half unit, exactly when the sticky bit
    is clear and from strictly below when it is set. *)
Definition locates (N D : Z) (mrs : shr_record) : Prop :=
  let t := (2 * shr_m mrs + (if shr_r mrs then 1 else 0))%Z in
  if shr_s mrs then (D * t < 2 * N < D * (t + 1))%Z else (2 * N = D * t)%Z.

(** [f] is a non-negative float within [2^-k] of the rational [N / D]. *)
Definition near (k N D : Z) (f : spec_float) : Prop :=
  match f with
  | S754_zero false => (Z.abs N * 2 ^ k <= D)%Z
  | S754_finite false m e =>
      (e <= 0 /\ Z.abs (D * Zpos m - N * 2 ^ (- e)) * 2 ^ k <= D * 2 ^ (- e))%Z
  | _ => False
  end.

(** ** The audit (lines 25-80) *)

Section Audit.

(** [str.lower] *)
Variable lower : string -> string.

(** The dictionary [rules], in the order it is written. *)
Variable rules : list (string * list string).

(** [rules.get(cat, [])] *)
Fixpoint rules_lookup (rs : list (string * list string)) (cat : string)
  : list string :=
  match rs with
  | [] => []
  | (k, kws) :: rs' => if String.eqb k cat then kws else rules_lookup rs' cat
  end.

Definition rules_get (cat : pyval) : list string :=
  match cat with
  | PyNone => []
  | PyStr c => rules_lookup rules c
  end.

(** [any(rule.lower() in name_lower for rule in cat_rules)] *)
Definition any_rule_in (name_lower : string) (cat_rules : list string) : bool :=
  existsb (fun rule => str_in (lower rule) name_lower) cat_rules.

(** The Matcher: the test of line 49 for a name and a category. *)
Definition matches (name : string) (cat : pyval) : bool :=
  any_rule_in (lower name) (rules_get cat).

(** The loop of lines 53-58: [possible_match] when it ends. *)
Fixpoint scan_others (cat : pyval) (name_lower : string)
         (rs : list (string * list string)) : option string :=
  match rs with
  | [] => None
  | (other_cat, other_rules) :: rs' =>
      if pyval_eqb (PyStr other_cat) cat then scan_others cat name_lower rs'
      else if any_rule_in name_lower other_rules then Some other_cat
      else scan_others cat name_lower rs'
  end.

(** Truth value of [possible_match] in [if possible_match:]. *)
Definition truthy (possible_match : option string) : bool :=
  match possible_match with
  | None => false
  | Some s => negb (String.eqb s "")
  end.

(** The body of the loop over [items] (lines 47-65); the state is
    [(correct_count, mismatches)]. *)
Definition audit_item (cat : pyval) (cat_rules : list string)
           (st : Z * list Mismatch) (name : pyval)
  : res (Z * list Mismatch) :=
  let '(correct_count, mismatches) := st in
  match name with
  | PyNone => Raise AttributeError
  | PyStr name =>
      let name_lower := lower name in
      if any_rule_in name_lower cat_rules then
        Ok ((correct_count + 1)%Z, mismatches)
      else
        let possible_match := scan_others cat name_lower rules in
        match possible_match with
        | Some other_cat =>
            if truthy possible_match then
              Ok (correct_count, mismatches ++ [mkMismatch name cat other_cat])
            else Ok (correct_count, mismatches)
        | None => Ok (correct_count, mismatches)
        end
  end.

(** [(correct_count / len(items)) * 100 if items else 0] *)
Definition alignment (correct_count : Z) (items : list pyval) : res pynum :=
  match items with
  | [] => Ok (PyInt 0)
  | _ :: _ =>
      q <- int_truediv correct_count (Z.of_nat (length items)) ;;
      Ok (PyFloat (float_mul_int q 100))
  end.

(** The body of the loop over [categories.items()] (lines 43-67); the
    state is [(mismatches, category_health)]. *)
Definition audit_group (st : list Mismatch * dict pynum)
           (g : pyval * list pyval) : res (list Mismatch * dict pynum) :=
  let '(mismatches, category_health) := st in
  let '(cat, items) := g in
  let cat_rules := rules_get cat in
  '(correct_count, mismatches) <-
     for_each (audit_item cat cat_rules) items (0%Z, mismatches) ;;
  score <- alignment correct_count items ;;
  Ok (mismatches, dict_set cat score category_health).

(** Lines 75-80; the state is [(unique_mismatches, seen)]. *)
Definition dedup_step (st : list Mismatch * list string) (m : Mismatch)
  : list Mismatch * list string :=
  let '(unique_mismatches, seen) := st in
  if existsb (String.eqb (item m)) seen then st
  else (unique_mismatches ++ [m], item m :: seen).

Definition dedup (mismatches : list Mismatch) : list Mismatch :=
  fst (fold_left dedup_step mismatches ([], [])).

(** Lines 17-67: [category_health] and [mismatches] after the main loop. *)
Definition audit_engine (products : list row)
  : res (dict pynum * list Mismatch) :=
  categories <- group_products products ;;
  '(mismatches, category_health) <- for_each audit_group categories ([], []) ;;
  Ok (category_health, mismatches).

(** The whole function: [category_health] and [unique_mismatches]. *)
Definition audit (products : list row) : res (dict pynum * list Mismatch) :=
  '(category_health, mismatches) <- audit_engine products ;;
  Ok (category_health, dedup mismatches).

(** *** Notions used in the statements *)

Definition is_str (v : pyval) : bool :=
  match v with
  | PyStr _ => true
  | PyNone => false
  end.

(** The test of line 49 on a member of a group. *)
Definition self_match (cat : pyval) (name : pyval) : bool :=
  match name with
  | PyStr n => matches n cat
  | PyNone => false
  end.

(** The records one item adds to [mismatches]. *)
Definition item_mismatch (cat : pyval) (name : pyval) : list Mismatch :=
  match name with
  | PyNone => []
  | PyStr n =>
      if matches n cat then []
      else match scan_others cat (lower n) rules with
           | Some other_cat =>
               if String.eqb other_cat "" then []
               else [mkMismatch n cat other_cat]
           | None => []
           end
  end.

Definition group_mismatches (g : pyval * list pyval) : list Mismatch :=
  flat_map (item_mismatch (fst g)) (snd g).

(** Number of members of a group that pass the test of line 49. *)
Definition correct_of (cat : pyval) (items : list pyval) : Z :=
  Z.of_nat (length (filter (self_match cat) items)).

(** The score of a group: the quotient rounded to binary64, then the
    product by 100.0 rounded again. *)
Definition score_of (cat : pyval) (items : list pyval) : pynum :=
  match items with
  | [] => PyInt 0
  | _ :: _ =>
      PyFloat (float_mul_int
                 (SFdiv prec emax (int_operand (correct_of cat items))
                                  (int_operand (Z.of_nat (length items))))
                 100)
  end.

Definition score_entry (g : pyval * list pyval) : pyval * pynum :=
  (fst g, score_of (fst g) (snd g)).

(** [sug] is the first key of [rules], the current category left out,
    whose keywords match [name]. *)
Definition first_foreign_match (cat : pyval) (name sug : string) : Prop :=
  exists pre post,
    map fst rules = pre ++ sug :: post /\
    PyStr sug <> cat /\
    matches name (PyStr sug) = true /\
    forall oc, In oc pre -> PyStr oc = cat \/ matches name (PyStr oc) = false.

Definition all_str (categories : dict (list pyval)) : bool :=
  forallb (fun g => forallb is_str (snd g)) categories.

(** [category_health] and [mismatches] in closed form. *)
Definition health_spec (items : list (pyval * pyval)) : dict pynum :=
  map score_entry (group_spec items).

Definition mismatches_spec (items : list (pyval * pyval)) : list Mismatch :=
  flat_map group_mismatches (group_spec items).

End Audit.

(** The rule table of lines 25-37. *)
Definition rules : list (string * list string) :=
  [ ("Beverages", ["Tea"; "Coffee"; "Juice"; "Drink"; "Water"; "Mojito"; "Cosmopolitan"; "Milkshake"; "Aamras"; "Cola"; "Soda"; "Bev"]);
    ("Foodgrains, Oil & Masala", ["Rice"; "Atta"; "Flour"; "Dal"; "Masala"; "Powder"; "Oil"; "Salt"; "Garam Masala"; "Sugar"; "Saffron"; "Turmeric"; "Pepper"; "Dalia"; "Tamarind"; "Asafoetida"; "Basmati"; "Cumin"]);
    ("Beauty & Hygiene", ["Soap"; "Wash"; "Shampoo"; "Face"; "Cream"; "Oil"; "Perfume"; "Deoforant"; "Toothpaste"; "Scrub"; "Lotion"; "Gel"; "Mask"; "Sanitizer"; "Conditioner"; "Lip"; "Serum"; "Razor"; "Blade"; "Brush"]);
    ("Cleaning & Household", ["Cleaner"; "Detergent"; "Bucket"; "Fragrance"; "Freshener"; "Mop"; "Broom"; "Wipes"; "Dishwash"; "Umbrella"; "Notebook"; "Pencil"; "Bag"; "Hook"; "Stationery"; "Battery"; "Folder"]);
    ("Snacks & Branded Foods", ["Chips"; "Biscuit"; "Noodles"; "Jam"; "Mix"; "Papad"; "Chocolate"; "Honey"; "Pickle"; "Popcorn"; "Candy"; "Muesli"; "Dosa"; "Idly"; "Wafer"; "Makhana"]);
    ("Kitchen, Garden & Pets", ["Bottle"; "Steel"; "Bowl"; "Container"; "Glass"; "Pan"; "Knife"; "Cooker"; "Plate"; "Mug"; "Cat"; "Dog"; "Pet"; "Lead"; "Brush"; "Tiffin"; "Flask"; "Vati"; "Dabba"; "Tumbler"]);
    ("Bakery, Cakes & Dairy", ["Cheese"; "Batter"; "Yogurt"; "Milk"; "Bread"; "Cake"; "Butter"; "Paneer"; "Muffin"; "Milkshake"]);
    ("Fruits & Vegetables", ["Fresho"; "Onion"; "Garlic"; "Lemon"; "Cabbage"; "Brinjal"; "Avocado"; "Ginger"; "Chilli"; "Tomato"; "Potato"; "Pumpkin"]);
    ("Eggs, Meat & Fish", ["Prawns"; "Salmon"; "Chicken"; "Pork"; "Crab"; "Sausage"; "Salami"; "Fish"]);
    ("Baby Care", ["Diaper"; "Baby"; "Kids"; "Mothercare"; "Huggies"; "Pampers"; "New Born"]);
    ("Gourmet & World Food", ["Olive"; "Pasta"; "Sauce"; "Granola"; "Blue Tea"; "Coffee Roasters"; "Muesli"; "Sushi"; "Wasabi"; "Vinegar"; "Tahini"; "Jars"]) ].

(** [audit_categorization], from the parsed rows on. *)
Definition audit_categorization (lower : string -> string) (products : list row)
  : res (dict pynum * list Mismatch) :=
  audit lower rules products.

Definition mkrow (name category : pyval) : row :=
  [("Product Name", name); ("Category", category)].

(** ** Sample catalogs *)

(** Five rows: a misfiled item, a well-filed one, one no rule speaks of
    in its own category, a category spelt in lower case, and a short row
    whose category cell is [None]. *)
Definition sample_products : list row :=
  [ mkrow (PyStr "Green Tea") (PyStr "Bakery, Cakes & Dairy");
    mkrow (PyStr "Choco Cake") (PyStr "Bakery, Cakes & Dairy");
    mkrow (PyStr "Wooden Spoon") (PyStr "Bakery, Cakes & Dairy");
    mkrow (PyStr "Green Tea") (PyStr "beverages");
    mkrow (PyStr "Olive Oil") PyNone ].

(** Three beverages, one of which a keyword of its category matches. *)
Definition one_in_three : list row :=
  [ mkrow (PyStr "Green Tea") (PyStr "Beverages");
    mkrow (PyStr "Basmati Rice") (PyStr "Beverages");
    mkrow (PyStr "Wooden Spoon") (PyStr "Beverages") ].

(** A short row: the name is there, the category cell is [None]. *)
Definition short_row : row := mkrow (PyStr "Green Tea") PyNone.

(** The two-entry table of the worked scenarios. *)
Definition scenario_rules : list (string * list string) :=
  [ ("Beverages", ["Tea"; "Coffee"]); ("Bakery", ["Bread"; "Cake"]) ].

(** ** The report of the mismatches (lines 82-92) *)

(** [str(v)], as an f-string renders a cell. *)
Definition str_of_pyval (v : pyval) : string :=
  match v with
  | PyNone => "None"
  | PyStr s => s
  end.

(** [str(n)] for a length. *)
Definition str_of_nat (n : nat) : string :=
  NilZero.string_of_uint (Nat.to_uint n).

Definition newline : string := String (ascii_of_nat 10) EmptyString.

(** The four [print] calls of lines 86-89, one string per call. *)
Definition report_block (m : Mismatch) : list string :=
  [ ("Item: " ++ item m)%string;
    ("  - Currently in: " ++ str_of_pyval (current m))%string;
    ("  - Looks more like: " ++ suggested m)%string;
    "--------------------" ].

(** The arguments of the [print] calls of lines 82-92, in order. *)
Definition mismatch_report (unique_mismatches : list Mismatch) : list string :=
  (match unique_mismatches with
   | [] => ["No obvious mismatches found."]
   | _ :: _ => flat_map report_block (firstn 15 unique_mismatches)
   end)
  ++ [ (newline ++ "Total potential mismatches identified: "
          ++ str_of_nat (length unique_mismatches))%string;
       "Note: In Indian retail (e.g. BigBasket), some items like 'Honey' or 'Pickles' are intentionally placed in 'Snacks & Branded Foods' or 'Foodgrains' depending on store strategy." ].

(** What the function prints from line 82 on. *)
Definition audit_report (lower : string -> string) (products : list row)
  : res (list string) :=
  '(_, unique_mismatches) <- audit_categorization lower products ;;
  Ok (mismatch_report unique_mismatches).

(** An item is misfiled when the keywords of its category miss its name
    and those of another key of the table match it. *)
Definition misfiled (lower : string -> string)
           (tbl : list (string * list string)) (cat : pyval) (name : string)
  : Prop :=
  matches lower tbl name cat = false /\
  exists oc, In oc (map fst tbl) /\ PyStr oc <> cat /\
             matches lower tbl name (PyStr oc) = true.

(** ** Runs of the interpreter *)







(** * The other scripts *)

(** ** scripts/fetch_real_data.py *)

(** The double quote character. *)
Definition dquote : ascii := ascii_of_nat 34.

(** [s.startswith(QUOTE)] and [s.endswith(QUOTE)] for the one-character string
    made of a double quote. *)
Definition starts_with_quote (s : string) : bool :=
  match s with
  | EmptyString => false
  | String c _ => Ascii.eqb c dquote
  end.

Fixpoint ends_with_quote (s : string) : bool :=
  match s with
  | EmptyString => false
  | String c EmptyString => Ascii.eqb c dquote
  | String _ s' => ends_with_quote s'
  end.

(** [s[1:-1]].  The slice is taken only when the first and the last
    character are double quotes, which are one byte each. *)
Definition slice_1_m1 (s : string) : string :=
  substring 1 (String.length s - 2) s.

(** [row.get(key, default)] *)
Definition row_get (p : row) (key : string) (default : pyval) : pyval :=
  match row_lookup p key with
  | Some v => v
  | None => default
  end.

(** A saved product (lines 61-68).  [Price] is the type of the pair of
    rounded floats [(price, cost)]. *)
Record Product (Price : Type) := mkProduct {
  p_name : string;
  p_category : string;
  p_sub_category : pyval;
  p_brand : string;
  p_price : Price
}.
Arguments mkProduct {Price}.
Arguments p_name {Price}.
Arguments p_category {Price}.
Arguments p_sub_category {Price}.
Arguments p_brand {Price}.
Arguments p_price {Price}.

Section Fetch.

(** [str.strip] *)
Variable strip : string -> string.

(** Lines 42-54 and 66-67: the price and the cost of a row.  They read
    the row only and raise nothing: the conversions sit in a [try] with a
    bare [except], the rest is float arithmetic and [round]. *)
Variable Price : Type.
Variable pricing : row -> Price.

(** [clean_name] (lines 6-11) *)
Definition clean_name (name : pyval) : res string :=
  match name with
  | PyNone => Raise AttributeError
  | PyStr name =>
      let name := strip name in
      if starts_with_quote name && ends_with_quote name
      then Ok (slice_1_m1 name)
      else Ok name
  end.

(** The loop of lines 27-68; the state is [(products, seen_names)]. *)
Fixpoint collect_products (rows : list row) (products : list (Product Price))
         (seen_names : list string) : res (list (Product Price)) :=
  match rows with
  | [] => Ok products
  | row :: rows' =>
      if (1500 <=? length products)%nat then Ok products
      else
        name <- clean_name (row_get row "product" (PyStr "")) ;;
        brand <- clean_name (row_get row "brand" (PyStr "")) ;;
        category <- clean_name (row_get row "category" (PyStr "")) ;;
        let full_name := (brand ++ " " ++ name)%string in
        if existsb (String.eqb full_name) seen_names
        then collect_products rows' products seen_names
        else
          let seen_names := full_name :: seen_names in
          let sub := row_get row "sub_category" (PyStr "") in
          let category :=
            if pyval_eqb sub (PyStr "Health & Medicine")
               || String.eqb category "Baby Care"
            then if pyval_eqb sub (PyStr "Health & Medicine")
                 then "Health & Wellness" else category
            else category in
          collect_products rows'
            (products ++ [mkProduct full_name category sub brand (pricing row)])
            seen_names
  end.

(** The list [products] that [fetch_and_save_data] dumps, from the rows
    of the reader on. *)
Definition fetch_products (rows : list row) : res (list (Product Price)) :=
  collect_products rows [] [].

(** The name under which a row is saved: brand, a space, product. *)
Definition full_name_of (row : row) : res string :=
  name <- clean_name (row_get row "product" (PyStr "")) ;;
  brand <- clean_name (row_get row "brand" (PyStr "")) ;;
  _ <- clean_name (row_get row "category" (PyStr "")) ;;
  Ok (brand ++ " " ++ name)%string.

End Fetch.

(** [strip] on ASCII text: blanks, tabs, line feeds, carriage returns,
    vertical tabs, form feeds and the four separators 28-31 go. *)
Definition ascii_space (c : ascii) : bool :=
  let n := nat_of_ascii c in
  (n =? 32)%nat || ((9 <=? n)%nat && (n <=? 13)%nat)
  || ((28 <=? n)%nat && (n <=? 31)%nat).

Fixpoint lstrip (s : string) : string :=
  match s with
  | EmptyString => EmptyString
  | String c s' => if ascii_space c then lstrip s' else s
  end.

Fixpoint rstrip (s : string) : string :=
  match s with
  | EmptyString => EmptyString
  | String c s' =>
      match rstrip s' with
      | EmptyString => if ascii_space c then EmptyString else String c EmptyString
      | t => String c t
      end
  end.

Definition ascii_strip (s : string) : string := rstrip (lstrip s).

(** Sample rows for the fetch script: a quoted product name, a health
    item, a repeated product and a baby-care item. *)
Definition fetch_sample : list row :=
  [ [("product", PyStr (" " ++ String dquote ("Green Tea" ++ String dquote " ")));
     ("brand", PyStr "Tata"); ("category", PyStr "Beverages");
     ("sub_category", PyStr "Tea")];
    [("product", PyStr "Cough Syrup"); ("brand", PyStr "Dabur");
     ("category", PyStr "Beauty & Hygiene");
     ("sub_category", PyStr "Health & Medicine")];
    [("product", PyStr "Green Tea"); ("brand", PyStr "Tata");
     ("category", PyStr "Gourmet & World Food");
     ("sub_category", PyStr "Tea")];
    [("product", PyStr "Diapers"); ("brand", PyStr "Huggies");
     ("category", PyStr "Baby Care"); ("sub_category", PyStr "Diapers & Wipes")] ].

(** [n] rows with pairwise distinct product names. *)
Definition numbered_rows (n : nat) : list row :=
  map (fun i => [("product", PyStr (str_of_nat i)); ("brand", PyStr "B");
                 ("category", PyStr "C")])
      (seq 0 n).

(** The products the script saves from [numbered_rows n], priced by
    [tt]. *)
Definition numbered_products (n : nat) : list (Product unit) :=
  map (fun i => mkProduct ("B " ++ str_of_nat i)%string "C" (PyStr "") "B" tt)
      (seq 0 n).

(** *** The reader of the fetch loop *)

(** How a run of the loop ends: with the list to save, with an exception
    raised by the body, or with the [csv.Error] of the reader. *)
Inductive run (A : Type) :=
| Saved (a : A)
| Failed (e : exn)
| CsvError.
Arguments Saved {A}.
Arguments Failed {A}.
Arguments CsvError {A}.

Section FetchReader.

Variable strip : string -> string.
Variable Price : Type.
Variable pricing : row -> Price.

(** The loop of lines 27-68 over the reader itself.  [for row in reader]
    asks the reader for its next row before the body runs, hence before
    the test of line 28.  An element [Some row] of [reader] is a line
    that [csv] parses into [row]; [None] is a line on which it raises
    [csv.Error]. *)
Fixpoint read_products (reader : list (option row))
         (products : list (Product Price)) (seen_names : list string)
  : run (list (Product Price)) :=
  match reader with
  | [] => Saved products
  | None :: _ => CsvError
  | Some row :: reader' =>
      if (1500 <=? length products)%nat then Saved products
      else
        match clean_name strip (row_get row "product" (PyStr "")) with
        | Raise e => Failed e
        | Ok name =>
        match clean_name strip (row_get row "brand" (PyStr "")) with
        | Raise e => Failed e
        | Ok brand =>
        match clean_name strip (row_get row "category" (PyStr "")) with
        | Raise e => Failed e
        | Ok category =>
            let full_name := (brand ++ " " ++ name)%string in
            if existsb (String.eqb full_name) seen_names
            then read_products reader' products seen_names
            else
              let seen_names := full_name :: seen_names in
              let sub := row_get row "sub_category" (PyStr "") in
              let category :=
                if pyval_eqb sub (PyStr "Health & Medicine")
                   || String.eqb category "Baby Care"
                then if pyval_eqb sub (PyStr "Health & Medicine")
                     then "Health & Wellness" else category
                else category in
              read_products reader'
                (products ++ [mkProduct full_name category sub brand
                                        (pricing row)])
                seen_names
        end end end
  end.

Definition fetch_from_reader (reader : list (option row))
  : run (list (Product Price)) :=
  read_products reader [] [].

End FetchReader.

(** ** scripts/remediate_db.py *)

(** A row of [store_sku_registry], with the four columns the script
    names. *)
Record SkuRow := mkSkuRow {
  store_id : string;
  store_item_id : string;
  normalized_product_name : pyval;
  master_category_name : pyval
}.

(** [d.get(key)] on a dictionary in insertion order. *)
Fixpoint dict_lookup {V} (key : pyval) (d : dict V) : option V :=
  match d with
  | [] => None
  | (k, v) :: d' => if pyval_eqb k key then Some v else dict_lookup key d'
  end.

(** Line 28: [{p['name']: p['category'] for p in real_products}]. *)
Definition name_to_cat_step (d : dict pyval) (p : row) : res (dict pyval) :=
  name <- row_getitem p "name" ;;
  category <- row_getitem p "category" ;;
  Ok (dict_set name category d).

Definition build_name_to_cat (real_products : list row) : res (dict pyval) :=
  for_each name_to_cat_step real_products [].

(** The [SELECT] of line 35: the rows of the demo store, as triples. *)
Definition select_demo_store (table : list SkuRow)
  : list (string * pyval * pyval) :=
  map (fun r => (store_item_id r, normalized_product_name r,
                 master_category_name r))
      (filter (fun r => String.eqb (store_id r) "demo-store") table).

(** The [UPDATE] of lines 43-46. *)
Definition update_category (new_cat : pyval) (sku_id : string)
           (table : list SkuRow) : list SkuRow :=
  map (fun r =>
         if String.eqb (store_id r) "demo-store"
            && String.eqb (store_item_id r) sku_id
         then mkSkuRow (store_id r) (store_item_id r)
                       (normalized_product_name r) new_cat
         else r)
      table.

(** The body of the loop of lines 39-47; the state is the table behind
    the cursor and [updates]. *)
Definition remediate_step (name_to_cat : dict pyval)
           (st : list SkuRow * Z) (row : string * pyval * pyval)
  : list SkuRow * Z :=
  let '(table, updates) := st in
  let '(sku_id, name, current_cat) := row in
  if dict_mem name name_to_cat then
    match dict_lookup name name_to_cat with
    | Some new_cat =>
        if negb (pyval_eqb new_cat current_cat)
        then (update_category new_cat sku_id table, (updates + 1)%Z)
        else st
    | None => st
    end
  else st.

(** [remediate_database], from the parsed JSON and the table on, when
    the database accepts every statement: the table as committed and the
    count that is printed. *)
Definition remediate_database (real_products : list row)
           (table : list SkuRow) : res (list SkuRow * Z) :=
  name_to_cat <- build_name_to_cat real_products ;;
  let rows := select_demo_store table in
  Ok (fold_left (remediate_step name_to_cat) rows (table, 0%Z)).

(** The category the mapping gives a name: that of the last product
    listed under the name. *)
Definition last_category (real_products : list row) (name category : pyval)
  : Prop :=
  exists before p after,
    real_products = before ++ p :: after /\
    row_lookup p "name" = Some name /\
    row_lookup p "category" = Some category /\
    forall q, In q after -> row_lookup q "name" <> Some name.

(** What the script makes of one row of the table. *)
Definition remediated (name_to_cat : dict pyval) (r : SkuRow) : SkuRow :=
  if String.eqb (store_id r) "demo-store" then
    match dict_lookup (normalized_product_name r) name_to_cat with
    | Some new_cat =>
        mkSkuRow (store_id r) (store_item_id r) (normalized_product_name r)
                 new_cat
    | None => r
    end
  else r.

(** The identifiers of the rows of the demo store. *)
Definition demo_ids (table : list SkuRow) : list string :=
  map store_item_id
      (filter (fun r => String.eqb (store_id r) "demo-store") table).

(** The rows whose category the script changes. *)
Definition changed (name_to_cat : dict pyval) (r : SkuRow) : bool :=
  String.eqb (store_id r) "demo-store" &&
  match dict_lookup (normalized_product_name r) name_to_cat with
  | Some new_cat => negb (pyval_eqb new_cat (master_category_name r))
  | None => false
  end.

(** The table when the rows with the identifiers [done] have been seen
    to. *)
Definition partly_remediated (name_to_cat : dict pyval) (done : list string)
           (r : SkuRow) : SkuRow :=
  if String.eqb (store_id r) "demo-store"
     && existsb (String.eqb (store_item_id r)) done
  then remediated name_to_cat r else r.

(** Sample data for the remediation script. *)
Definition sample_real_products : list row :=
  [ [("name", PyStr "Tata Green Tea"); ("category", PyStr "Gourmet & World Food")];
    [("name", PyStr "Dabur Cough Syrup"); ("category", PyStr "Health & Wellness")];
    [("name", PyStr "Tata Green Tea"); ("category", PyStr "Beverages")] ].

Definition sample_table : list SkuRow :=
  [ mkSkuRow "demo-store" "sku-1" (PyStr "Tata Green Tea") (PyStr "Bakery");
    mkSkuRow "other-store" "sku-1" (PyStr "Tata Green Tea") (PyStr "Bakery");
    mkSkuRow "demo-store" "sku-2" (PyStr "Dabur Cough Syrup")
             (PyStr "Health & Wellness");
    mkSkuRow "demo-store" "sku-3" (PyStr "Wooden Spoon") PyNone;
    mkSkuRow "demo-store" "sku-4" PyNone (PyStr "Bakery") ].

(** ** From one script to the other *)

(** What [json.load] (remediate_db.py, line 25) gives back for a product
    dumped at lines 61-71 of fetch_real_data.py: the keys in the order
    of the dump.  The two numbers, "price" and "cost", which the
    remediation never reads, are left out. *)
Definition saved_row {Price} (p : Product Price) : row :=
  [ ("name", PyStr (p_name p)); ("category", PyStr (p_category p));
    ("sub_category", p_sub_category p); ("brand", PyStr (p_brand p)) ].

(** * Properties *)

(** ** Rounding of the quotient and of the product (line 67) *)

Section Rounding.
Local Open Scope Z_scope.

(** The rounded value of a non-negative quantity never exceeds an integer
    bound [K] that the quantity itself does not exceed.  The argument
    follows [binary_round_aux]: a right shift keeps the ceiling of the
    shifted quantity below the shifted bound, rounding to nearest picks
    the floor or the ceiling, and the final shift only truncates. *)

(** A significand of [d] bits lies between [2^(d-1)] and [2^d]. *)
Lemma digits2_pos_bounds p :
  2 ^ (Zpos (digits2_pos p) - 1) <= Zpos p < 2 ^ Zpos (digits2_pos p).
Proof.
  induction p as [p IH | p IH |]; simpl digits2_pos.
  - rewrite Pos2Z.inj_succ, (Pos2Z.inj_xI p).
    replace (Z.succ (Zpos (digits2_pos p)) - 1)
      with (Z.succ (Zpos (digits2_pos p) - 1)) by lia.
    rewrite !Z.pow_succ_r by lia. lia.
  - rewrite Pos2Z.inj_succ, (Pos2Z.inj_xO p).
    replace (Z.succ (Zpos (digits2_pos p)) - 1)
      with (Z.succ (Zpos (digits2_pos p) - 1)) by lia.
    rewrite !Z.pow_succ_r by lia. lia.
  - simpl. lia.
Qed.

Lemma Zdigits2_le m k : 0 <= m < 2 ^ k -> 0 <= k -> 0 <= Zdigits2 m <= k.
Proof.
  intros [Hm Hlt] Hk. destruct m as [| p | p]; simpl; try lia.
  pose proof (digits2_pos_bounds p) as [Hlo _].
  assert (2 ^ (Zpos (digits2_pos p) - 1) < 2 ^ k) by lia.
  apply Z.pow_lt_mono_r_iff in H; lia.
Qed.

(** One step of the shift register halves the bound on the ceiling. *)
Lemma shifted_shr_1 x : shifted 1 x (shr_1 x).
Proof.
  destruct x as [m r s]. unfold shifted, up. change (2 ^ 1) with 2.
  cbn [shr_m shr_r shr_s]. intros Hm.
  destruct m as [| [p | p |] | p]; try lia; cbn [shr_1 shr_m shr_r shr_s];
    rewrite ?(Pos2Z.inj_xI p), ?(Pos2Z.inj_xO p);
    (split; [lia | split; [lia |]]);
    intros N; destruct r, s; cbn [orb]; lia.
Qed.

Lemma shifted_trans a b x y z :
  0 <= a -> 0 <= b -> shifted a x y -> shifted b y z -> shifted (a + b) x z.
Proof.
  unfold shifted. intros Ha Hb Hxy Hyz Hx.
  destruct (Hxy Hx) as (Hy & Hfl & Hup).
  destruct (Hyz Hy) as (Hz & Hfl' & Hup').
  rewrite Z.pow_add_r by lia.
  assert (0 < 2 ^ a) by (apply Z.pow_pos_nonneg; lia).
  assert (0 < 2 ^ b) by (apply Z.pow_pos_nonneg; lia).
  split; [lia | split; [nia |]].
  intros N HN. apply Hup'. apply Hup. lia.
Qed.

Lemma shifted_iter_pos p : forall x, shifted (Zpos p) x (iter_pos shr_1 p x).
Proof.
  induction p as [p IH | p IH |]; intros x; simpl iter_pos.
  - replace (Zpos p~1) with (1 + (Zpos p + Zpos p)) by lia.
    eapply shifted_trans; [lia | lia | apply shifted_shr_1 |].
    eapply shifted_trans; [lia | lia | apply IH | apply IH].
  - replace (Zpos p~0) with (Zpos p + Zpos p) by lia.
    eapply shifted_trans; [lia | lia | apply IH | apply IH].
  - apply shifted_shr_1.
Qed.

Lemma up_record_of_loc m l :
  up (shr_record_of_loc m l) = up_loc m l /\ shr_m (shr_record_of_loc m l) = m.
Proof. destruct l as [| []]; split; reflexivity. Qed.

(** The shift to the canonical exponent: where it lands and what it keeps. *)
Lemma shr_fexp_spec m e l :
  0 <= m ->
  forall mrs e', shr_fexp prec emax m e l = (mrs, e') ->
  e' = Z.max e (fexp prec emax (Zdigits2 m + e)) /\
  0 <= shr_m mrs /\
  shr_m mrs * 2 ^ (e' - e) <= m /\
  forall N, up_loc m l <= 2 ^ (e' - e) * N -> up mrs <= N.
Proof.
  intros Hm mrs e'. unfold shr_fexp, shr.
  destruct (up_record_of_loc m l) as [Hup Hshr].
  destruct (fexp prec emax (Zdigits2 m + e) - e) as [| p | p] eqn:Hn;
    intros [= <- <-].
  - replace (e - e) with 0 by lia. rewrite Hup, Hshr. cbn [Z.pow].
    repeat split; try lia.
  - destruct (shifted_iter_pos p (shr_record_of_loc m l)) as (H0 & Hfl & HN);
      [rewrite Hshr; exact Hm |].
    replace (e + Zpos p - e) with (Zpos p) by lia.
    rewrite Hshr in Hfl. rewrite Hup in HN.
    repeat split; try lia; assumption.
  - replace (e - e) with 0 by lia. rewrite Hup, Hshr. cbn [Z.pow].
    repeat split; try lia.
Qed.

(** Rounding to nearest, ties to even, stays between floor and ceiling. *)
Lemma round_nearest_even_le mrs :
  0 <= shr_m mrs ->
  0 <= round_nearest_even (shr_m mrs) (loc_of_shr_record mrs) <= up mrs.
Proof.
  destruct mrs as [m r s]. unfold up. cbn [shr_m shr_r shr_s]. intros Hm.
  destruct r, s; cbn [loc_of_shr_record round_nearest_even orb];
    try destruct (Z.even m); lia.
Qed.

Lemma pow2_pos k : 0 <= k -> 0 < 2 ^ k.
Proof. intros. apply Z.pow_pos_nonneg; lia. Qed.

(** Rounding keeps a quantity that is at most [K] at most [K]. *)
Lemma binary_round_aux_bounded K mx ex lx :
  0 <= mx -> 0 < K < 2 ^ 53 ->
  Z.max ex (fexp prec emax (Zdigits2 mx + ex)) <= 0 ->
  up_loc mx lx <= K * 2 ^ (- ex) ->
  bounded_by K (binary_round_aux prec emax false mx ex lx).
Proof.
  intros Hmx HK He Hup. unfold binary_round_aux.
  destruct (shr_fexp prec emax mx ex lx) as [mrs1 e1] eqn:S1.
  destruct (shr_fexp_spec mx ex lx Hmx _ _ S1) as (E1 & P1 & _ & U1).
  pose proof (round_nearest_even_le mrs1 P1) as R1.
  set (m1 := round_nearest_even (shr_m mrs1) (loc_of_shr_record mrs1)) in *.
  destruct (shr_fexp prec emax m1 e1 loc_Exact) as [mrs2 e2] eqn:S2.
  destruct (shr_fexp_spec m1 e1 loc_Exact (proj1 R1) _ _ S2)
    as (E2 & P2 & F2 & _).
  assert (He1 : ex <= e1 <= 0) by lia.
  assert (B1 : m1 <= K * 2 ^ (- e1)).
  { apply Z.le_trans with (up mrs1); [lia |]. apply U1.
    replace (- ex) with ((e1 - ex) + (- e1)) in Hup by lia.
    rewrite Z.pow_add_r in Hup by lia. lia. }
  assert (D1 : Zdigits2 m1 + e1 <= 53).
  { assert (0 <= Zdigits2 m1 <= 53 - e1); [| lia].
    apply Zdigits2_le; [| lia]. split; [lia |].
    replace (53 - e1) with (53 + (- e1)) by lia.
    rewrite Z.pow_add_r by lia.
    pose proof (pow2_pos (- e1)). nia. }
  assert (He2 : e1 <= e2 <= 0).
  { rewrite E2. unfold fexp, emin. change prec with 53.
    change emax with 1024. lia. }
  assert (B2 : shr_m mrs2 <= K * 2 ^ (- e2)).
  { replace (- e1) with ((e2 - e1) + (- e2)) in B1 by lia.
    rewrite Z.pow_add_r in B1 by lia.
    pose proof (pow2_pos (e2 - e1)). pose proof (pow2_pos (- e2)). nia. }
  destruct (shr_m mrs2) as [| m | m]; cbn [bounded_by]; [exact I | | lia].
  replace (e2 <=? emax - prec) with true
    by (symmetry; apply Z.leb_le; change emax with 1024;
        change prec with 53; lia).
  cbn [bounded_by]. split; [lia | exact B2].
Qed.

Lemma up_loc_new_location n q r :
  up_loc q (new_location n r) = q + (if r =? 0 then 0 else 1).
Proof.
  unfold new_location, new_location_even, new_location_odd, up_loc.
  destruct (Z.even n), (r =? 0); reflexivity.
Qed.

(** The long division of two integers: quotient, exponent and remainder. *)
Lemma SFdiv_core_binary_spec a b :
  forall q e' l,
  SFdiv_core_binary prec emax (Zpos a) 0 (Zpos b) 0 = (q, e', l) ->
  e' <= 0 /\ 0 <= q /\ (Zpos a <= Zpos b -> up_loc q l <= 2 ^ (- e')).
Proof.
  intros q e' l. unfold SFdiv_core_binary.
  set (e0 := Z.min _ (0 - 0)).
  assert (He0 : e0 <= 0) by (unfold e0; lia).
  set (m' := match 0 - 0 - e0 with
             | Z0 => Zpos a
             | Zpos _ => Z.shiftl (Zpos a) (0 - 0 - e0)
             | Zneg _ => 0
             end).
  assert (Hm' : m' = Zpos a * 2 ^ (- e0)).
  { unfold m'. destruct (0 - 0 - e0) as [| p | p] eqn:Hs.
    - replace (- e0) with 0 by lia. cbn [Z.pow]. lia.
    - rewrite Z.shiftl_mul_pow2 by lia. f_equal. f_equal. lia.
    - lia. }
  pose proof (Z_div_mod m' (Zpos b) eq_refl) as Hdm.
  destruct (Z.div_eucl m' (Zpos b)) as [q0 r0].
  intros [= <- <- <-]. destruct Hdm as [Heq Hr].
  pose proof (pow2_pos (- e0)) as Hp.
  split; [exact He0 |]. split; [nia |].
  intros Hab. rewrite up_loc_new_location.
  destruct (Z.eqb_spec r0 0); nia.
Qed.

Lemma fexp_le_0 x : x <= 53 -> fexp prec emax x <= 0.
Proof. unfold fexp, emin. change prec with 53. change emax with 1024. lia. Qed.

(** The rounded quotient of [a <= b] is at most 1. *)
Lemma SFdiv_int_bounded a b :
  Zpos a <= Zpos b ->
  bounded_by 1 (SFdiv prec emax (S754_finite false a 0) (S754_finite false b 0)).
Proof.
  intros Hab. unfold SFdiv.
  destruct (SFdiv_core_binary prec emax (Zpos a) 0 (Zpos b) 0)
    as [[q e'] l] eqn:Hc.
  destruct (SFdiv_core_binary_spec a b _ _ _ Hc) as (He & Hq & Hup).
  specialize (Hup Hab). cbn [xorb].
  assert (Hql : q <= 2 ^ (- e')) by (unfold up_loc in Hup; destruct l; lia).
  apply binary_round_aux_bounded; try lia.
  apply Z.max_lub; [exact He |]. apply fexp_le_0.
  assert (0 <= Zdigits2 q <= - e' + 1); [| lia].
  apply Zdigits2_le; [| lia]. rewrite Z.pow_add_r by lia.
  pose proof (pow2_pos (- e')). lia.
Qed.

(** The rounded product of a float at most 1 by 100.0 is at most 100. *)
Lemma SFmul_100_bounded x :
  bounded_by 1 x -> bounded_by 100 (SFmul prec emax x (float_of_int 100)).
Proof.
  change (float_of_int 100) with (S754_finite false 7036874417766400 (-46)).
  destruct x as [[] | | | [] m e]; cbn [bounded_by]; try contradiction.
  - intros _. exact I.
  - intros [He Hm]. cbn [SFmul xorb].
    pose proof (pow2_pos (- e)) as Hp.
    assert (Hpow : 2 ^ (- (e + -46)) = 2 ^ 46 * 2 ^ (- e)).
    { replace (- (e + -46)) with (46 + (- e)) by lia. apply Z.pow_add_r; lia. }
    apply binary_round_aux_bounded; try lia.
    + apply Z.max_lub; [lia |]. apply fexp_le_0.
      assert (0 <= Zdigits2 (Zpos (m * 7036874417766400)) <= 53 + (- e));
        [| lia].
      apply Zdigits2_le; [| lia]. rewrite Z.pow_add_r by lia.
      rewrite Pos2Z.inj_mul. change (2 ^ 53) with 9007199254740992. lia.
    + unfold up_loc. rewrite Hpow, Pos2Z.inj_mul.
      change (2 ^ 46) with 70368744177664. lia.
Qed.

Lemma Qpower2_neg e :
  e <= 0 -> (Qpower 2 e == / inject_Z (2 ^ (- e)))%Q.
Proof.
  intros He. replace e with (- (- e)) at 1 by lia.
  rewrite Qpower_opp. apply Qinv_comp.
  rewrite Zpower_Qpower by lia. reflexivity.
Qed.

(** The integer bound read as a bound on the rational value. *)
Lemma bounded_by_Q K f :
  0 <= K -> bounded_by K f ->
  is_finite_SF f = true /\ (0 <= SF2Q f)%Q /\ (SF2Q f <= inject_Z K)%Q.
Proof.
  intros HK. destruct f as [[] | | | [] m e]; cbn [bounded_by]; try contradiction.
  - intros _. split; [reflexivity |]. cbn [SF2Q]. split; [apply Qle_refl |].
    change 0%Q with (inject_Z 0). rewrite <- Zle_Qle. exact HK.
  - intros [He Hm]. split; [reflexivity |]. cbn [SF2Q cond_Zopp].
    pose proof (pow2_pos (- e) ltac:(lia)) as Hp.
    assert (HpQ : (0 < inject_Z (2 ^ (- e)))%Q)
      by (change 0%Q with (inject_Z 0); rewrite <- Zlt_Qlt; exact Hp).
    rewrite (Qpower2_neg e He). split.
    + apply Qmult_le_0_compat;
        [change 0%Q with (inject_Z 0); rewrite <- Zle_Qle; lia |].
      apply Qlt_le_weak, Qinv_lt_0_compat, HpQ.
    + apply Qle_shift_div_r; [exact HpQ |].
      rewrite <- inject_Z_mult, <- Zle_Qle. exact Hm.
Qed.

End Rounding.

(** [c / n] for [0 <= c <= n] raises nothing and is at most 1. *)
Lemma int_truediv_bounded c n :
  (0 <= c <= n)%Z -> (0 < n)%Z ->
  int_truediv c n = Ok (SFdiv prec emax (int_operand c) (int_operand n)) /\
  bounded_by 1 (SFdiv prec emax (int_operand c) (int_operand n)).
Proof.
  intros Hc Hn. unfold int_truediv.
  destruct (Z.eqb_spec n 0) as [-> | _]; [lia |].
  destruct n as [| b | b]; try lia.
  destruct c as [| a | a]; try lia.
  - split; reflexivity.
  - pose proof (SFdiv_int_bounded a b (proj2 Hc)) as Hb.
    cbn [int_operand].
    destruct (SFdiv prec emax (S754_finite false a 0) (S754_finite false b 0))
      as [[] | | | [] m e]; cbn [bounded_by] in Hb; try contradiction;
      split; solve [reflexivity | exact I | exact Hb].
Qed.

(** The division and the product of the embedding agree with the
    binary64 arithmetic of the machine on sample operands. *)
Example int_truediv_machine :
  int_truediv 1 3 = Ok (Prim2SF (1 / 3)%float) /\
  int_truediv 2 7 = Ok (Prim2SF (2 / 7)%float) /\
  int_truediv 999 1000 = Ok (Prim2SF (999 / 1000)%float) /\
  int_truediv 0 5 = Ok (Prim2SF (0 / 5)%float).
Proof. repeat split; vm_compute; reflexivity. Qed.

(** Operands too long for a float are divided exactly and rounded once,
    as Python does: 9007199254740993 / 3 is 3002399751580331.0. *)
Example int_truediv_long_operand :
  int_truediv 9007199254740993 3 = Ok (S754_finite false 6004799503160662 (-1)).
Proof. vm_compute. reflexivity. Qed.

Example float_mul_int_machine :
  float_mul_int (Prim2SF (1 / 3)%float) 100 = Prim2SF (1 / 3 * 100)%float /\
  float_mul_int (Prim2SF (2 / 7)%float) 100 = Prim2SF (2 / 7 * 100)%float /\
  float_mul_int (Prim2SF (999 / 1000)%float) 100 =
    Prim2SF (999 / 1000 * 100)%float.
Proof. repeat split; vm_compute; reflexivity. Qed.

(** ** Accuracy of the quotient and of the product (line 67) *)

(** Rounding to nearest moves a quantity by at most half a unit of the
    exponent it lands on.  The shift register keeps the exact quantity
    located to the half unit; the last shift, after rounding, drops a
    zero bit at most. *)

Section Nearest.
Local Open Scope Z_scope.

Lemma locates_shr_1 N D x :
  0 < D -> 0 <= shr_m x -> locates N D x -> locates N (2 * D) (shr_1 x).
Proof.
  destruct x as [m r s]. unfold locates. cbn [shr_m shr_r shr_s].
  intros HD Hm.
  destruct m as [| [p | p |] | p]; try lia; cbn [shr_1 shr_m shr_r shr_s];
    rewrite ?(Pos2Z.inj_xI p), ?(Pos2Z.inj_xO p);
    destruct r, s; cbn [orb]; nia.
Qed.

Lemma locates_iter_pos N p : forall D x,
  0 < D -> 0 <= shr_m x -> locates N D x ->
  locates N (D * 2 ^ Zpos p) (iter_pos shr_1 p x).
Proof.
  assert (Hstep : forall D x, 0 < D -> 0 <= shr_m x -> locates N D x ->
            0 <= shr_m (shr_1 x) /\ locates N (D * 2 ^ 1) (shr_1 x)).
  { intros D x HD Hm H. split.
    - destruct (shifted_shr_1 x Hm) as [H0 _]. exact H0.
    - change (2 ^ 1) with 2. rewrite Z.mul_comm. now apply locates_shr_1. }
  induction p as [p IH | p IH |]; intros D x HD Hm H; simpl iter_pos.
  - destruct (Hstep D x HD Hm H) as [H0 HL].
    destruct (shifted_iter_pos p (shr_1 x) H0) as (H1 & _).
    pose proof (pow2_pos (Zpos p) ltac:(lia)) as Hp.
    replace (D * 2 ^ Zpos p~1) with (D * 2 ^ 1 * 2 ^ Zpos p * 2 ^ Zpos p).
    + apply IH; [nia | exact H1 |]. apply IH; [lia | exact H0 | exact HL].
    + rewrite (Pos2Z.inj_xI p), <- !Z.mul_assoc, <- !Z.pow_add_r by lia.
      f_equal. f_equal. lia.
  - destruct (shifted_iter_pos p x Hm) as (H1 & _).
    pose proof (pow2_pos (Zpos p) ltac:(lia)) as Hp.
    replace (D * 2 ^ Zpos p~0) with (D * 2 ^ Zpos p * 2 ^ Zpos p).
    + apply IH; [nia | exact H1 |]. now apply IH.
    + rewrite (Pos2Z.inj_xO p), <- !Z.mul_assoc, <- !Z.pow_add_r by lia.
      f_equal. f_equal. lia.
  - now apply Hstep.
Qed.

Lemma shr_fexp_locates N D m e l :
  0 <= m -> 0 < D -> locates N D (shr_record_of_loc m l) ->
  forall mrs e', shr_fexp prec emax m e l = (mrs, e') ->
  locates N (D * 2 ^ (e' - e)) mrs.
Proof.
  intros Hm HD H mrs e'. unfold shr_fexp, shr.
  destruct (up_record_of_loc m l) as [_ Hshr].
  destruct (fexp prec emax (Zdigits2 m + e) - e) as [| p | p] eqn:Hn;
    intros [= <- <-].
  - replace (e - e) with 0 by lia. now rewrite Z.mul_1_r.
  - replace (e + Zpos p - e) with (Zpos p) by lia.
    apply locates_iter_pos; [exact HD | now rewrite Hshr | exact H].
  - replace (e - e) with 0 by lia. now rewrite Z.mul_1_r.
Qed.

Lemma round_nearest_even_near N D mrs :
  0 < D -> locates N D mrs ->
  Z.abs (2 * D * round_nearest_even (shr_m mrs) (loc_of_shr_record mrs) - 2 * N)
    <= D.
Proof.
  destruct mrs as [m r s]. unfold locates. cbn [shr_m shr_r shr_s].
  intros HD.
  destruct r, s; cbn [loc_of_shr_record round_nearest_even];
    try destruct (Z.even m); nia.
Qed.

Lemma Zdigits2_lt m : 0 <= m -> m < 2 ^ Zdigits2 m.
Proof.
  destruct m as [| p | p]; simpl; try lia. intros _.
  apply (digits2_pos_bounds p).
Qed.

Lemma Zdigits2_mono a b : 0 <= a <= b -> Zdigits2 a <= Zdigits2 b.
Proof.
  intros [Ha Hab]. destruct a as [| p | p]; try lia.
  - destruct b; simpl; lia.
  - destruct b as [| q | q]; try lia. simpl.
    pose proof (digits2_pos_bounds p) as [Hlo _].
    pose proof (digits2_pos_bounds q) as [_ Hhi].
    assert (2 ^ (Zpos (digits2_pos p) - 1) < 2 ^ Zpos (digits2_pos q)) by lia.
    apply Z.pow_lt_mono_r_iff in H; lia.
Qed.


Lemma shr_fexp_exact M e :
  0 <= M <= 2 ^ 53 -> emin <= e ->
  forall mrs e2, shr_fexp prec emax M e loc_Exact = (mrs, e2) ->
  e <= e2 <= e + 1 /\ shr_m mrs * 2 ^ (e2 - e) = M.
Proof.
  intros [H0 HM] He mrs e2. unfold emin in He.
  change prec with 53 in He. change emax with 1024 in He.
  destruct (Z.eq_dec M (2 ^ 53)) as [-> | Hne].
  - unfold shr_fexp, shr. change (Zdigits2 (2 ^ 53)) with 54.
    replace (fexp prec emax (54 + e) - e) with 1
      by (unfold fexp, emin; change prec with 53; change emax with 1024; lia).
    intros [= <- <-]. split; [lia |].
    replace (e + 1 - e) with 1 by lia. reflexivity.
  - assert (Hd : 0 <= Zdigits2 M <= 53) by (apply Zdigits2_le; lia).
    unfold shr_fexp, shr.
    destruct (fexp prec emax (Zdigits2 M + e) - e) as [| p | p] eqn:Hn;
      intros [= <- <-].
    + split; [lia |]. replace (e - e) with 0 by lia. cbn. lia.
    + exfalso. revert Hn. unfold fexp, emin. change prec with 53.
      change emax with 1024. lia.
    + split; [lia |]. replace (e - e) with 0 by lia. cbn. lia.
Qed.

Lemma fexp_ge x : x - 53 <= fexp prec emax x /\ emin <= fexp prec emax x.
Proof. unfold fexp. change prec with 53. lia. Qed.

Lemma binary_round_aux_near N D mx ex lx k :
  0 <= mx -> 0 < D -> ex <= 0 -> 2 <= k ->
  locates N D (shr_record_of_loc mx lx) ->
  Z.max ex (fexp prec emax (Zdigits2 mx + ex)) <= 1 - k ->
  near k N (D * 2 ^ (- ex)) (binary_round_aux prec emax false mx ex lx).
Proof.
  intros Hmx HD Hex Hk Hloc He. unfold binary_round_aux.
  destruct (shr_fexp prec emax mx ex lx) as [mrs1 e1] eqn:S1.
  destruct (shr_fexp_spec mx ex lx Hmx _ _ S1) as (E1 & P1 & F1 & _).
  pose proof (shr_fexp_locates N D mx ex lx Hmx HD Hloc _ _ S1) as L1.
  pose proof (round_nearest_even_le mrs1 P1) as R1.
  assert (HK : 0 < 2 ^ (e1 - ex)) by (apply pow2_pos; lia).
  pose proof (round_nearest_even_near N (D * 2 ^ (e1 - ex)) mrs1
                ltac:(nia) L1) as Hnear.
  set (M := round_nearest_even (shr_m mrs1) (loc_of_shr_record mrs1)) in *.
  assert (Hm1 : shr_m mrs1 < 2 ^ 53).
  { pose proof (Zdigits2_lt mx Hmx) as Hlt.
    pose proof (fexp_ge (Zdigits2 mx + ex)) as [Hf _].
    assert (Hle : 2 ^ Zdigits2 mx <= 2 ^ (53 + (e1 - ex)))
      by (apply Z.pow_le_mono_r; lia).
    rewrite Z.pow_add_r in Hle by lia. nia. }
  assert (HM : 0 <= M <= 2 ^ 53).
  { split; [lia |]. destruct R1 as [_ R1]. unfold up in R1.
    destruct (shr_r mrs1 || shr_s mrs1); lia. }
  assert (Hemin : emin <= e1).
  { pose proof (fexp_ge (Zdigits2 mx + ex)) as [_ Hf]. lia. }
  destruct (shr_fexp prec emax M e1 loc_Exact) as [mrs2 e2] eqn:S2.
  destruct (shr_fexp_exact M e1 HM Hemin _ _ S2) as (E2 & X2).
  assert (HL : 0 < 2 ^ (e2 - e1)) by (apply pow2_pos; lia).
  assert (Hsplit : 2 ^ (- e1) = 2 ^ (k - 1) * 2 ^ (1 - k - e1)).
  { rewrite <- Z.pow_add_r by lia. f_equal. lia. }
  assert (HQ : 0 < 2 ^ (k - 1)) by (apply pow2_pos; lia).
  assert (HW : 0 < 2 ^ (1 - k - e1)) by (apply pow2_pos; lia).
  assert (Hk2 : 2 ^ k = 2 * 2 ^ (k - 1)).
  { replace k with (1 + (k - 1)) at 1 by lia. rewrite Z.pow_add_r by lia.
    reflexivity. }
  assert (Hx : 2 ^ (- ex) = 2 ^ (e1 - ex) * 2 ^ (- e1)).
  { rewrite <- Z.pow_add_r by lia. f_equal. lia. }
  destruct (shr_m mrs2) as [| m | m] eqn:Hm2; cbn [near].
  - assert (M = 0) by lia. rewrite H in Hnear.
    rewrite Hk2, Hx, Hsplit.
    replace (2 * (D * 2 ^ (e1 - ex)) * 0 - 2 * N) with (- (2 * N)) in Hnear
      by ring.
    rewrite Z.abs_opp, Z.abs_mul in Hnear. change (Z.abs 2) with 2 in Hnear.
    nia.
  - replace (e2 <=? emax - prec) with true
      by (symmetry; apply Z.leb_le; change emax with 1024;
          change prec with 53; lia).
    cbn [near]. split; [lia |].
    assert (HPe : 0 < 2 ^ (- e2)) by (apply pow2_pos; lia).
    assert (HLP : 2 ^ (- e1) = 2 ^ (e2 - e1) * 2 ^ (- e2)).
    { rewrite <- Z.pow_add_r by lia. f_equal. lia. }
    rewrite Hk2, Hx. rewrite <- X2 in Hnear.
    set (K := 2 ^ (e1 - ex)) in *. set (L := 2 ^ (e2 - e1)) in *.
    set (Pe := 2 ^ (- e2)) in *. set (Q1 := 2 ^ (k - 1)) in *.
    set (W := 2 ^ (1 - k - e1)) in *.
    replace (2 * (D * K) * (Zpos m * L) - 2 * N)
      with (2 * (D * K * (Zpos m * L) - N)) in Hnear by ring.
    rewrite Z.abs_mul in Hnear. change (Z.abs 2) with 2 in Hnear.
    replace (D * (K * 2 ^ (- e1)) * Zpos m - N * Pe)
      with (Pe * (D * K * (Zpos m * L) - N)) by (rewrite HLP; ring).
    rewrite Z.abs_mul, (Z.abs_eq Pe) by lia.
    set (A := Z.abs (D * K * (Zpos m * L) - N)) in *.
    assert (HA : 0 <= A) by apply Z.abs_nonneg.
    rewrite Hsplit.
    apply Z.le_trans with (Pe * Q1 * (D * K)); [nia |].
    replace (D * (K * (Q1 * W)) * Pe) with (Pe * Q1 * (D * K) * W) by ring.
    assert (0 <= Pe * Q1 * (D * K)) by nia. nia.
  - lia.
Qed.


(** The quotient and the remainder of the long division locate the
    exact quotient. *)
Lemma locates_new_location n q r :
  0 < n -> 0 <= r < n ->
  locates (q * n + r) n (shr_record_of_loc q (new_location n r)).
Proof.
  intros Hn Hr. unfold new_location, new_location_even, new_location_odd.
  destruct (Z.even n) eqn:Hev.
  - destruct (Z.eqb_spec r 0) as [-> | Hr0];
      [| destruct (Z.compare_spec (2 * r) n)];
      unfold locates; cbn [shr_record_of_loc shr_m shr_r shr_s]; nia.
  - assert (Hodd : Z.odd n = true) by (rewrite <- Z.negb_even, Hev; reflexivity).
    apply Z.odd_spec in Hodd as [c Hc].
    destruct (Z.eqb_spec r 0) as [-> | Hr0];
      [| destruct (Z.compare_spec (2 * r + 1) n)];
      unfold locates; cbn [shr_record_of_loc shr_m shr_r shr_s]; nia.
Qed.

Lemma SFdiv_core_binary_locates a b :
  Zpos a <= Zpos b ->
  forall q e' l,
  SFdiv_core_binary prec emax (Zpos a) 0 (Zpos b) 0 = (q, e', l) ->
  e' <= -53 /\ 0 <= q <= 2 ^ (- e') /\
  locates (Zpos a * 2 ^ (- e')) (Zpos b) (shr_record_of_loc q l).
Proof.
  intros Hab q e' l. unfold SFdiv_core_binary.
  set (e0 := Z.min _ (0 - 0)).
  assert (He0 : e0 <= -53).
  { unfold e0. pose proof (Zdigits2_mono (Zpos a) (Zpos b) ltac:(lia)).
    unfold fexp, emin. change prec with 53. change emax with 1024. lia. }
  set (m' := match 0 - 0 - e0 with
             | Z0 => Zpos a
             | Zpos _ => Z.shiftl (Zpos a) (0 - 0 - e0)
             | Zneg _ => 0
             end).
  assert (Hm' : m' = Zpos a * 2 ^ (- e0)).
  { unfold m'. destruct (0 - 0 - e0) as [| p | p] eqn:Hs.
    - lia.
    - rewrite Z.shiftl_mul_pow2 by lia. f_equal. f_equal. lia.
    - lia. }
  pose proof (Z_div_mod m' (Zpos b) eq_refl) as Hdm.
  destruct (Z.div_eucl m' (Zpos b)) as [q0 r0].
  intros [= <- <- <-]. destruct Hdm as [Heq Hr].
  pose proof (pow2_pos (- e0) ltac:(lia)) as Hp.
  split; [exact He0 |]. split; [nia |].
  rewrite <- Hm', Heq, (Z.mul_comm (Zpos b)).
  apply locates_new_location; lia.
Qed.

Lemma near_cancel k N D P f :
  0 < P -> near k (N * P) (D * P) f -> near k N D f.
Proof.
  intros HP. destruct f as [[] | | | [] m e]; cbn [near]; try tauto.
  - rewrite Z.abs_mul, (Z.abs_eq P) by lia. nia.
  - intros [He H]. split; [exact He |].
    replace (D * P * Zpos m - N * P * 2 ^ (- e))
      with (P * (D * Zpos m - N * 2 ^ (- e))) in H by ring.
    rewrite Z.abs_mul, (Z.abs_eq P) in H by lia.
    pose proof (Z.abs_nonneg (D * Zpos m - N * 2 ^ (- e))).
    pose proof (pow2_pos k) as Hk.
    nia.
Qed.

(** The rounded quotient of [a <= b] is within [2^-53] of [a / b]. *)
Lemma SFdiv_int_near a b :
  Zpos a <= Zpos b ->
  near 53 (Zpos a) (Zpos b)
       (SFdiv prec emax (S754_finite false a 0) (S754_finite false b 0)).
Proof.
  intros Hab. unfold SFdiv.
  destruct (SFdiv_core_binary prec emax (Zpos a) 0 (Zpos b) 0)
    as [[q e'] l] eqn:Hc.
  destruct (SFdiv_core_binary_locates a b Hab _ _ _ Hc) as (He & Hq & Hloc).
  cbn [xorb]. pose proof (pow2_pos (- e') ltac:(lia)) as Hp.
  apply (near_cancel 53 _ _ (2 ^ (- e'))); [exact Hp |].
  apply binary_round_aux_near; try lia; try exact Hloc.
  apply Z.max_lub; [lia |].
  assert (0 <= Zdigits2 q <= - e' + 1).
  { apply Zdigits2_le; [| lia]. rewrite Z.pow_add_r by lia. lia. }
  unfold fexp, emin. change prec with 53. change emax with 1024. lia.
Qed.


(** The rounded product of a float at most 1 by 100.0. *)
Lemma SFmul_100_near m e :
  e <= 0 -> Zpos m <= 2 ^ (- e) ->
  near 47 (100 * Zpos m) (2 ^ (- e))
       (SFmul prec emax (S754_finite false m e) (float_of_int 100)).
Proof.
  change (float_of_int 100) with (S754_finite false 7036874417766400 (-46)).
  intros He Hm. cbn [SFmul xorb].
  pose proof (pow2_pos (- e) ltac:(lia)) as Hp.
  apply (near_cancel 47 _ _ (2 ^ 46)); [lia |].
  replace (2 ^ (- e) * 2 ^ 46) with (1 * 2 ^ (- (e + -46))).
  2:{ rewrite Z.mul_1_l, <- Z.pow_add_r by lia. f_equal. lia. }
  replace (100 * Zpos m * 2 ^ 46) with (Zpos (m * 7036874417766400))
    by (rewrite Pos2Z.inj_mul; change (2 ^ 46) with 70368744177664; lia).
  apply binary_round_aux_near; try lia.
  - unfold locates. cbn [shr_record_of_loc shr_m shr_r shr_s]. lia.
  - apply Z.max_lub; [lia |].
    assert (0 <= Zdigits2 (Zpos (m * 7036874417766400)) <= 53 + (- e)).
    { apply Zdigits2_le; [| lia]. rewrite Z.pow_add_r by lia.
      rewrite Pos2Z.inj_mul. change (2 ^ 53) with 9007199254740992. lia. }
    unfold fexp, emin. change prec with 53. change emax with 1024. lia.
Qed.

End Nearest.

Lemma Qdiv_le_div (a b c d : Z) :
  (0 < b)%Z -> (0 < d)%Z -> (a * d <= c * b)%Z ->
  (inject_Z a / inject_Z b <= inject_Z c / inject_Z d)%Q.
Proof.
  intros Hb Hd H.
  assert (HbQ : (0 < inject_Z b)%Q)
    by (change 0%Q with (inject_Z 0); now rewrite <- Zlt_Qlt).
  assert (HdQ : (0 < inject_Z d)%Q)
    by (change 0%Q with (inject_Z 0); now rewrite <- Zlt_Qlt).
  apply Qle_shift_div_r; [exact HbQ |].
  setoid_replace (inject_Z c / inject_Z d * inject_Z b)%Q
    with (inject_Z c * inject_Z b / inject_Z d)%Q
    by (field; intros E; rewrite E in HdQ; discriminate).
  apply Qle_shift_div_l; [exact HdQ |].
  rewrite <- !inject_Z_mult, <- Zle_Qle. exact H.
Qed.

(** A bound on the integers read as a bound on the rational values. *)
Lemma near_Q k N D f :
  (0 < D)%Z -> (0 <= k)%Z -> near k N D f ->
  (Qabs (SF2Q f - inject_Z N / inject_Z D) <= 1 / inject_Z (2 ^ k))%Q.
Proof.
  intros HD Hk.
  pose proof (pow2_pos k Hk) as HT.
  assert (HDQ : ~ (inject_Z D == 0)%Q).
  { intros E. unfold Qeq in E. cbn in E. lia. }
  assert (HTQ : ~ (inject_Z (2 ^ k) == 0)%Q).
  { intros E. unfold Qeq in E. cbn [inject_Z Qnum Qden] in E. lia. }
  assert (Hneg : (- (1 / inject_Z (2 ^ k)) == inject_Z (-1) / inject_Z (2 ^ k))%Q).
  { change (inject_Z (-1)) with (- (1))%Q. field. exact HTQ. }
  destruct f as [[] | | | [] m e]; cbn [near]; try tauto.
  - intros H. cbn [SF2Q].
    assert (HN : (- D <= N * 2 ^ k <= D)%Z)
      by (destruct (Z.abs_spec N) as [[_ E] | [_ E]]; rewrite E in H; lia).
    setoid_replace (0 - inject_Z N / inject_Z D)%Q
      with (inject_Z (- N) / inject_Z D)%Q
      by (rewrite inject_Z_opp; field; exact HDQ).
    apply Qabs_Qle_condition. split.
    + rewrite Hneg.
      apply Qdiv_le_div; lia.
    + change 1%Q with (inject_Z 1). apply Qdiv_le_div; lia.
  - intros [He H]. cbn [SF2Q cond_Zopp].
    pose proof (pow2_pos (- e) ltac:(lia)) as HP.
    assert (HPQ : ~ (inject_Z (2 ^ (- e)) == 0)%Q).
    { intros E. unfold Qeq in E. cbn [inject_Z Qnum Qden] in E. lia. }
    rewrite (Qpower2_neg e He).
    setoid_replace
      (inject_Z (Zpos m) * / inject_Z (2 ^ (- e)) - inject_Z N / inject_Z D)%Q
      with (inject_Z (D * Zpos m - N * 2 ^ (- e))
            / inject_Z (D * 2 ^ (- e)))%Q
      by (unfold Z.sub; rewrite inject_Z_plus, inject_Z_opp, !inject_Z_mult;
          field; split; assumption).
    assert (HX : (- (D * 2 ^ (- e))
                  <= (D * Zpos m - N * 2 ^ (- e)) * 2 ^ k
                  <= D * 2 ^ (- e))%Z).
    { destruct (Z.abs_spec (D * Zpos m - N * 2 ^ (- e))) as [[? E] | [? E]];
        rewrite E in H; nia. }
    apply Qabs_Qle_condition. split.
    + rewrite Hneg.
      apply Qdiv_le_div; lia.
    + change 1%Q with (inject_Z 1). apply Qdiv_le_div; lia.
Qed.

(** The product by 100.0 of a float at most 1, against the exact
    product. *)
Lemma SFmul_100_near_Q x :
  bounded_by 1 x ->
  (Qabs (SF2Q (float_mul_int x 100) - 100 * SF2Q x) <= 1 / inject_Z (2 ^ 47))%Q.
Proof.
  unfold float_mul_int.
  destruct x as [[] | | | [] m e]; cbn [bounded_by]; try contradiction.
  - intros _. vm_compute. discriminate.
  - intros [He Hm]. rewrite Z.mul_1_l in Hm.
    pose proof (SFmul_100_near m e He Hm) as H.
    apply near_Q in H; [| apply pow2_pos; lia | lia].
    setoid_replace (100 * SF2Q (S754_finite false m e))%Q
      with (inject_Z (100 * Zpos m) / inject_Z (2 ^ (- e)))%Q; [exact H |].
    cbn [SF2Q cond_Zopp]. rewrite (Qpower2_neg e He), inject_Z_mult.
    unfold Qdiv. change (inject_Z 100) with 100%Q. ring.
Qed.

(** The score against the exact percentage. *)
Lemma scaled_quotient_near c n :
  (0 <= c <= n)%Z -> (0 < n)%Z ->
  (Qabs (SF2Q (float_mul_int
                 (SFdiv prec emax (int_operand c) (int_operand n)) 100)
         - 100 * (inject_Z c / inject_Z n))
   <= Qpower 2 (-45))%Q.
Proof.
  intros Hc Hn.
  destruct (int_truediv_bounded c n Hc Hn) as [_ Hb].
  pose proof (SFmul_100_near_Q _ Hb) as Hmul.
  assert (Hdiv : (Qabs (SF2Q (SFdiv prec emax (int_operand c) (int_operand n))
                        - inject_Z c / inject_Z n)
                  <= 1 / inject_Z (2 ^ 53))%Q).
  { destruct n as [| b | b]; try lia. destruct c as [| a | a]; try lia.
    - cbn [int_operand SFdiv xorb SF2Q]. vm_compute. discriminate.
    - apply near_Q; [lia | lia |]. apply SFdiv_int_near. lia. }
  set (s := SF2Q (float_mul_int _ 100)) in *.
  set (q := SF2Q (SFdiv prec emax _ _)) in *.
  set (t := (inject_Z c / inject_Z n)%Q) in *.
  apply Qabs_Qle_condition in Hmul, Hdiv.
  apply Qabs_Qle_condition.
  change (Qpower 2 (-45)) with (1 # 35184372088832)%Q.
  change (1 / inject_Z (2 ^ 47))%Q with (1 # 140737488355328)%Q in Hmul.
  change (1 / inject_Z (2 ^ 53))%Q with (1 # 9007199254740992)%Q in Hdiv.
  lra.
Qed.

(** ** Strings *)

Lemma prefix_iff k : forall s,
  String.prefix k s = true <-> exists post, s = (k ++ post)%string.
Proof.
  induction k as [| a k IH]; intros [| b s]; simpl String.prefix.
  - split; [intros _; now exists EmptyString | reflexivity].
  - split; [intros _; now exists (String b s) | reflexivity].
  - split; [discriminate | intros [post H]; discriminate].
  - destruct (ascii_dec a b) as [-> | Hab].
    + rewrite IH. split; intros [post H]; exists post.
      * cbn. now rewrite H.
      * cbn in H. now injection H.
    + split; [discriminate |]. intros [post H]. cbn in H.
      injection H as H1 _. now elim Hab.
Qed.

Lemma str_in_unfold k s :
  str_in k s =
  if String.prefix k s then true
  else match s with
       | EmptyString => false
       | String _ s' => str_in k s'
       end.
Proof. destruct s; reflexivity. Qed.

Lemma str_in_iff k s : str_in k s = true <-> substring_of k s.
Proof.
  unfold substring_of. split.
  - induction s as [| c s IH]; rewrite str_in_unfold;
      destruct (String.prefix k _) eqn:Hp.
    + intros _. apply prefix_iff in Hp as [post ->]. now exists EmptyString, post.
    + discriminate.
    + intros _. apply prefix_iff in Hp as [post ->]. now exists EmptyString, post.
    + intros H. destruct (IH H) as (pre & post & ->).
      now exists (String c pre), post.
  - intros (pre & post & ->). induction pre as [| c pre IH].
    + rewrite str_in_unfold.
      replace (String.prefix k (EmptyString ++ k ++ post)) with true; [reflexivity |].
      symmetry. apply prefix_iff. now exists post.
    + rewrite str_in_unfold. destruct (String.prefix k _); [reflexivity |].
      exact IH.
Qed.

(** ** Dictionaries and grouping *)

Lemma pyval_eqb_spec a b : reflect (a = b) (pyval_eqb a b).
Proof.
  destruct a as [| x], b as [| y]; cbn; try (constructor; congruence).
  destruct (String.eqb_spec x y); constructor; congruence.
Qed.

Lemma pyval_eqb_refl a : pyval_eqb a a = true.
Proof. now destruct (pyval_eqb_spec a a). Qed.

Lemma dict_mem_iff {V} k (d : dict V) :
  dict_mem k d = true <-> In k (map fst d).
Proof.
  unfold dict_mem. rewrite existsb_exists, in_map_iff. split.
  - intros (kv & Hin & Heq). exists kv.
    destruct (pyval_eqb_spec (fst kv) k); [auto | discriminate].
  - intros (kv & <- & Hin). exists kv. now rewrite pyval_eqb_refl.
Qed.

Lemma dict_set_fresh {V} k (v : V) d :
  ~ In k (map fst d) -> dict_set k v d = d ++ [(k, v)].
Proof.
  induction d as [| [k' w] d IH]; cbn; [reflexivity |]. intros Hn.
  destruct (pyval_eqb_spec k' k) as [-> | _]; [tauto |].
  rewrite IH; tauto.
Qed.

Lemma in_uniq x l : In x (uniq l) <-> In x l.
Proof.
  induction l as [| a l IH]; cbn; [tauto |].
  rewrite filter_In, IH.
  destruct (pyval_eqb_spec a x) as [-> | Hne]; cbn; intuition congruence.
Qed.

Lemma NoDup_filter {A} (f : A -> bool) l : NoDup l -> NoDup (filter f l).
Proof.
  induction 1 as [| x l Hx Hl IH]; cbn; [constructor |].
  destruct (f x); [constructor |]; auto.
  rewrite filter_In. tauto.
Qed.

Lemma NoDup_uniq l : NoDup (uniq l).
Proof.
  induction l as [| a l IH]; cbn; constructor.
  - rewrite filter_In, pyval_eqb_refl. cbn. intros [_ H]. discriminate.
  - now apply NoDup_filter.
Qed.

Lemma uniq_snoc l x :
  uniq (l ++ [x]) = if existsb (pyval_eqb x) l then uniq l else uniq l ++ [x].
Proof.
  induction l as [| a l IH]; cbn; [reflexivity |].
  rewrite IH. destruct (pyval_eqb_spec x a) as [-> | Hne]; cbn.
  - destruct (existsb (pyval_eqb a) l); [reflexivity |].
    rewrite filter_app. cbn. rewrite pyval_eqb_refl. cbn.
    now rewrite app_nil_r.
  - destruct (existsb (pyval_eqb x) l); [reflexivity |].
    rewrite filter_app. cbn.
    destruct (pyval_eqb_spec a x); [congruence |]. reflexivity.
Qed.

Lemma existsb_pyval_eqb x l : existsb (pyval_eqb x) l = true <-> In x l.
Proof.
  rewrite existsb_exists. split.
  - intros (y & Hin & Heq). now destruct (pyval_eqb_spec x y); subst.
  - intros Hin. exists x. now rewrite pyval_eqb_refl.
Qed.

Lemma group_step_item cs p :
  group_step cs p = (it <- row_item p ;; Ok (group_add cs it)).
Proof.
  unfold group_step, row_item, group_add, bind.
  destruct (row_getitem p "Category") as [cat | e]; [| reflexivity].
  destruct (row_getitem p "Product Name"); reflexivity.
Qed.

Lemma for_each_group_step ps : forall cs,
  for_each group_step ps cs =
  (its <- catalog ps ;; Ok (fold_left group_add its cs)).
Proof.
  induction ps as [| p ps IH]; intros cs; cbn [for_each catalog]; [reflexivity |].
  rewrite group_step_item. destruct (row_item p) as [it | e]; cbn [bind]; [| reflexivity].
  rewrite IH. destruct (catalog ps); reflexivity.
Qed.

Lemma members_snoc c items c' n :
  members c (items ++ [(c', n)]) =
  if pyval_eqb c' c then members c items ++ [n] else members c items.
Proof.
  unfold members. rewrite filter_app, map_app. cbn.
  destruct (pyval_eqb c' c); cbn; [reflexivity | apply app_nil_r].
Qed.

Lemma members_nil c items : ~ In c (map fst items) -> members c items = [].
Proof.
  unfold members. induction items as [| [k n] items IH]; cbn; [reflexivity |].
  intros Hn. destruct (pyval_eqb_spec k c); [tauto |]. apply IH. tauto.
Qed.

Lemma group_add_spec items it :
  group_add (group_spec items) it = group_spec (items ++ [it]).
Proof.
  destruct it as [c n]. unfold group_add, group_spec. cbn [fst snd].
  rewrite map_app. cbn [map fst]. rewrite uniq_snoc.
  set (ks := uniq (map fst items)).
  assert (Hmap : forall l,
    (forall k, In k l -> k <> c) ->
    dict_append c n (map (fun cat => (cat, members cat items)) l) =
    map (fun cat => (cat, members cat (items ++ [(c, n)]))) l).
  { intros l Hl. unfold dict_append. rewrite map_map. apply map_ext_in.
    intros k Hk. cbn [fst snd]. rewrite members_snoc.
    destruct (pyval_eqb_spec k c) as [-> | _]; [now elim (Hl c Hk) |].
    destruct (pyval_eqb_spec c k) as [-> | _]; [now elim (Hl k Hk) | reflexivity]. }
  destruct (existsb (pyval_eqb c) (map fst items)) eqn:Hmem.
  - replace (dict_mem c (map (fun cat => (cat, members cat items)) ks)) with true.
    + unfold dict_append. rewrite map_map. apply map_ext. intros k.
      cbn [fst snd]. rewrite members_snoc.
      destruct (pyval_eqb_spec k c) as [-> | Hne].
      * now rewrite pyval_eqb_refl.
      * destruct (pyval_eqb_spec c k); [congruence | reflexivity].
    + symmetry. apply dict_mem_iff. rewrite map_map. cbn [fst]. rewrite map_id.
      apply in_uniq. now apply existsb_pyval_eqb.
  - assert (Hnin : ~ In c (map fst items)).
    { intros H. apply existsb_pyval_eqb in H. congruence. }
    assert (Hks : forall k, In k ks -> k <> c).
    { intros k Hk ->. apply (proj1 (in_uniq _ _)) in Hk. tauto. }
    replace (dict_mem c (map (fun cat => (cat, members cat items)) ks)) with false.
    + rewrite dict_set_fresh.
      * rewrite map_app. cbn [map]. unfold dict_append at 1. rewrite map_app.
        fold (dict_append c n (map (fun cat => (cat, members cat items)) ks)).
        rewrite (Hmap ks Hks). cbn [map fst snd]. rewrite pyval_eqb_refl.
        rewrite members_snoc, pyval_eqb_refl, (members_nil c items Hnin).
        reflexivity.
      * rewrite map_map. cbn [fst]. rewrite map_id. intros H. now apply (Hks c).
    + symmetry. apply not_true_is_false. rewrite dict_mem_iff.
      rewrite map_map. cbn [fst]. rewrite map_id. intros H. now apply (Hks c).
Qed.

Lemma group_fold items : fold_left group_add items [] = group_spec items.
Proof.
  induction items as [| it items IH] using rev_ind; [reflexivity |].
  rewrite fold_left_app. cbn [fold_left]. rewrite IH. apply group_add_spec.
Qed.

Lemma group_products_spec ps :
  group_products ps = (its <- catalog ps ;; Ok (group_spec its)).
Proof.
  unfold group_products. rewrite for_each_group_step.
  destruct (catalog ps); cbn [bind]; [| reflexivity]. now rewrite group_fold.
Qed.

Lemma group_spec_keys items : map fst (group_spec items) = uniq (map fst items).
Proof. unfold group_spec. rewrite map_map. cbn [fst]. apply map_id. Qed.

Lemma in_group_spec c l items :
  In (c, l) (group_spec items) <-> In c (map fst items) /\ l = members c items.
Proof.
  unfold group_spec. rewrite in_map_iff. split.
  - intros (k & [= <- <-] & Hk). split; [now apply in_uniq | reflexivity].
  - intros [Hc ->]. exists c. split; [reflexivity | now apply in_uniq].
Qed.

Lemma in_members c n items : In n (members c items) <-> In (c, n) items.
Proof.
  unfold members. rewrite in_map_iff. split.
  - intros ([k n'] & <- & Hin). apply filter_In in Hin as [Hin Heq].
    cbn in Heq |- *. now destruct (pyval_eqb_spec k c); subst.
  - intros Hin. exists (c, n). split; [reflexivity |].
    apply filter_In. cbn. now rewrite pyval_eqb_refl.
Qed.

Lemma dict_append_absent {A} c (n : A) cs :
  ~ In c (map fst cs) -> dict_append c n cs = cs.
Proof.
  unfold dict_append. induction cs as [| [k l] cs IH]; cbn; [reflexivity |].
  intros Hn. destruct (pyval_eqb_spec k c); [tauto |]. rewrite IH; tauto.
Qed.

Lemma group_add_cons_ne k l cs c n :
  k <> c -> group_add ((k, l) :: cs) (c, n) = (k, l) :: group_add cs (c, n).
Proof.
  intros Hne. unfold group_add, dict_mem. cbn [fst snd existsb].
  destruct (pyval_eqb_spec k c) as [| _]; [contradiction |]. cbn [orb].
  fold (dict_mem c cs). destruct (dict_mem c cs).
  - unfold dict_append. cbn [map fst].
    destruct (pyval_eqb_spec k c); [contradiction | reflexivity].
  - cbn [dict_set]. destruct (pyval_eqb_spec k c); [contradiction |].
    unfold dict_append. cbn [map fst].
    destruct (pyval_eqb_spec k c); [contradiction | reflexivity].
Qed.

Lemma ungroup_group_add cs it :
  NoDup (map fst cs) ->
  Permutation (ungroup (group_add cs it)) (ungroup cs ++ [it]).
Proof.
  destruct it as [c n]. induction cs as [| [k l] cs IH]; intros Hnd.
  - unfold group_add, dict_append. cbn. rewrite pyval_eqb_refl. cbn. reflexivity.
  - inversion Hnd as [| ? ? Hk Hcs]; subst.
    destruct (pyval_eqb_spec k c) as [-> | Hne].
    + unfold group_add. cbn [fst snd].
      replace (dict_mem c ((c, l) :: cs)) with true
        by (unfold dict_mem; cbn; now rewrite pyval_eqb_refl).
      unfold dict_append at 1. cbn [map fst snd]. rewrite pyval_eqb_refl.
      fold (dict_append c n cs). rewrite (dict_append_absent c n cs Hk).
      unfold ungroup. cbn [flat_map fst snd]. rewrite map_app. cbn [map].
      rewrite <- !app_assoc. apply Permutation_app_head, Permutation_app_comm.
    + rewrite group_add_cons_ne by exact Hne.
      unfold ungroup in *. cbn [flat_map fst snd]. rewrite <- app_assoc.
      apply Permutation_app_head, IH, Hcs.
Qed.

Lemma ungroup_group_spec items : Permutation (ungroup (group_spec items)) items.
Proof.
  induction items as [| it items IH] using rev_ind; [reflexivity |].
  rewrite <- group_add_spec.
  rewrite ungroup_group_add by (rewrite group_spec_keys; apply NoDup_uniq).
  now apply Permutation_app_tail.
Qed.

(** ** The loops of the audit, for any rule table *)

Section AuditFacts.

Variable lower : string -> string.
Variable tbl : list (string * list string).

Lemma any_rule_in_iff name_lower kws :
  any_rule_in lower name_lower kws = true <->
  exists rule, In rule kws /\ substring_of (lower rule) name_lower.
Proof.
  unfold any_rule_in. rewrite existsb_exists.
  split; intros (rule & Hin & H); exists rule; (split; [exact Hin |]);
    now apply str_in_iff.
Qed.

Lemma audit_item_str cat cc ms n :
  audit_item lower tbl cat (rules_get tbl cat) (cc, ms) (PyStr n) =
  Ok ((cc + (if matches lower tbl n cat then 1 else 0))%Z,
      ms ++ item_mismatch lower tbl cat (PyStr n)).
Proof.
  unfold audit_item, item_mismatch, matches.
  destruct (any_rule_in lower (lower n) (rules_get tbl cat)).
  - now rewrite app_nil_r.
  - rewrite Z.add_0_r.
    destruct (scan_others lower cat (lower n) tbl) as [oc |];
      [| now rewrite app_nil_r].
    cbn [truthy]. destruct (String.eqb oc ""); cbn [negb];
      [now rewrite app_nil_r | reflexivity].
Qed.

Lemma for_each_audit_item cat items : forall cc ms,
  forallb is_str items = true ->
  for_each (audit_item lower tbl cat (rules_get tbl cat)) items (cc, ms) =
  Ok ((cc + correct_of lower tbl cat items)%Z,
      ms ++ flat_map (item_mismatch lower tbl cat) items).
Proof.
  unfold correct_of.
  induction items as [| [| n] items IH]; intros cc ms Hs; cbn [for_each].
  - cbn. now rewrite Z.add_0_r, app_nil_r.
  - discriminate.
  - cbn [forallb is_str andb] in Hs.
    rewrite audit_item_str. cbn [bind]. rewrite (IH _ _ Hs).
    cbn [flat_map filter self_match]. rewrite app_assoc. f_equal. f_equal.
    destruct (matches lower tbl n cat); cbn [length]; lia.
Qed.

Lemma for_each_audit_item_none cat items : forall cc ms,
  forallb is_str items = false ->
  for_each (audit_item lower tbl cat (rules_get tbl cat)) items (cc, ms) =
  Raise AttributeError.
Proof.
  induction items as [| [| n] items IH]; intros cc ms Hs; cbn [for_each].
  - discriminate.
  - reflexivity.
  - cbn [forallb is_str andb] in Hs.
    rewrite audit_item_str. cbn [bind]. now apply IH.
Qed.

Lemma correct_of_bounds cat items :
  (0 <= correct_of lower tbl cat items <= Z.of_nat (length items))%Z.
Proof.
  unfold correct_of.
  pose proof (filter_length_le (self_match lower tbl cat) items). lia.
Qed.

Lemma score_of_bounded cat a items :
  exists q,
    score_of lower tbl cat (a :: items) = PyFloat (float_mul_int q 100) /\
    int_truediv (correct_of lower tbl cat (a :: items))
                (Z.of_nat (length (a :: items))) = Ok q /\
    bounded_by 1 q.
Proof.
  pose proof (correct_of_bounds cat (a :: items)) as Hb.
  destruct (int_truediv_bounded _ _ Hb) as [Hq Hbd]; [cbn [length]; lia |].
  eexists. split; [reflexivity |]. split; assumption.
Qed.

Lemma alignment_score cat items :
  alignment (correct_of lower tbl cat items) items =
  Ok (score_of lower tbl cat items).
Proof.
  destruct items as [| a items]; [reflexivity |].
  destruct (score_of_bounded cat a items) as (q & Hs & Hq & _).
  unfold alignment. rewrite Hq, Hs. reflexivity.
Qed.

Lemma score_of_in_0_100 cat items : in_0_100 (score_of lower tbl cat items).
Proof.
  destruct items as [| a items]; [cbn; lia |].
  destruct (score_of_bounded cat a items) as (q & -> & _ & Hb).
  apply SFmul_100_bounded in Hb.
  apply bounded_by_Q in Hb; [| lia]. exact Hb.
Qed.

Lemma audit_group_ok ms h cat items :
  forallb is_str items = true ->
  audit_group lower tbl (ms, h) (cat, items) =
  Ok (ms ++ group_mismatches lower tbl (cat, items),
      dict_set cat (score_of lower tbl cat items) h).
Proof.
  intros Hs. unfold audit_group.
  rewrite (for_each_audit_item cat items 0%Z ms Hs). cbn [bind].
  rewrite Z.add_0_l, alignment_score. reflexivity.
Qed.

Lemma audit_group_none ms h cat items :
  forallb is_str items = false ->
  audit_group lower tbl (ms, h) (cat, items) = Raise AttributeError.
Proof.
  intros Hs. unfold audit_group.
  now rewrite (for_each_audit_item_none cat items 0%Z ms Hs).
Qed.

Lemma for_each_audit_group gs : forall ms h,
  all_str gs = true ->
  NoDup (map fst gs) ->
  (forall k, In k (map fst gs) -> ~ In k (map fst h)) ->
  for_each (audit_group lower tbl) gs (ms, h) =
  Ok (ms ++ flat_map (group_mismatches lower tbl) gs,
      h ++ map (score_entry lower tbl) gs).
Proof.
  induction gs as [| [cat items] gs IH]; intros ms h Hs Hnd Hfresh;
    cbn [for_each].
  - cbn. now rewrite !app_nil_r.
  - cbn [all_str forallb snd] in Hs. apply andb_prop in Hs as [Hs1 Hs2].
    inversion Hnd as [| ? ? Hcat Hnd']; subst.
    rewrite (audit_group_ok ms h cat items Hs1). cbn [bind].
    rewrite dict_set_fresh by (apply Hfresh; now left).
    rewrite IH; [| exact Hs2 | exact Hnd' |].
    + cbn [flat_map map]. unfold score_entry at 2. cbn [fst snd].
      now rewrite <- !app_assoc.
    + intros k Hk. rewrite map_app, in_app_iff. cbn [map fst In].
      intros [H | [H | []]]; [apply (Hfresh k); [now right | exact H] |].
      subst. contradiction.
Qed.

Lemma for_each_audit_group_none gs : forall ms h,
  all_str gs = false ->
  for_each (audit_group lower tbl) gs (ms, h) = Raise AttributeError.
Proof.
  induction gs as [| [cat items] gs IH]; intros ms h Hs; cbn [for_each].
  - discriminate.
  - cbn [all_str forallb snd] in Hs.
    destruct (forallb is_str items) eqn:Hi.
    + rewrite (audit_group_ok ms h cat items Hi). cbn [bind]. now apply IH.
    + now rewrite (audit_group_none ms h cat items Hi).
Qed.

Lemma all_str_group_spec items :
  all_str (group_spec items) = forallb is_str (map snd items).
Proof.
  apply eq_true_iff_eq. unfold all_str. rewrite !forallb_forall. split.
  - intros H n Hn. apply in_map_iff in Hn as ([c n'] & <- & Hin). cbn [snd].
    specialize (H (c, members c items)).
    rewrite forallb_forall in H. apply H.
    + apply in_group_spec. split; [| reflexivity].
      apply in_map_iff. now exists (c, n').
    + now apply in_members.
  - intros H [c l] Hin. cbn [snd]. apply in_group_spec in Hin as [_ ->].
    apply forallb_forall. intros n Hn. apply in_members in Hn.
    apply H. apply in_map_iff. now exists (c, n).
Qed.

(** The main loop in closed form. *)
Lemma audit_engine_spec products :
  audit_engine lower tbl products =
  (items <- catalog products ;;
   if forallb is_str (map snd items)
   then Ok (health_spec lower tbl items, mismatches_spec lower tbl items)
   else Raise AttributeError).
Proof.
  unfold audit_engine. rewrite group_products_spec.
  destruct (catalog products) as [items | e]; cbn [bind]; [| reflexivity].
  rewrite <- all_str_group_spec.
  destruct (all_str (group_spec items)) eqn:Hs.
  - rewrite for_each_audit_group; [reflexivity | exact Hs | |].
    + rewrite group_spec_keys. apply NoDup_uniq.
    + intros k _ [].
  - now rewrite for_each_audit_group_none.
Qed.

End AuditFacts.

(** ** De-duplication (lines 75-80) *)

Lemma existsb_string_eqb x l : existsb (String.eqb x) l = true <-> In x l.
Proof.
  rewrite existsb_exists. split.
  - intros (y & Hin & Heq). apply String.eqb_eq in Heq. now subst.
  - intros Hin. exists x. now rewrite String.eqb_refl.
Qed.

Lemma dedup_seen ms :
  forall x, In x (snd (fold_left dedup_step ms ([], []))) <-> In x (map item ms).
Proof.
  induction ms as [| m ms IH] using rev_ind; intros x; [reflexivity |].
  rewrite fold_left_app, map_app, in_app_iff. cbn [fold_left map In].
  destruct (fold_left dedup_step ms ([], [])) as [u seen]. cbn [snd] in IH.
  unfold dedup_step.
  destruct (existsb (String.eqb (item m)) seen) eqn:Hs; cbn [snd In].
  - apply existsb_string_eqb, IH in Hs. rewrite IH.
    split; [tauto |]. intros [H | [<- | []]]; assumption.
  - rewrite IH. tauto.
Qed.

Lemma dedup_snoc ms m :
  dedup (ms ++ [m]) =
  if existsb (String.eqb (item m)) (map item ms) then dedup ms
  else dedup ms ++ [m].
Proof.
  unfold dedup. rewrite fold_left_app. cbn [fold_left].
  pose proof (dedup_seen ms (item m)) as Hseen.
  destruct (fold_left dedup_step ms ([], [])) as [u seen]. cbn [snd fst] in *.
  unfold dedup_step.
  destruct (existsb (String.eqb (item m)) seen) eqn:Hs.
  - apply existsb_string_eqb, Hseen, existsb_string_eqb in Hs. now rewrite Hs.
  - replace (existsb (String.eqb (item m)) (map item ms)) with false; [reflexivity |].
    symmetry. apply not_true_is_false. intros H.
    apply existsb_string_eqb, Hseen, existsb_string_eqb in H. congruence.
Qed.

Lemma in_dedup m ms : In m (dedup ms) <-> first_with_name m ms.
Proof.
  unfold first_with_name. revert m.
  induction ms as [| x ms IH] using rev_ind; intros m.
  - cbn. split; [tauto |]. intros (pre & post & H & _).
    now destruct pre.
  - rewrite dedup_snoc.
    destruct (existsb (String.eqb (item x)) (map item ms)) eqn:Hx.
    + apply existsb_string_eqb in Hx. rewrite IH. split.
      * intros (pre & post & -> & Hn). exists pre, (post ++ [x]).
        now rewrite <- app_assoc.
      * intros (pre & post & Heq & Hn).
        destruct post as [| y post] using rev_ind.
        -- apply app_inj_tail in Heq as [-> ->]. contradiction.
        -- clear IHpost. rewrite app_comm_cons, app_assoc in Heq.
           apply app_inj_tail in Heq as [-> _]. now exists pre, post.
    + assert (Hnx : ~ In (item x) (map item ms)).
      { intros H. apply existsb_string_eqb in H. congruence. }
      rewrite in_app_iff, IH. cbn [In]. split.
      * intros [(pre & post & -> & Hn) | [<- | []]].
        -- exists pre, (post ++ [x]). now rewrite <- app_assoc.
        -- exists ms, []. tauto.
      * intros (pre & post & Heq & Hn).
        destruct post as [| y post] using rev_ind.
        -- apply app_inj_tail in Heq as [_ ->]. tauto.
        -- clear IHpost. rewrite app_comm_cons, app_assoc in Heq.
           apply app_inj_tail in Heq as [-> _]. left. now exists pre, post.
Qed.

Lemma dedup_incl m ms : In m (dedup ms) -> In m ms.
Proof.
  intros H. apply in_dedup in H as (pre & post & -> & _).
  apply in_elt.
Qed.

Lemma NoDup_dedup ms : NoDup (map item (dedup ms)).
Proof.
  induction ms as [| x ms IH] using rev_ind; [constructor |].
  rewrite dedup_snoc.
  destruct (existsb (String.eqb (item x)) (map item ms)) eqn:Hx; [exact IH |].
  rewrite map_app. cbn [map]. apply NoDup_app_remove_l with (l := []).
  cbn [app]. apply Permutation_NoDup with (l := item x :: map item (dedup ms)).
  - apply Permutation_cons_append.
  - constructor; [| exact IH]. intros H. apply in_map_iff in H as (m & Hm & Hin).
    apply dedup_incl in Hin.
    assert (In (item x) (map item ms)) by (rewrite <- Hm; now apply in_map).
    apply existsb_string_eqb in H. congruence.
Qed.

Lemma dedup_names ms x : In x (map item (dedup ms)) <-> In x (map item ms).
Proof.
  induction ms as [| m ms IH] using rev_ind; [reflexivity |].
  rewrite dedup_snoc.
  destruct (existsb (String.eqb (item m)) (map item ms)) eqn:Hm.
  - apply existsb_string_eqb in Hm. rewrite IH, map_app, in_app_iff.
    cbn [map In]. split; [tauto |]. intros [H | [<- | []]]; assumption.
  - rewrite !map_app, !in_app_iff, IH. reflexivity.
Qed.

(** ** The scan of the other categories (lines 53-58) *)

Section RuleTable.

Variable lower : string -> string.
Variable tbl : list (string * list string).

Lemma scan_others_some cat nl : forall rs oc,
  scan_others lower cat nl rs = Some oc ->
  exists pre kws post,
    rs = pre ++ (oc, kws) :: post /\
    PyStr oc <> cat /\
    any_rule_in lower nl kws = true /\
    forall k kws', In (k, kws') pre ->
      PyStr k = cat \/ any_rule_in lower nl kws' = false.
Proof.
  induction rs as [| [k kws] rs IH]; intros oc; cbn [scan_others];
    [discriminate |].
  destruct (pyval_eqb_spec (PyStr k) cat) as [Hk | Hk].
  - intros H. destruct (IH oc H) as (pre & kws' & post & -> & Hoc & Hm & Hpre).
    exists ((k, kws) :: pre), kws', post. repeat split; try assumption.
    intros k' kws'' [[= <- <-] | Hin]; [now left | now apply Hpre].
  - destruct (any_rule_in lower nl kws) eqn:Hkws.
    + intros [= <-]. exists [], kws, rs. repeat split; try assumption.
      intros ? ? [].
    + intros H. destruct (IH oc H) as (pre & kws' & post & -> & Hoc & Hm & Hpre).
      exists ((k, kws) :: pre), kws', post. repeat split; try assumption.
      intros k' kws'' [[= <- <-] | Hin]; [now right | now apply Hpre].
Qed.

Lemma scan_others_first cat nl : forall pre oc kws post,
  PyStr oc <> cat ->
  any_rule_in lower nl kws = true ->
  (forall k kws', In (k, kws') pre ->
     PyStr k = cat \/ any_rule_in lower nl kws' = false) ->
  scan_others lower cat nl (pre ++ (oc, kws) :: post) = Some oc.
Proof.
  induction pre as [| [k kws0] pre IH]; intros oc kws post Hoc Hm Hpre;
    cbn [app scan_others].
  - destruct (pyval_eqb_spec (PyStr oc) cat); [contradiction |].
    now rewrite Hm.
  - destruct (pyval_eqb_spec (PyStr k) cat) as [Hk | Hk].
    + apply IH; try assumption. intros. apply Hpre. now right.
    + destruct (Hpre k kws0 (or_introl eq_refl)) as [H | H]; [contradiction |].
      rewrite H. apply IH; try assumption. intros. apply Hpre. now right.
Qed.

Lemma scan_others_none cat nl : forall rs,
  scan_others lower cat nl rs = None ->
  forall k kws, In (k, kws) rs ->
    PyStr k = cat \/ any_rule_in lower nl kws = false.
Proof.
  induction rs as [| [k0 kws0] rs IH]; cbn [scan_others]; intros H k kws;
    [intros [] |].
  destruct (pyval_eqb_spec (PyStr k0) cat) as [Hk | Hk].
  - intros [[= <- <-] | Hin]; [now left | now apply IH].
  - destruct (any_rule_in lower nl kws0) eqn:Hkws; [discriminate |].
    intros [[= <- <-] | Hin]; [now right | now apply IH].
Qed.

(** A category that is no key of the table is never skipped. *)
Lemma scan_others_foreign cat nl : forall rs,
  (forall k, In k (map fst rs) -> PyStr k <> cat) ->
  scan_others lower cat nl rs =
  option_map fst (find (fun kv => any_rule_in lower nl (snd kv)) rs).
Proof.
  induction rs as [| [k kws] rs IH]; intros Hk; cbn [scan_others find snd];
    [reflexivity |].
  destruct (pyval_eqb_spec (PyStr k) cat) as [H | _].
  - elim (Hk k); [now left | exact H].
  - destruct (any_rule_in lower nl kws); [reflexivity |].
    apply IH. intros k' Hk'. apply Hk. now right.
Qed.

Lemma rules_lookup_absent : forall rs c,
  ~ In c (map fst rs) -> rules_lookup rs c = [].
Proof.
  induction rs as [| [k kws] rs IH]; intros c Hc; cbn [rules_lookup];
    [reflexivity |].
  destruct (String.eqb_spec k c) as [-> | _]; [elim Hc; now left |].
  apply IH. intros H. apply Hc. now right.
Qed.

Hypothesis tbl_nodup : NoDup (map fst tbl).
Hypothesis tbl_truthy : ~ In "" (map fst tbl).

Lemma rules_lookup_in : forall rs k kws,
  NoDup (map fst rs) -> In (k, kws) rs -> rules_lookup rs k = kws.
Proof.
  induction rs as [| [k0 kws0] rs IH]; intros k kws Hnd Hin; [destruct Hin |].
  inversion Hnd as [| ? ? Hk0 Hnd']; subst. cbn [rules_lookup].
  destruct Hin as [[= <- <-] | Hin]; [now rewrite String.eqb_refl |].
  destruct (String.eqb_spec k0 k) as [-> | _]; [| now apply IH].
  elim Hk0. apply in_map_iff. now exists (k, kws).
Qed.

Lemma matches_entry name k kws :
  In (k, kws) tbl ->
  matches lower tbl name (PyStr k) = any_rule_in lower (lower name) kws.
Proof.
  intros Hin. unfold matches. cbn [rules_get].
  now rewrite (rules_lookup_in tbl k kws tbl_nodup Hin).
Qed.

Lemma scan_others_first_foreign cat name sug :
  scan_others lower cat (lower name) tbl = Some sug <->
  first_foreign_match lower tbl cat name sug.
Proof.
  unfold first_foreign_match. split.
  - intros H. apply scan_others_some in H
      as (pre & kws & post & Htbl & Hsug & Hm & Hpre).
    exists (map fst pre), (map fst post). split; [| split; [exact Hsug | split]].
    + rewrite Htbl, map_app. reflexivity.
    + rewrite (matches_entry name sug kws); [exact Hm |].
      rewrite Htbl. apply in_elt.
    + intros oc Hoc. apply in_map_iff in Hoc as ([k kws'] & <- & Hin).
      cbn [fst]. destruct (Hpre k kws' Hin) as [H | H]; [now left | right].
      rewrite (matches_entry name k kws'); [exact H |].
      rewrite Htbl. apply in_or_app. now left.
  - intros (pre & post & Hkeys & Hsug & Hm & Hpre).
    apply map_eq_app in Hkeys as (pre' & rest & Htbl & Hpre' & Hrest).
    destruct rest as [| [k kws] post']; [discriminate |].
    cbn [map fst] in Hrest. injection Hrest as -> Hpost.
    rewrite Htbl. apply scan_others_first; [exact Hsug | |].
    + rewrite <- (matches_entry name sug kws); [exact Hm |].
      rewrite Htbl. apply in_elt.
    + intros k' kws' Hin.
      destruct (Hpre k') as [H | H].
      * rewrite <- Hpre'. apply in_map_iff. now exists (k', kws').
      * now left.
      * right. rewrite <- (matches_entry name k' kws'); [exact H |].
        rewrite Htbl. apply in_or_app. now left.
Qed.

Lemma first_foreign_match_key cat name sug :
  first_foreign_match lower tbl cat name sug -> In sug (map fst tbl).
Proof. intros (pre & post & -> & _). apply in_elt. Qed.

(** The records of one item, read off the table. *)
Lemma in_item_mismatch cat n m :
  In m (item_mismatch lower tbl cat (PyStr n)) <->
  item m = n /\ current m = cat /\
  matches lower tbl n cat = false /\
  first_foreign_match lower tbl cat n (suggested m).
Proof.
  unfold item_mismatch. split.
  - destruct (matches lower tbl n cat) eqn:Hown; [intros [] |].
    destruct (scan_others lower cat (lower n) tbl) as [oc |] eqn:Hscan;
      [| intros []].
    destruct (String.eqb oc ""); [intros [] |].
    intros [<- | []]. cbn [item current suggested].
    repeat split. now apply scan_others_first_foreign.
  - intros (<- & <- & Hown & Hff). rewrite Hown.
    pose proof (first_foreign_match_key _ _ _ Hff) as Hkey.
    apply scan_others_first_foreign in Hff. rewrite Hff.
    destruct (String.eqb_spec (suggested m) "") as [He | _].
    + rewrite He in Hkey. contradiction.
    + destruct m. now left.
Qed.

(** Some other category matches exactly when the scan finds one. *)
Lemma first_foreign_match_exists cat name :
  (exists oc, In oc (map fst tbl) /\ PyStr oc <> cat /\
              matches lower tbl name (PyStr oc) = true) <->
  exists sug, first_foreign_match lower tbl cat name sug.
Proof.
  split.
  - intros (oc & Hin & Hne & Hm).
    destruct (scan_others lower cat (lower name) tbl) as [sug |] eqn:Hscan.
    + exists sug. now apply scan_others_first_foreign.
    + apply in_map_iff in Hin as ([k kws] & <- & Hin). cbn [fst] in *.
      destruct (scan_others_none _ _ _ Hscan k kws Hin) as [H | H];
        [contradiction |].
      rewrite (matches_entry name k kws Hin) in Hm. congruence.
  - intros (sug & Hff). exists sug.
    split; [now apply first_foreign_match_key with cat name |].
    destruct Hff as (_ & _ & _ & Hne & Hm & _). now split.
Qed.

End RuleTable.

(** ** The closed forms, element by element *)

Lemma in_mismatches_spec lower tbl items m :
  In m (mismatches_spec lower tbl items) <->
  exists c n, In (c, n) items /\ In m (item_mismatch lower tbl c n).
Proof.
  unfold mismatches_spec. rewrite in_flat_map. split.
  - intros ([c l] & Hg & Hm). unfold group_mismatches in Hm. cbn [fst snd] in Hm.
    apply in_flat_map in Hm as (n & Hn & Hm).
    apply in_group_spec in Hg as [_ ->]. apply in_members in Hn.
    now exists c, n.
  - intros (c & n & Hin & Hm). exists (c, members c items). split.
    + apply in_group_spec. split; [| reflexivity].
      apply in_map_iff. now exists (c, n).
    + unfold group_mismatches. cbn [fst snd]. apply in_flat_map.
      exists n. split; [now apply in_members | exact Hm].
Qed.

Lemma mismatches_spec_traversal lower tbl items :
  mismatches_spec lower tbl items =
  flat_map (fun cat => flat_map (item_mismatch lower tbl cat) (members cat items))
           (uniq (map fst items)).
Proof.
  unfold mismatches_spec, group_spec, group_mismatches.
  induction (uniq (map fst items)) as [| c l IH]; [reflexivity |].
  cbn [map flat_map fst snd]. now rewrite IH.
Qed.

Lemma in_health_spec lower tbl items cat v :
  In (cat, v) (health_spec lower tbl items) <->
  In cat (map fst items) /\ v = score_of lower tbl cat (members cat items).
Proof.
  unfold health_spec. rewrite in_map_iff. split.
  - intros ([c l] & [= <- <-] & Hg). cbn [fst snd].
    apply in_group_spec in Hg as [Hc ->]. now split.
  - intros [Hc ->]. exists (cat, members cat items). split; [reflexivity |].
    now apply in_group_spec.
Qed.

Lemma members_nonempty cat items :
  In cat (map fst items) -> members cat items <> [].
Proof.
  intros Hin. apply in_map_iff in Hin as ([c n] & <- & Hin). cbn [fst].
  apply in_members in Hin. intros E. now rewrite E in Hin.
Qed.


Lemma catalog_in products items p :
  catalog products = Ok items -> In p products ->
  exists it, row_item p = Ok it /\ In it items.
Proof.
  revert items. induction products as [| q ps IH]; intros items Hc Hin;
    [destruct Hin |].
  cbn [catalog] in Hc. destruct (row_item q) as [it |] eqn:Hq; [| discriminate].
  cbn [bind] in Hc. destruct (catalog ps) as [its |]; [| discriminate].
  injection Hc as <-. destruct Hin as [-> | Hin].
  - exists it. split; [exact Hq | now left].
  - destruct (IH its eq_refl Hin) as (it' & H1 & H2). exists it'.
    split; [exact H1 | now right].
Qed.

Lemma catalog_total products :
  (forall p, In p products -> exists it, row_item p = Ok it) ->
  exists items, catalog products = Ok items.
Proof.
  induction products as [| q ps IH]; intros H; [now exists [] |].
  destruct (H q (or_introl eq_refl)) as [it Hq].
  destruct IH as [its Hits]; [intros p Hp; apply H; now right |].
  exists (it :: its). cbn [catalog]. now rewrite Hq, Hits.
Qed.

(** ** The rule table of the script *)

Lemma rules_nodup : NoDup (map fst rules).
Proof.
  cbn [map fst rules].
  repeat (constructor; [cbn [In]; intuition discriminate |]).
  constructor.
Qed.

Lemma rules_truthy : ~ In "" (map fst rules).
Proof. cbn [map fst rules In]. intuition discriminate. Qed.

(** ** The worked scenarios, on their two-entry table *)

Example scenario_misfiled :
  audit ascii_lower scenario_rules [mkrow (PyStr "Green Tea") (PyStr "Bakery")] =
  Ok ([(PyStr "Bakery", PyFloat (S754_zero false))],
      [mkMismatch "Green Tea" (PyStr "Bakery") "Beverages"]).
Proof. vm_compute. reflexivity. Qed.

Example scenario_well_filed :
  audit ascii_lower scenario_rules [mkrow (PyStr "Choco Cake") (PyStr "Bakery")] =
  Ok ([(PyStr "Bakery", PyFloat (float_of_int 100))], []).
Proof. vm_compute. reflexivity. Qed.

Example scenario_unknown_category :
  audit ascii_lower scenario_rules
        [mkrow (PyStr "Rye Bread") (PyStr "Pantry");
         mkrow (PyStr "Candle") (PyStr "Pantry")] =
  Ok ([(PyStr "Pantry", PyFloat (S754_zero false))],
      [mkMismatch "Rye Bread" (PyStr "Pantry") "Bakery"]).
Proof. vm_compute. reflexivity. Qed.

(** * The claims *)

(** C3.  The Matcher answers true exactly when some keyword of the
    category's entry in the rule table, lower-cased, occurs in the
    lower-cased name as a substring.  The keyword list of a key is the
    one written in the table; a category that is no key of the table has
    the empty list, so the Matcher answers false for it, and being a
    total boolean function it raises nothing. *)
Theorem matches_iff_keyword_substring (lower : string -> string)
        (name : string) (cat : pyval) :
  (matches lower rules name cat = true <->
   exists kw, In kw (rules_get rules cat) /\
              substring_of (lower kw) (lower name)) /\
  (forall c kws, In (c, kws) rules -> rules_get rules (PyStr c) = kws) /\
  ((forall k, In k (map fst rules) -> PyStr k <> cat) ->
   rules_get rules cat = [] /\ matches lower rules name cat = false).
Proof.
  split; [apply any_rule_in_iff |]. split.
  - intros c kws Hin. cbn [rules_get].
    now apply rules_lookup_in; [apply rules_nodup |].
  - intros Hk.
    assert (E : rules_get rules cat = []).
    { destruct cat as [| c]; [reflexivity |]. cbn [rules_get].
      apply rules_lookup_absent. intros Hin. now apply (Hk c Hin). }
    split; [exact E |]. unfold matches. now rewrite E.
Qed.

Lemma matches_iff_keyword_substring_witness :
  (forall k, In k (map fst rules) -> PyStr k <> PyStr "beverages") /\
  rules_get rules (PyStr "beverages") = [] /\
  matches ascii_lower rules "Green Tea" (PyStr "beverages") = false.
Proof.
  assert (H : forall k, In k (map fst rules) -> PyStr k <> PyStr "beverages").
  { cbn [map fst rules In]. intros k Hk [= ->]. intuition discriminate. }
  split; [exact H |].
  exact (proj2 (proj2 (matches_iff_keyword_substring
                         ascii_lower "Green Tea" (PyStr "beverages"))) H).
Defined.

(** C7.  Grouping is a stable partition of the catalog: there is one
    group per category (the keys are pairwise distinct, so no two groups
    share an item), the groups come in the order in which their
    categories first appear, each group lists the names filed under its
    category in input order and is not empty, and the groups together
    hold every item of the input exactly once. *)
Theorem grouping_stable_partition (products : list row)
        (items : list (pyval * pyval)) :
  catalog products = Ok items ->
  exists categories,
    group_products products = Ok categories /\
    NoDup (map fst categories) /\
    map fst categories = uniq (map fst items) /\
    (forall cat names, In (cat, names) categories ->
       names = members cat items /\ names <> []) /\
    Permutation (ungroup categories) items.
Proof.
  intros Hc. exists (group_spec items).
  rewrite group_products_spec, Hc. cbn [bind].
  split; [reflexivity |]. split.
  { rewrite group_spec_keys. apply NoDup_uniq. }
  split; [apply group_spec_keys |]. split.
  - intros cat names Hin. apply in_group_spec in Hin as [Hcat ->].
    split; [reflexivity | now apply members_nonempty].
  - apply ungroup_group_spec.
Qed.

Lemma grouping_stable_partition_witness :
  exists categories,
    group_products sample_products = Ok categories /\
    NoDup (map fst categories) /\
    map fst categories =
      [PyStr "Bakery, Cakes & Dairy"; PyStr "beverages"; PyNone] /\
    (forall cat names, In (cat, names) categories ->
       names = members cat
                 [(PyStr "Bakery, Cakes & Dairy", PyStr "Green Tea");
                  (PyStr "Bakery, Cakes & Dairy", PyStr "Choco Cake");
                  (PyStr "Bakery, Cakes & Dairy", PyStr "Wooden Spoon");
                  (PyStr "beverages", PyStr "Green Tea");
                  (PyNone, PyStr "Olive Oil")] /\
       names <> []) /\
    Permutation (ungroup categories)
                [(PyStr "Bakery, Cakes & Dairy", PyStr "Green Tea");
                 (PyStr "Bakery, Cakes & Dairy", PyStr "Choco Cake");
                 (PyStr "Bakery, Cakes & Dairy", PyStr "Wooden Spoon");
                 (PyStr "beverages", PyStr "Green Tea");
                 (PyNone, PyStr "Olive Oil")].
Proof.
  exact (grouping_stable_partition sample_products _ eq_refl).
Defined.

(** A successful run of the main loop is the closed form. *)
Lemma audit_engine_ok lower products items health ms :
  catalog products = Ok items ->
  audit_engine lower rules products = Ok (health, ms) ->
  forallb is_str (map snd items) = true /\
  health = health_spec lower rules items /\
  ms = mismatches_spec lower rules items.
Proof.
  intros Hc He. rewrite audit_engine_spec, Hc in He. cbn [bind] in He.
  destruct (forallb is_str (map snd items)); [| discriminate].
  injection He as <- <-. repeat split.
Qed.

(** Names that match no category leave the state of the item loop as it is. *)
Lemma unmatched_item_untouched lower cat name st :
  (forall oc, In oc (map fst rules) ->
     matches lower rules name (PyStr oc) = false) ->
  audit_item lower rules cat (rules_get rules cat) st (PyStr name) = Ok st.
Proof.
  intros Hno. destruct st as [cc ms]. rewrite audit_item_str.
  assert (Hown : matches lower rules name cat = false).
  { destruct cat as [| c]; [reflexivity |].
    destruct (in_dec string_dec c (map fst rules)) as [Hin | Hnin];
      [now apply Hno |].
    unfold matches. cbn [rules_get].
    now rewrite (rules_lookup_absent rules c Hnin). }
  rewrite Hown, Z.add_0_r. f_equal. f_equal.
  replace (item_mismatch lower rules cat (PyStr name)) with (@nil Mismatch);
    [apply app_nil_r |].
  unfold item_mismatch. rewrite Hown.
  destruct (scan_others lower cat (lower name) rules) as [sug |] eqn:Hs;
    [| reflexivity].
  apply (scan_others_first_foreign lower rules rules_nodup) in Hs.
  pose proof (first_foreign_match_key _ _ _ _ _ Hs) as Hkey.
  destruct Hs as (_ & _ & _ & _ & Hm & _).
  rewrite (Hno sug Hkey) in Hm. discriminate.
Qed.

(** C1.  Before de-duplication, an item has a Mismatch record exactly
    when the keywords of its own category do not match its name and the
    keywords of some other category of the rule table do.  Every record
    belongs to an item of the catalog, and its suggested category is the
    first key of the rule table, the current category left out, whose
    keywords match the name.  An item that no category matches adds no
    record and does not increment the counter. *)
Theorem mismatch_iff_foreign_match (lower : string -> string)
        (products : list row) (items : list (pyval * pyval))
        (health : dict pynum) (ms : list Mismatch) :
  catalog products = Ok items ->
  audit_engine lower rules products = Ok (health, ms) ->
  (forall cat name, In (cat, PyStr name) items ->
     ((exists m, In m ms /\ item m = name /\ current m = cat) <->
      (matches lower rules name cat = false /\
       exists oc, In oc (map fst rules) /\ PyStr oc <> cat /\
                  matches lower rules name (PyStr oc) = true))) /\
  (forall m, In m ms ->
     In (current m, PyStr (item m)) items /\
     matches lower rules (item m) (current m) = false /\
     first_foreign_match lower rules (current m) (item m) (suggested m)) /\
  (forall cat name st,
     (forall oc, In oc (map fst rules) ->
        matches lower rules name (PyStr oc) = false) ->
     audit_item lower rules cat (rules_get rules cat) st (PyStr name) = Ok st).
Proof.
  intros Hc He.
  destruct (audit_engine_ok _ _ _ _ _ Hc He) as (_ & _ & ->).
  split; [| split].
  - intros cat name Hin.
    rewrite (first_foreign_match_exists lower rules rules_nodup). split.
    + intros (m & Hm & Hi & Hcur).
      apply in_mismatches_spec in Hm as (c & n & Hcn & Hm).
      destruct n as [| n]; [destruct Hm |].
      apply (in_item_mismatch lower rules rules_nodup rules_truthy) in Hm
        as (E1 & E2 & Hown & Hff).
      subst. split; [exact Hown |]. now exists (suggested m).
    + intros (Hown & sug & Hff).
      exists (mkMismatch name cat sug). cbn [item current].
      split; [| now split]. apply in_mismatches_spec.
      exists cat, (PyStr name). split; [exact Hin |].
      apply (in_item_mismatch lower rules rules_nodup rules_truthy).
      cbn [item current suggested]. now repeat split.
  - intros m Hm. apply in_mismatches_spec in Hm as (c & n & Hcn & Hm).
    destruct n as [| n]; [destruct Hm |].
    apply (in_item_mismatch lower rules rules_nodup rules_truthy) in Hm
      as (E1 & E2 & Hown & Hff).
    subst. now repeat split.
  - intros cat name st. apply unmatched_item_untouched.
Qed.

Lemma mismatch_iff_foreign_match_witness :
  (exists m,
     In m [mkMismatch "Green Tea" (PyStr "Bakery, Cakes & Dairy") "Beverages";
           mkMismatch "Green Tea" (PyStr "beverages") "Beverages";
           mkMismatch "Olive Oil" PyNone "Foodgrains, Oil & Masala"] /\
     item m = "Green Tea" /\ current m = PyStr "Bakery, Cakes & Dairy") <->
  (matches ascii_lower rules "Green Tea" (PyStr "Bakery, Cakes & Dairy") = false /\
   exists oc, In oc (map fst rules) /\
              PyStr oc <> PyStr "Bakery, Cakes & Dairy" /\
              matches ascii_lower rules "Green Tea" (PyStr oc) = true).
Proof.
  refine (proj1 (mismatch_iff_foreign_match ascii_lower sample_products
                   _ _ _ eq_refl eq_refl)
                (PyStr "Bakery, Cakes & Dairy") "Green Tea" _).
  now left.
Defined.

(** C2.  An item whose name contains a keyword of its own category is
    counted: the loop body adds one to the counter and leaves the
    mismatch list alone, whatever other categories match, and the score
    of the category is computed from the members that pass this test,
    the item among them.  No Mismatch record for that item, that is with
    its name and its category, exists before or after de-duplication. *)
Theorem self_match_no_mismatch (lower : string -> string)
        (products : list row) (items : list (pyval * pyval))
        (health : dict pynum) (final : list Mismatch)
        (cat : pyval) (name : string) :
  catalog products = Ok items ->
  audit_categorization lower products = Ok (health, final) ->
  In (cat, PyStr name) items ->
  matches lower rules name cat = true ->
  (forall cc ms,
     audit_item lower rules cat (rules_get rules cat) (cc, ms) (PyStr name) =
     Ok ((cc + 1)%Z, ms)) /\
  (exists ms,
     audit_engine lower rules products = Ok (health, ms) /\
     forall m, In m ms -> ~ (item m = name /\ current m = cat)) /\
  (forall m, In m final -> ~ (item m = name /\ current m = cat)) /\
  In (cat, score_of lower rules cat (members cat items)) health /\
  In (PyStr name) (filter (self_match lower rules cat) (members cat items)).
Proof.
  intros Hc Ha Hin Hown.
  unfold audit_categorization, audit in Ha.
  destruct (audit_engine lower rules products) as [[h ms] |] eqn:He;
    [| discriminate].
  cbn [bind] in Ha. injection Ha as <- <-.
  destruct (audit_engine_ok _ _ _ _ _ Hc He) as (_ & -> & ->).
  assert (Hnone : forall m, In m (mismatches_spec lower rules items) ->
                            ~ (item m = name /\ current m = cat)).
  { intros m Hm [E1 E2]. apply in_mismatches_spec in Hm as (c & n & _ & Hm).
    destruct n as [| n]; [destruct Hm |].
    apply (in_item_mismatch lower rules rules_nodup rules_truthy) in Hm
      as (E3 & E4 & Hf & _).
    subst. congruence. }
  split; [| split; [| split; [| split]]].
  - intros cc ms. rewrite audit_item_str.
    unfold item_mismatch. rewrite Hown. now rewrite app_nil_r.
  - eexists. split; [reflexivity | exact Hnone].
  - intros m Hm. apply Hnone. now apply dedup_incl.
  - apply in_health_spec. split; [| reflexivity].
    apply in_map_iff. now exists (cat, PyStr name).
  - apply filter_In. split; [now apply in_members | exact Hown].
Qed.

Lemma self_match_no_mismatch_witness :
  audit_item ascii_lower rules (PyStr "Bakery, Cakes & Dairy")
             (rules_get rules (PyStr "Bakery, Cakes & Dairy"))
             (0%Z, []) (PyStr "Choco Cake") = Ok (1%Z, []) /\
  ~ (exists m,
       In m [mkMismatch "Green Tea" (PyStr "Bakery, Cakes & Dairy") "Beverages";
             mkMismatch "Olive Oil" PyNone "Foodgrains, Oil & Masala"] /\
       item m = "Choco Cake" /\ current m = PyStr "Bakery, Cakes & Dairy").
Proof.
  destruct (self_match_no_mismatch ascii_lower sample_products _ _ _
              (PyStr "Bakery, Cakes & Dairy") "Choco Cake"
              eq_refl eq_refl (or_intror (or_introl eq_refl)) eq_refl)
    as (Hstep & _ & Hfinal & _).
  split; [exact (Hstep 0%Z []) |].
  intros (m & Hm & Hi & Hc). exact (Hfinal m Hm (conj Hi Hc)).
Defined.

(** C4.  The final mismatch list has at most one entry per item name.
    The records are produced category by category, the categories in the
    order of their first appearance and the items of a category in input
    order; of the records that share a name exactly the first one in
    that order is kept, so every name that had a record still has one. *)
Theorem dedup_first_per_name (lower : string -> string)
        (products : list row) (health : dict pynum) (final : list Mismatch) :
  audit_categorization lower products = Ok (health, final) ->
  NoDup (map item final) /\
  exists items ms,
    catalog products = Ok items /\
    audit_engine lower rules products = Ok (health, ms) /\
    ms = flat_map (fun cat =>
                     flat_map (item_mismatch lower rules cat) (members cat items))
                  (uniq (map fst items)) /\
    (forall m, In m final <-> first_with_name m ms) /\
    (forall m, In m ms -> exists m', In m' final /\ item m' = item m).
Proof.
  intros Ha. unfold audit_categorization, audit in Ha.
  destruct (audit_engine lower rules products) as [[h ms] |] eqn:He;
    [| discriminate].
  cbn [bind] in Ha. injection Ha as <- <-.
  split; [apply NoDup_dedup |].
  pose proof He as He'. rewrite audit_engine_spec in He'.
  destruct (catalog products) as [items |] eqn:Hc; [| discriminate].
  exists items, ms. split; [reflexivity |]. split; [reflexivity |].
  destruct (audit_engine_ok _ _ _ _ _ Hc He) as (_ & _ & Hms).
  split; [now rewrite <- mismatches_spec_traversal |].
  split; [intros m; apply in_dedup |].
  intros m Hm.
  assert (Hn : In (item m) (map item (dedup ms)))
    by (apply dedup_names; now apply in_map).
  apply in_map_iff in Hn as (m' & E & Hm'). now exists m'.
Qed.

Lemma dedup_first_per_name_witness :
  NoDup (map item
           [mkMismatch "Green Tea" (PyStr "Bakery, Cakes & Dairy") "Beverages";
            mkMismatch "Olive Oil" PyNone "Foodgrains, Oil & Masala"]).
Proof.
  exact (proj1 (dedup_first_per_name ascii_lower sample_products _ _ eq_refl)).
Defined.

(** The order of the two operations shows in the last bit.  On a group
    of three members of which one matches the script, which divides
    first and multiplies by 100 afterwards, gives 33.33333333333333,
    where one product and one division, [100 * 1 / 3], give
    33.333333333333336; neither is the rational 100/3, which no float
    is. *)
Example alignment_last_bit :
  audit_categorization ascii_lower one_in_three =
    Ok ([(PyStr "Beverages",
          PyFloat (S754_finite false 4691249611844266 (-47)))],
        [mkMismatch "Basmati Rice" (PyStr "Beverages")
                    "Foodgrains, Oil & Masala"]) /\
  correct_of ascii_lower rules (PyStr "Beverages")
             [PyStr "Green Tea"; PyStr "Basmati Rice"; PyStr "Wooden Spoon"]
    = 1%Z /\
  spec_alignment_pct 1 3 =
    Ok (PyFloat (S754_finite false 4691249611844267 (-47))) /\
  ~ (SF2Q (S754_finite false 4691249611844266 (-47)) == 100 * 1 / 3)%Q /\
  ~ (SF2Q (S754_finite false 4691249611844267 (-47)) == 100 * 1 / 3)%Q.
Proof.
  split; [vm_compute; reflexivity |].
  split; [vm_compute; reflexivity |].
  split; [vm_compute; reflexivity |].
  split; vm_compute; discriminate.
Qed.

(** C5.  A group with no member scores the integer 0 and no division is
    evaluated; the division of [alignment] never raises
    ZeroDivisionError.  Every category of an audited catalog has at
    least one member, and its score is the float percentage of the
    members that match their own category: the binary64 quotient of
    their number by the number of members, times 100.0, which the two
    roundings keep within [2^-45] of [100 * correctly_matched /
    len(members)]. *)
Theorem alignment_is_scaled_quotient (lower : string -> string) :
  (forall cat ms h,
     audit_group lower rules (ms, h) (cat, []) =
     Ok (ms, dict_set cat (PyInt 0) h)) /\
  (forall cc items, alignment cc items <> Raise ZeroDivisionError) /\
  (forall products items health ms,
     catalog products = Ok items ->
     audit_engine lower rules products = Ok (health, ms) ->
     forall cat v, In (cat, v) health ->
       members cat items <> [] /\
       exists q,
         int_truediv (correct_of lower rules cat (members cat items))
                     (Z.of_nat (length (members cat items))) = Ok q /\
         v = PyFloat (float_mul_int q 100) /\
         (Qabs (SF2Q (float_mul_int q 100)
                - 100 * (inject_Z (correct_of lower rules cat
                                              (members cat items))
                         / inject_Z (Z.of_nat (length (members cat items)))))
          <= Qpower 2 (-45))%Q).
Proof.
  split; [reflexivity |]. split.
  - intros cc [| a items]; cbn [alignment]; [discriminate |].
    unfold int_truediv.
    destruct (Z.eqb_spec (Z.of_nat (length (a :: items))) 0) as [E | _];
      [cbn [length] in E; lia |].
    destruct (SFdiv prec emax _ _); cbn [bind]; discriminate.
  - intros products items health ms Hc He cat v Hin.
    destruct (audit_engine_ok _ _ _ _ _ Hc He) as (_ & -> & _).
    apply in_health_spec in Hin as [Hcat ->].
    pose proof (members_nonempty cat items Hcat) as Hne.
    split; [exact Hne |].
    destruct (members cat items) as [| a l] eqn:Hm; [contradiction |].
    pose proof (correct_of_bounds lower rules cat (a :: l)) as Hb.
    assert (Hn : (0 < Z.of_nat (length (a :: l)))%Z) by (cbn [length]; lia).
    destruct (int_truediv_bounded _ _ Hb Hn) as [Hq _].
    eexists. split; [exact Hq |]. split; [reflexivity |].
    now apply scaled_quotient_near.
Qed.

Lemma alignment_is_scaled_quotient_witness :
  members (PyStr "Beverages")
          [(PyStr "Beverages", PyStr "Green Tea");
           (PyStr "Beverages", PyStr "Basmati Rice");
           (PyStr "Beverages", PyStr "Wooden Spoon")] <> [] /\
  exists q,
    int_truediv 1 3 = Ok q /\
    PyFloat (S754_finite false 4691249611844266 (-47)) =
    PyFloat (float_mul_int q 100) /\
    (Qabs (SF2Q (float_mul_int q 100) - 100 * (inject_Z 1 / inject_Z 3))
     <= Qpower 2 (-45))%Q.
Proof.
  exact (proj2 (proj2 (alignment_is_scaled_quotient ascii_lower))
               one_in_three _ _ _ eq_refl eq_refl
               (PyStr "Beverages")
               (PyFloat (S754_finite false 4691249611844266 (-47)))
               (or_introl eq_refl)).
Defined.

(** C6.  For every catalog whose rows hold a category and a name, the
    audit returns, every category of the catalog has a score, and every
    score is a finite number between 0 and 100 inclusive. *)
Theorem alignment_between_0_and_100 (lower : string -> string)
        (products : list row) (items : list (pyval * pyval)) :
  catalog products = Ok items ->
  forallb is_str (map snd items) = true ->
  exists health final,
    audit_categorization lower products = Ok (health, final) /\
    (forall cat, In cat (map fst items) -> exists v, In (cat, v) health) /\
    (forall cat v, In (cat, v) health -> in_0_100 v).
Proof.
  intros Hc Hs. unfold audit_categorization, audit.
  rewrite audit_engine_spec, Hc. cbn [bind]. rewrite Hs. cbn [bind].
  eexists _, _. split; [reflexivity |]. split.
  - intros cat Hcat. eexists. apply in_health_spec. now split.
  - intros cat v Hin. apply in_health_spec in Hin as [_ ->].
    apply score_of_in_0_100.
Qed.

Lemma alignment_between_0_and_100_witness :
  exists health final,
    audit_categorization ascii_lower sample_products = Ok (health, final) /\
    (forall cat,
       In cat [PyStr "Bakery, Cakes & Dairy"; PyStr "Bakery, Cakes & Dairy";
               PyStr "Bakery, Cakes & Dairy"; PyStr "beverages"; PyNone] ->
       exists v, In (cat, v) health) /\
    (forall cat v, In (cat, v) health -> in_0_100 v).
Proof.
  exact (alignment_between_0_and_100 ascii_lower sample_products _
           eq_refl eq_refl).
Defined.

Lemma row_item_ok p it :
  row_item p = Ok it ->
  row_lookup p "Category" = Some (fst it) /\
  row_lookup p "Product Name" = Some (snd it).
Proof.
  unfold row_item, row_getitem.
  destruct (row_lookup p "Category"); cbn [bind]; [| discriminate].
  destruct (row_lookup p "Product Name"); cbn [bind]; [| discriminate].
  intros [= <-]. now split.
Qed.

Lemma catalog_raise_inv products e :
  catalog products = Raise e ->
  exists q, In q products /\ row_item q = Raise e.
Proof.
  induction products as [| p ps IH]; cbn [catalog]; [discriminate |].
  destruct (row_item p) as [it | e'] eqn:Hp; cbn [bind].
  - destruct (catalog ps) as [its | e'']; cbn [bind]; [discriminate |].
    intros [= <-]. destruct (IH eq_refl) as (q & Hq & He).
    exists q. split; [now right | exact He].
  - intros [= <-]. exists p. split; [now left | exact Hp].
Qed.

(** The claim C8 fails on a short row, whose category cell is [None]:
    the row is audited under the category [None] and a score and a
    mismatch come out. *)
Lemma none_category_not_rejected :
  lacks_field short_row "Category" /\
  audit_categorization ascii_lower [short_row] =
    Ok ([(PyNone, PyFloat (S754_zero false))],
        [mkMismatch "Green Tea" PyNone "Beverages"]).
Proof.
  split; [right; reflexivity | vm_compute; reflexivity].
Qed.

Lemma row_item_raise_key p e :
  row_item p = Raise e ->
  exists key, e = KeyError key /\ row_lookup p key = None /\
              (key = "Category" \/ key = "Product Name").
Proof.
  unfold row_item, row_getitem.
  destruct (row_lookup p "Category") eqn:Hc; cbn [bind].
  - destruct (row_lookup p "Product Name") eqn:Hn; cbn [bind];
      [discriminate |].
    intros [= <-]. exists "Product Name". now repeat split; [| right].
  - intros [= <-]. exists "Category". now repeat split; [| left].
Qed.

Lemma catalog_origin products : forall items it,
  catalog products = Ok items -> In it items ->
  exists p, In p products /\ row_item p = Ok it.
Proof.
  induction products as [| q ps IH]; intros items it Hc Hit;
    cbn [catalog] in Hc.
  - injection Hc as <-. destruct Hit.
  - destruct (row_item q) as [it' |] eqn:Hq; [| discriminate].
    cbn [bind] in Hc. destruct (catalog ps) as [its |]; [| discriminate].
    injection Hc as <-. destruct Hit as [-> | Hit].
    + exists q. split; [now left | exact Hq].
    + destruct (IH its it eq_refl Hit) as (p & Hp & Hrow).
      exists p. split; [now right | exact Hrow].
Qed.

(** C8, as the script behaves.  When some row has no "Category" key or
    no "Product Name" key, the run ends in a KeyError that names a key
    some row lacks, and returns neither scores nor mismatches.  When
    every row has both keys and some name cell is [None], the run ends
    in AttributeError.  In both cases the row is not skipped.  When every
    row has both keys and a string for its name the run returns its
    results, whatever the category cells hold. *)
Theorem missing_field_raises (lower : string -> string) (products : list row) :
  ((exists p, In p products /\
              (row_lookup p "Category" = None \/
               row_lookup p "Product Name" = None)) ->
   exists key q,
     audit_categorization lower products = Raise (KeyError key) /\
     In q products /\ row_lookup q key = None /\
     (key = "Category" \/ key = "Product Name")) /\
  ((forall p, In p products ->
      row_lookup p "Category" <> None /\
      row_lookup p "Product Name" <> None) ->
   (exists p, In p products /\ row_lookup p "Product Name" = Some PyNone) ->
   audit_categorization lower products = Raise AttributeError) /\
  ((forall p, In p products ->
      (exists c, row_lookup p "Category" = Some c) /\
      (exists n, row_lookup p "Product Name" = Some (PyStr n))) ->
   exists health final,
     audit_categorization lower products = Ok (health, final)).
Proof.
  unfold audit_categorization, audit. rewrite audit_engine_spec.
  split; [| split].
  - intros (p & Hin & Hbad).
    destruct (catalog products) as [items | e] eqn:Hc; cbn [bind].
    + destruct (catalog_in _ _ _ Hc Hin) as (it & Hit & _).
      apply row_item_ok in Hit as [H1 H2].
      destruct Hbad as [H | H]; congruence.
    + apply catalog_raise_inv in Hc as (q & Hq & He).
      apply row_item_raise_key in He as (key & -> & Hkey & Hwhich).
      now exists key, q.
  - intros Hkeys (p & Hin & Hnone).
    destruct (catalog_total products) as [items Hc].
    { intros q Hq. destruct (Hkeys q Hq) as [H1 H2].
      unfold row_item, row_getitem.
      destruct (row_lookup q "Category") as [c |]; [| contradiction].
      destruct (row_lookup q "Product Name") as [n |]; [| contradiction].
      now exists (c, n). }
    rewrite Hc. cbn [bind].
    destruct (catalog_in _ _ _ Hc Hin) as (it & Hit & Hitems).
    apply row_item_ok in Hit as [_ H2].
    replace (forallb is_str (map snd items)) with false; [reflexivity |].
    symmetry. apply not_true_is_false. intros Hall.
    rewrite forallb_forall in Hall.
    specialize (Hall (snd it) (in_map snd _ _ Hitems)).
    assert (E : snd it = PyNone) by congruence.
    rewrite E in Hall. discriminate.
  - intros Hall.
    destruct (catalog_total products) as [items Hc].
    { intros p Hp. destruct (Hall p Hp) as [[c Hcat] [n Hname]].
      exists (c, PyStr n). unfold row_item, row_getitem.
      now rewrite Hcat, Hname. }
    rewrite Hc. cbn [bind].
    replace (forallb is_str (map snd items)) with true.
    + cbn [bind]. now eexists _, _.
    + symmetry. apply forallb_forall. intros v Hv.
      apply in_map_iff in Hv as (it & <- & Hit).
      destruct (catalog_origin _ _ _ Hc Hit) as (p & Hp & Hrow).
      apply row_item_ok in Hrow as [_ H2].
      destruct (Hall p Hp) as [_ [n Hn]].
      assert (E : snd it = PyStr n) by congruence.
      now rewrite E.
Qed.

Lemma missing_field_raises_witness :
  (exists key q,
     audit_categorization ascii_lower
       [mkrow (PyStr "Green Tea") (PyStr "Beverages");
        [("Product Name", PyStr "Choco Cake")]] = Raise (KeyError key) /\
     In q [mkrow (PyStr "Green Tea") (PyStr "Beverages");
           [("Product Name", PyStr "Choco Cake")]] /\
     row_lookup q key = None /\
     (key = "Category" \/ key = "Product Name")) /\
  audit_categorization ascii_lower
    [mkrow (PyStr "Green Tea") (PyStr "Beverages");
     mkrow PyNone (PyStr "Beverages")] = Raise AttributeError.
Proof.
  split.
  - refine (proj1 (missing_field_raises ascii_lower _) _).
    exists [("Product Name", PyStr "Choco Cake")].
    split; [right; now left | left; reflexivity].
  - refine (proj1 (proj2 (missing_field_raises ascii_lower _)) _ _).
    + intros p [<- | [<- | []]]; split; discriminate.
    + exists (mkrow PyNone (PyStr "Beverages")).
      split; [right; now left | reflexivity].
Defined.





(** C10.  The rule table is looked up by the exact category string.  An
    item whose category is no key of the table, be it only for the case
    of a letter, has an empty keyword list of its own: the Matcher
    answers false, the counter is never incremented for it, and the scan
    for a suggestion skips no category of the table and returns the
    first one whose keywords match. *)
Theorem unknown_category_case_sensitive (lower : string -> string)
        (cat : pyval) :
  (forall k, In k (map fst rules) -> PyStr k <> cat) ->
  rules_get rules cat = [] /\
  forall name,
    matches lower rules name cat = false /\
    scan_others lower cat (lower name) rules =
      option_map fst
        (find (fun kv => any_rule_in lower (lower name) (snd kv)) rules) /\
    forall cc ms,
      audit_item lower rules cat (rules_get rules cat) (cc, ms) (PyStr name) =
      Ok (cc, ms ++ match scan_others lower cat (lower name) rules with
                    | Some sug => [mkMismatch name cat sug]
                    | None => []
                    end).
Proof.
  intros Hk.
  assert (E : rules_get rules cat = []).
  { destruct cat as [| c]; [reflexivity |]. cbn [rules_get].
    apply rules_lookup_absent. intros Hin. now apply (Hk c Hin). }
  split; [exact E |]. intros name.
  assert (Hown : matches lower rules name cat = false)
    by (unfold matches; now rewrite E).
  split; [exact Hown |]. split; [now apply scan_others_foreign |].
  intros cc ms. rewrite audit_item_str, Hown, Z.add_0_r.
  unfold item_mismatch. rewrite Hown.
  destruct (scan_others lower cat (lower name) rules) as [sug |] eqn:Hs;
    [| reflexivity].
  apply (scan_others_first_foreign lower rules rules_nodup) in Hs.
  apply first_foreign_match_key in Hs.
  destruct (String.eqb_spec sug "") as [-> | _]; [| reflexivity].
  now elim rules_truthy.
Qed.

Lemma unknown_category_case_sensitive_witness :
  (forall k, In k (map fst rules) -> PyStr k <> PyStr "beverages") /\
  rules_get rules (PyStr "beverages") = [] /\
  rules_get rules (PyStr "Beverages") <> [] /\
  matches ascii_lower rules "GREEN tea" (PyStr "Beverages") = true /\
  matches ascii_lower rules "GREEN tea" (PyStr "beverages") = false /\
  audit_item ascii_lower rules (PyStr "beverages")
             (rules_get rules (PyStr "beverages")) (0%Z, []) (PyStr "GREEN tea") =
    Ok (0%Z, [mkMismatch "GREEN tea" (PyStr "beverages") "Beverages"]).
Proof.
  assert (H : forall k, In k (map fst rules) -> PyStr k <> PyStr "beverages").
  { cbn [map fst rules In]. intros k Hk [= ->]. intuition discriminate. }
  destruct (unknown_category_case_sensitive ascii_lower (PyStr "beverages") H)
    as [E Hall].
  destruct (Hall "GREEN tea") as (Hm & _ & Hitem).
  split; [exact H |]. split; [exact E |]. split; [discriminate |].
  split; [reflexivity |]. split; [exact Hm |]. exact (Hitem 0%Z []).
Defined.

(** * Further properties of the audit *)

(** ** The score table *)

Lemma SFdiv_self n :
  SFdiv prec emax (S754_finite false n 0) (S754_finite false n 0) =
  S754_finite false 4503599627370496 (-52).
Proof.
  unfold SFdiv, SFdiv_core_binary.
  replace (Zdigits2 (Zpos n) + 0 - (Zdigits2 (Zpos n) + 0))%Z with 0%Z by lia.
  change (Z.min (fexp prec emax 0) (0 - 0)) with (-53)%Z.
  change (0 - 0 - -53)%Z with 53%Z. cbv iota.
  rewrite Z.shiftl_mul_pow2 by lia.
  pose proof (Z_div_mod (Zpos n * 2 ^ 53) (Zpos n) eq_refl) as H.
  destruct (Z.div_eucl (Zpos n * 2 ^ 53) (Zpos n)) as [q r].
  destruct H as [Heq Hr].
  assert (Hq : q = (2 ^ 53)%Z).
  { rewrite (Z.div_unique_pos _ _ q r Hr Heq). rewrite Z.mul_comm.
    apply Z.div_mul. lia. }
  subst q. assert (r = 0)%Z as -> by lia.
  unfold new_location. destruct (Z.even (Zpos n)); reflexivity.
Qed.

Lemma score_of_all lower tbl cat items :
  items <> [] ->
  (forall n, In n items -> self_match lower tbl cat n = true) ->
  score_of lower tbl cat items = PyFloat (float_of_int 100).
Proof.
  intros Hne Hall. destruct items as [| a l]; [contradiction |].
  unfold score_of, correct_of.
  rewrite forallb_filter_id by (apply forallb_forall; exact Hall).
  cbn [length]. rewrite Nat2Z.inj_succ, <- Zpos_P_of_succ_nat.
  cbn [int_operand]. rewrite SFdiv_self. reflexivity.
Qed.

Lemma filter_none {A} (f : A -> bool) l :
  (forall x, In x l -> f x = false) -> filter f l = [].
Proof.
  induction l as [| a l IH]; intros H; cbn [filter]; [reflexivity |].
  rewrite (H a (or_introl eq_refl)). apply IH. intros x Hx. apply H. now right.
Qed.

Lemma score_of_none lower tbl cat items :
  items <> [] ->
  (forall n, In n items -> self_match lower tbl cat n = false) ->
  score_of lower tbl cat items = PyFloat (S754_zero false).
Proof.
  intros Hne Hnone. destruct items as [| a l]; [contradiction |].
  unfold score_of, correct_of. rewrite (filter_none _ _ Hnone).
  cbn [length]. rewrite Nat2Z.inj_succ, <- Zpos_P_of_succ_nat. reflexivity.
Qed.

Lemma item_mismatch_current lower tbl cat n m :
  In m (item_mismatch lower tbl cat n) -> current m = cat.
Proof.
  unfold item_mismatch. destruct n as [| n]; [intros [] |].
  destruct (matches lower tbl n cat); [intros [] |].
  destruct (scan_others lower cat (lower n) tbl) as [oc |]; [| intros []].
  destruct (String.eqb oc ""); [intros [] |]. now intros [<- | []].
Qed.

Lemma item_mismatch_self lower tbl cat n :
  self_match lower tbl cat n = true -> item_mismatch lower tbl cat n = [].
Proof.
  destruct n as [| n]; [reflexivity |]. cbn [self_match item_mismatch].
  now intros ->.
Qed.

Lemma item_mismatch_length lower tbl cat n :
  (length (item_mismatch lower tbl cat n) <= 1)%nat.
Proof.
  unfold item_mismatch. destruct n as [| n]; [cbn; lia |].
  destruct (matches lower tbl n cat); [cbn; lia |].
  destruct (scan_others lower cat (lower n) tbl) as [oc |]; [| cbn; lia].
  destruct (String.eqb oc ""); cbn; lia.
Qed.

(** X1.  The score table has one entry per category of the catalog, in
    the order in which the categories first appear: no entry is written
    twice and none is missing. *)
Theorem score_table_shape (lower : string -> string) (products : list row)
        (items : list (pyval * pyval)) (health : dict pynum)
        (final : list Mismatch) :
  catalog products = Ok items ->
  audit_categorization lower products = Ok (health, final) ->
  map fst health = uniq (map fst items) /\
  NoDup (map fst health) /\
  forall cat, In cat (map fst health) <->
              exists name, In (cat, name) items.
Proof.
  intros Hc Ha. unfold audit_categorization, audit in Ha.
  destruct (audit_engine lower rules products) as [[h ms] |] eqn:He;
    [| discriminate].
  cbn [bind] in Ha. injection Ha as <- <-.
  destruct (audit_engine_ok _ _ _ _ _ Hc He) as (_ & -> & _).
  assert (E : map fst (health_spec lower rules items) = uniq (map fst items)).
  { unfold health_spec. rewrite map_map. unfold score_entry. cbn [fst].
    apply group_spec_keys. }
  rewrite E. split; [reflexivity |]. split; [apply NoDup_uniq |].
  intros cat. rewrite in_uniq, in_map_iff. split.
  - intros ([c n] & <- & Hin). now exists n.
  - intros (n & Hin). now exists (cat, n).
Qed.

Lemma score_table_shape_witness :
  map fst [(PyStr "Bakery, Cakes & Dairy",
            PyFloat (S754_finite false 4691249611844266 (-47)));
           (PyStr "beverages", PyFloat (S754_zero false));
           (PyNone, PyFloat (S754_zero false))] =
  [PyStr "Bakery, Cakes & Dairy"; PyStr "beverages"; PyNone].
Proof.
  exact (proj1 (score_table_shape ascii_lower sample_products _ _ _
                  eq_refl eq_refl)).
Defined.

(** X2.  The two ends of the scale are exact.  A category all of whose
    members match its own keywords scores exactly 100.0 and has no
    mismatch record; a category none of whose members match scores
    exactly 0.0, which is the case of every category that is no key of
    the rule table. *)
Theorem score_endpoints (lower : string -> string) (products : list row)
        (items : list (pyval * pyval)) (health : dict pynum)
        (ms : list Mismatch) (cat : pyval) (v : pynum) :
  catalog products = Ok items ->
  audit_engine lower rules products = Ok (health, ms) ->
  In (cat, v) health ->
  ((forall name, In (cat, name) items ->
      self_match lower rules cat name = true) ->
   v = PyFloat (float_of_int 100) /\
   forall m, In m ms -> current m <> cat) /\
  ((forall name, In (cat, name) items ->
      self_match lower rules cat name = false) ->
   v = PyFloat (S754_zero false)) /\
  ((forall k, In k (map fst rules) -> PyStr k <> cat) ->
   v = PyFloat (S754_zero false)).
Proof.
  intros Hc He Hin.
  destruct (audit_engine_ok _ _ _ _ _ Hc He) as (_ & -> & ->).
  apply in_health_spec in Hin as [Hcat ->].
  pose proof (members_nonempty cat items Hcat) as Hne.
  assert (Hzero : (forall name, In (cat, name) items ->
                     self_match lower rules cat name = false) ->
                  score_of lower rules cat (members cat items) =
                  PyFloat (S754_zero false)).
  { intros Hnone. apply score_of_none; [exact Hne |].
    intros n Hn. apply Hnone. now apply in_members. }
  split; [| split; [exact Hzero |]].
  - intros Hall. split.
    + apply score_of_all; [exact Hne |].
      intros n Hn. apply Hall. now apply in_members.
    + intros m Hm Hcur. apply in_mismatches_spec in Hm as (c & n & Hcn & Hm).
      pose proof (item_mismatch_current _ _ _ _ _ Hm) as E.
      rewrite Hcur in E. subst c.
      rewrite (item_mismatch_self _ _ _ _ (Hall n Hcn)) in Hm. destruct Hm.
  - intros Hk. apply Hzero. intros [| n] _; [reflexivity |].
    cbn [self_match]. unfold matches.
    replace (rules_get rules cat) with (@nil string); [reflexivity |].
    destruct cat as [| c]; [reflexivity |]. cbn [rules_get]. symmetry.
    apply rules_lookup_absent. intros Hc'. now apply (Hk c Hc').
Qed.

Lemma score_endpoints_witness :
  PyFloat (float_of_int 100) = PyFloat (float_of_int 100) /\
  forall m,
    In m [mkMismatch "Basmati Rice" (PyStr "Beverages")
                     "Foodgrains, Oil & Masala"] ->
    current m <> PyStr "Bakery, Cakes & Dairy".
Proof.
  refine (proj1 (score_endpoints ascii_lower
                   (mkrow (PyStr "Choco Cake") (PyStr "Bakery, Cakes & Dairy")
                    :: mkrow (PyStr "Basmati Rice") (PyStr "Beverages")
                    :: mkrow (PyStr "Milk Bread") (PyStr "Bakery, Cakes & Dairy")
                    :: [])
                   _ _ _ (PyStr "Bakery, Cakes & Dairy")
                   (PyFloat (float_of_int 100))
                   eq_refl eq_refl (or_introl eq_refl)) _).
  intros name [[= <-] | [[=] | [[= <-] | []]]]; reflexivity.
Defined.

(** ** Counting the records *)

Lemma filter_flat_map {A B} (P : B -> bool) (f : A -> list B) l :
  filter P (flat_map f l) = flat_map (fun x => filter P (f x)) l.
Proof.
  induction l as [| a l IH]; cbn [flat_map]; [reflexivity |].
  now rewrite filter_app, IH.
Qed.

Lemma forallb_filter_all {A} (P : A -> bool) l :
  (forall x, In x l -> P x = true) -> filter P l = l.
Proof. intros H. apply forallb_filter_id, forallb_forall, H. Qed.

Lemma filter_current_group lower tbl cat c l :
  filter (fun m => pyval_eqb (current m) cat)
         (flat_map (item_mismatch lower tbl c) l) =
  if pyval_eqb c cat then flat_map (item_mismatch lower tbl c) l else [].
Proof.
  destruct (pyval_eqb_spec c cat) as [-> | Hne].
  - apply forallb_filter_all. intros m Hm. apply in_flat_map in Hm as (n & _ & Hm).
    rewrite (item_mismatch_current _ _ _ _ _ Hm). apply pyval_eqb_refl.
  - apply filter_none. intros m Hm. apply in_flat_map in Hm as (n & _ & Hm).
    rewrite (item_mismatch_current _ _ _ _ _ Hm).
    now destruct (pyval_eqb_spec c cat).
Qed.

Lemma flat_map_single_key {B} (G : pyval -> list B) cat : forall ks,
  NoDup ks ->
  flat_map (fun c => if pyval_eqb c cat then G c else []) ks =
  if existsb (pyval_eqb cat) ks then G cat else [].
Proof.
  induction ks as [| k ks IH]; intros Hnd; cbn [flat_map existsb];
    [reflexivity |].
  inversion Hnd as [| ? ? Hk Hnd']; subst. rewrite (IH Hnd').
  destruct (pyval_eqb_spec k cat) as [-> | Hne].
  - rewrite pyval_eqb_refl. cbn [orb].
    replace (existsb (pyval_eqb cat) ks) with false; [apply app_nil_r |].
    symmetry. apply not_true_is_false. intros H.
    now apply existsb_pyval_eqb in H.
  - destruct (pyval_eqb_spec cat k); [congruence | reflexivity].
Qed.

(** The records filed under one category are those of its own members. *)
Lemma mismatches_of_category lower tbl items cat :
  filter (fun m => pyval_eqb (current m) cat) (mismatches_spec lower tbl items) =
  flat_map (item_mismatch lower tbl cat) (members cat items).
Proof.
  rewrite mismatches_spec_traversal, filter_flat_map.
  erewrite flat_map_ext; [| intros c; apply filter_current_group].
  rewrite (flat_map_single_key
             (fun c => flat_map (item_mismatch lower tbl c) (members c items)))
    by apply NoDup_uniq.
  destruct (existsb (pyval_eqb cat) (uniq (map fst items))) eqn:E;
    [reflexivity |].
  rewrite members_nil; [reflexivity |].
  intros H. apply in_uniq, existsb_pyval_eqb in H. congruence.
Qed.

Lemma correct_plus_flagged lower tbl cat l :
  (length (filter (self_match lower tbl cat) l) +
   length (flat_map (item_mismatch lower tbl cat) l) <= length l)%nat.
Proof.
  induction l as [| n l IH]; cbn [filter flat_map length]; [lia |].
  rewrite length_app.
  pose proof (item_mismatch_length lower tbl cat n) as H1.
  destruct (self_match lower tbl cat n) eqn:Hs; cbn [length].
  - rewrite (item_mismatch_self _ _ _ _ Hs). cbn [length]. lia.
  - lia.
Qed.

(** X3.  In every category the members counted as correct and the
    mismatch records filed under it together do not outnumber the
    members: no item is both counted and flagged, and none is flagged
    twice.  Hence the final list is no longer than the catalog. *)
Theorem counted_and_flagged_bounded (lower : string -> string)
        (products : list row) (items : list (pyval * pyval))
        (health : dict pynum) (ms : list Mismatch) :
  catalog products = Ok items ->
  audit_engine lower rules products = Ok (health, ms) ->
  (forall cat,
     (Z.to_nat (correct_of lower rules cat (members cat items)) +
      length (filter (fun m => pyval_eqb (current m) cat) ms)
      <= length (members cat items))%nat) /\
  (length (dedup ms) <= length ms <= length products)%nat.
Proof.
  intros Hc He.
  destruct (audit_engine_ok _ _ _ _ _ Hc He) as (_ & _ & ->).
  split.
  - intros cat. rewrite mismatches_of_category. unfold correct_of.
    rewrite Nat2Z.id. apply correct_plus_flagged.
  - split.
    + assert (H : NoDup (dedup (mismatches_spec lower rules items)))
        by (apply NoDup_map_inv with (f := item), NoDup_dedup).
      apply NoDup_incl_length; [exact H |]. intros m. apply dedup_incl.
    + assert (Hlen : length items = length products).
      { clear He. revert items Hc.
        induction products as [| p ps IH]; intros items Hc; cbn [catalog] in Hc.
        - now injection Hc as <-.
        - destruct (row_item p); [| discriminate]. cbn [bind] in Hc.
          destruct (catalog ps) as [its |]; [| discriminate].
          injection Hc as <-. cbn [length]. now rewrite (IH its eq_refl). }
      rewrite <- Hlen, <- (Permutation_length (ungroup_group_spec items)).
      unfold mismatches_spec, ungroup.
      induction (group_spec items) as [| [c l] gs IH]; cbn [flat_map];
        [cbn; lia |].
      rewrite !length_app, length_map. unfold group_mismatches at 1.
      cbn [fst snd].
      pose proof (correct_plus_flagged lower rules c l). lia.
Qed.

Lemma counted_and_flagged_bounded_witness :
  (Z.to_nat 1 + 1 <= 3)%nat /\ (2 <= 3 <= 5)%nat.
Proof.
  destruct (counted_and_flagged_bounded ascii_lower sample_products _ _ _
              eq_refl eq_refl) as [Hcat Htot].
  split; [exact (Hcat (PyStr "Bakery, Cakes & Dairy")) | exact Htot].
Defined.

(** ** The order of the rows *)

Lemma Permutation_filter {A} (f : A -> bool) l l' :
  Permutation l l' -> Permutation (filter f l) (filter f l').
Proof.
  induction 1 as [| x l l' _ IH | x y l | l l' l'' _ IH1 _ IH2]; cbn [filter].
  - constructor.
  - destruct (f x); [now constructor | exact IH].
  - destruct (f x), (f y); try reflexivity. constructor.
  - now transitivity (filter f l').
Qed.

Lemma members_Permutation cat items items' :
  Permutation items items' ->
  Permutation (members cat items) (members cat items').
Proof. intros H. unfold members. now apply Permutation_map, Permutation_filter. Qed.

Lemma score_of_Permutation lower tbl cat l l' :
  Permutation l l' -> score_of lower tbl cat l = score_of lower tbl cat l'.
Proof.
  intros H. unfold score_of, correct_of.
  rewrite (Permutation_length (Permutation_filter (self_match lower tbl cat) _ _ H)).
  rewrite (Permutation_length H).
  destruct l as [| a l], l' as [| a' l']; try reflexivity.
  - apply Permutation_nil in H. discriminate.
  - apply Permutation_sym, Permutation_nil in H. discriminate.
Qed.

Lemma uniq_Permutation l l' :
  Permutation l l' -> Permutation (uniq l) (uniq l').
Proof.
  intros H. apply NoDup_Permutation; try apply NoDup_uniq.
  intros x. rewrite !in_uniq. split; apply Permutation_in; [| symmetry]; exact H.
Qed.

Lemma flat_map_Permutation_ext {A B} (f g : A -> list B) l :
  (forall x, In x l -> Permutation (f x) (g x)) ->
  Permutation (flat_map f l) (flat_map g l).
Proof.
  induction l as [| a l IH]; intros H; cbn [flat_map]; [constructor |].
  apply Permutation_app; [apply H; now left |].
  apply IH. intros x Hx. apply H. now right.
Qed.

Lemma health_spec_Permutation lower tbl items items' :
  Permutation items items' ->
  Permutation (health_spec lower tbl items) (health_spec lower tbl items').
Proof.
  intros H. unfold health_spec, group_spec, score_entry.
  rewrite !map_map. cbn [fst snd].
  transitivity (map (fun c => (c, score_of lower tbl c (members c items')))
                    (uniq (map fst items))).
  - erewrite map_ext; [reflexivity |]. intros c. cbn beta. f_equal.
    now apply score_of_Permutation, members_Permutation.
  - now apply Permutation_map, uniq_Permutation, Permutation_map.
Qed.

Lemma mismatches_spec_Permutation lower tbl items items' :
  Permutation items items' ->
  Permutation (mismatches_spec lower tbl items)
              (mismatches_spec lower tbl items').
Proof.
  intros H. rewrite !mismatches_spec_traversal.
  transitivity (flat_map (fun cat => flat_map (item_mismatch lower tbl cat)
                                              (members cat items'))
                         (uniq (map fst items))).
  - apply flat_map_Permutation_ext. intros c _.
    now apply Permutation_flat_map, members_Permutation.
  - now apply Permutation_flat_map, uniq_Permutation, Permutation_map.
Qed.

(** X4.  Reordering the rows of the catalog changes no score and no
    set of flagged names: the score table and the records before
    de-duplication are permuted, and the final list names the same items
    in the same number.  (Under which category a name that appears twice
    is reported does depend on the order.) *)
Theorem row_order_irrelevant (lower : string -> string)
        (products products' : list row) (items items' : list (pyval * pyval))
        (health : dict pynum) (final : list Mismatch) :
  catalog products = Ok items ->
  catalog products' = Ok items' ->
  Permutation items items' ->
  audit_categorization lower products = Ok (health, final) ->
  exists health' final',
    audit_categorization lower products' = Ok (health', final') /\
    Permutation health health' /\
    (forall name, In name (map item final) <-> In name (map item final')) /\
    length final = length final'.
Proof.
  intros Hc Hc' Hp Ha. unfold audit_categorization, audit in *.
  rewrite audit_engine_spec, Hc in Ha. rewrite audit_engine_spec, Hc'.
  cbn [bind] in *.
  destruct (forallb is_str (map snd items)) eqn:Hs; [| discriminate].
  replace (forallb is_str (map snd items')) with true.
  - cbn [bind] in *. injection Ha as <- <-. eexists _, _.
    split; [reflexivity |]. split; [now apply health_spec_Permutation |].
    assert (Hnames : forall name,
              In name (map item (dedup (mismatches_spec lower rules items))) <->
              In name (map item (dedup (mismatches_spec lower rules items')))).
    { intros name. rewrite !dedup_names.
      pose proof (Permutation_map item
                    (mismatches_spec_Permutation lower rules _ _ Hp)) as Hm.
      split; apply Permutation_in; [| symmetry]; exact Hm. }
    split; [exact Hnames |].
    rewrite <- !(length_map item). apply Permutation_length.
    apply NoDup_Permutation; try apply NoDup_dedup. exact Hnames.
  - symmetry. rewrite forallb_forall in *. intros v Hv. apply Hs.
    eapply Permutation_in; [| exact Hv].
    apply Permutation_map. now symmetry.
Qed.

Lemma row_order_irrelevant_witness :
  exists health' final',
    audit_categorization ascii_lower (rev sample_products) =
      Ok (health', final') /\
    Permutation
      [(PyStr "Bakery, Cakes & Dairy",
        PyFloat (S754_finite false 4691249611844266 (-47)));
       (PyStr "beverages", PyFloat (S754_zero false));
       (PyNone, PyFloat (S754_zero false))] health' /\
    (forall name,
       In name (map item
         [mkMismatch "Green Tea" (PyStr "Bakery, Cakes & Dairy") "Beverages";
          mkMismatch "Olive Oil" PyNone "Foodgrains, Oil & Masala"]) <->
       In name (map item final')) /\
    length [mkMismatch "Green Tea" (PyStr "Bakery, Cakes & Dairy") "Beverages";
            mkMismatch "Olive Oil" PyNone "Foodgrains, Oil & Masala"] =
    length final'.
Proof.
  refine (row_order_irrelevant ascii_lower sample_products
            (rev sample_products)
            [(PyStr "Bakery, Cakes & Dairy", PyStr "Green Tea");
             (PyStr "Bakery, Cakes & Dairy", PyStr "Choco Cake");
             (PyStr "Bakery, Cakes & Dairy", PyStr "Wooden Spoon");
             (PyStr "beverages", PyStr "Green Tea");
             (PyNone, PyStr "Olive Oil")]
            (rev [(PyStr "Bakery, Cakes & Dairy", PyStr "Green Tea");
                  (PyStr "Bakery, Cakes & Dairy", PyStr "Choco Cake");
                  (PyStr "Bakery, Cakes & Dairy", PyStr "Wooden Spoon");
                  (PyStr "beverages", PyStr "Green Tea");
                  (PyNone, PyStr "Olive Oil")])
            _ _ eq_refl eq_refl _ eq_refl).
  apply Permutation_rev.
Defined.

(** ** Which exception is raised *)

Lemma catalog_app ps ps' :
  catalog (ps ++ ps') =
  (its <- catalog ps ;; its' <- catalog ps' ;; Ok (its ++ its')).
Proof.
  induction ps as [| p ps IH]; cbn [app catalog].
  - cbn [bind]. now destruct (catalog ps').
  - destruct (row_item p); cbn [bind]; [| reflexivity]. rewrite IH.
    destruct (catalog ps); cbn [bind]; [| reflexivity].
    now destruct (catalog ps').
Qed.

(** X5.  When a row has no "Category" key or no "Product Name" key, the
    run ends in the KeyError of the first such row, "Category" being
    looked up first, whatever the rows before it hold: a [None] name in
    an earlier row is not what is reported, because grouping reads every
    row before any name is lower-cased. *)
Theorem first_missing_key_raised (lower : string -> string)
        (before after : list row) (p : row) :
  (forall q, In q before ->
     row_lookup q "Category" <> None /\ row_lookup q "Product Name" <> None) ->
  row_lookup p "Category" = None \/ row_lookup p "Product Name" = None ->
  audit_categorization lower (before ++ p :: after) =
  Raise (KeyError (match row_lookup p "Category" with
                   | None => "Category"
                   | Some _ => "Product Name"
                   end)).
Proof.
  intros Hbefore Hp. unfold audit_categorization, audit.
  rewrite audit_engine_spec, catalog_app.
  destruct (catalog_total before) as [its ->].
  { intros q Hq. destruct (Hbefore q Hq) as [H1 H2].
    unfold row_item, row_getitem.
    destruct (row_lookup q "Category") as [c |]; [| contradiction].
    destruct (row_lookup q "Product Name") as [n |]; [| contradiction].
    now exists (c, n). }
  cbn [bind catalog]. unfold row_item, row_getitem.
  destruct (row_lookup p "Category") as [c |]; cbn [bind]; [| reflexivity].
  destruct Hp as [Hp | Hp]; [discriminate |]. now rewrite Hp.
Qed.

Lemma first_missing_key_raised_witness :
  audit_categorization ascii_lower
    ([mkrow PyNone (PyStr "Beverages")]
     ++ [("Category", PyStr "Beverages")]
     :: [mkrow (PyStr "Green Tea") (PyStr "Beverages")]) =
  Raise (KeyError "Product Name").
Proof.
  refine (first_missing_key_raised ascii_lower
            [mkrow PyNone (PyStr "Beverages")]
            [mkrow (PyStr "Green Tea") (PyStr "Beverages")]
            [("Category", PyStr "Beverages")] _ _).
  - intros q [<- | []]. split; discriminate.
  - right. reflexivity.
Defined.

(** ** De-duplication once more *)

Lemma dedup_distinct ms : NoDup (map item ms) -> dedup ms = ms.
Proof.
  induction ms as [| m ms IH] using rev_ind; intros Hnd; [reflexivity |].
  rewrite map_app in Hnd. cbn [map] in Hnd.
  rewrite dedup_snoc, IH by (eapply NoDup_app_remove_r; exact Hnd).
  replace (existsb (String.eqb (item m)) (map item ms)) with false;
    [reflexivity |].
  symmetry. apply not_true_is_false. intros H. apply existsb_string_eqb in H.
  apply NoDup_remove_2 in Hnd. apply Hnd. rewrite app_nil_r. exact H.
Qed.

(** X6.  De-duplication leaves a list whose item names are already
    distinct as it is, so applied to its own result it changes nothing.
    Over a concatenation it keeps what it keeps of the first part,
    followed by what it keeps of the second part less the records whose
    name occurs in the first: it never reorders. *)
Theorem dedup_stable (pre post : list Mismatch) :
  (NoDup (map item pre) -> dedup pre = pre) /\
  dedup (dedup pre) = dedup pre /\
  dedup (pre ++ post) =
    dedup pre ++
    filter (fun m => negb (existsb (String.eqb (item m)) (map item pre)))
           (dedup post).
Proof.
  split; [apply dedup_distinct |].
  split; [apply dedup_distinct, NoDup_dedup |].
  induction post as [| x post IH] using rev_ind.
  - now rewrite !app_nil_r.
  - rewrite app_assoc, !dedup_snoc, map_app, existsb_app.
    destruct (existsb (String.eqb (item x)) (map item pre)) eqn:Hpre;
      cbn [orb].
    + rewrite IH. destruct (existsb (String.eqb (item x)) (map item post));
        [reflexivity |].
      rewrite filter_app. cbn [filter]. rewrite Hpre. cbn [negb].
      now rewrite app_nil_r.
    + destruct (existsb (String.eqb (item x)) (map item post));
        [exact IH |].
      rewrite IH, filter_app. cbn [filter]. rewrite Hpre. cbn [negb].
      now rewrite app_assoc.
Qed.

Lemma dedup_stable_witness :
  dedup [mkMismatch "Green Tea" (PyStr "Bakery") "Beverages";
         mkMismatch "Olive Oil" PyNone "Foodgrains, Oil & Masala"] =
  [mkMismatch "Green Tea" (PyStr "Bakery") "Beverages";
   mkMismatch "Olive Oil" PyNone "Foodgrains, Oil & Masala"].
Proof.
  refine (proj1 (dedup_stable _ []) _).
  repeat (constructor; [cbn [In map item]; intuition discriminate |]).
  constructor.
Defined.

(** ** Catalogs that share no category *)

Lemma uniq_app_disjoint l l' :
  (forall x, In x l -> ~ In x l') -> uniq (l ++ l') = uniq l ++ uniq l'.
Proof.
  induction l' as [| y l' IH] using rev_ind; intros Hd.
  - cbn. now rewrite !app_nil_r.
  - rewrite app_assoc, !uniq_snoc, existsb_app.
    replace (existsb (pyval_eqb y) l) with false.
    + cbn [orb]. rewrite IH.
      * destruct (existsb (pyval_eqb y) l');
          [reflexivity | symmetry; apply app_assoc].
      * intros x Hx Hx'. apply (Hd x Hx). apply in_or_app. now left.
    + symmetry. apply not_true_is_false. intros H.
      apply existsb_pyval_eqb in H. apply (Hd y H).
      apply in_or_app. right. now left.
Qed.

Lemma members_app cat items items' :
  members cat (items ++ items') = members cat items ++ members cat items'.
Proof. unfold members. now rewrite filter_app, map_app. Qed.

Lemma group_spec_app_disjoint items items' :
  (forall c, In c (map fst items) -> ~ In c (map fst items')) ->
  group_spec (items ++ items') = group_spec items ++ group_spec items'.
Proof.
  intros Hd. unfold group_spec.
  rewrite map_app, (uniq_app_disjoint _ _ Hd), map_app. f_equal.
  - apply map_ext_in. intros c Hc. apply (proj1 (in_uniq _ _)) in Hc.
    rewrite members_app, (members_nil c items' (Hd c Hc)).
    now rewrite app_nil_r.
  - apply map_ext_in. intros c Hc. apply (proj1 (in_uniq _ _)) in Hc.
    rewrite members_app, (members_nil c items); [reflexivity |].
    intros H. now apply (Hd c H).
Qed.

(** X7.  Categories are audited independently of one another: when two
    catalogs have no category in common, auditing one after the other
    gives the score table of the first followed by that of the second,
    and likewise for the mismatch records before de-duplication. *)
Theorem audit_of_disjoint_catalogs (lower : string -> string)
        (products products' : list row) (items items' : list (pyval * pyval))
        (health health' : dict pynum) (ms ms' : list Mismatch) :
  catalog products = Ok items ->
  catalog products' = Ok items' ->
  (forall c, In c (map fst items) -> ~ In c (map fst items')) ->
  audit_engine lower rules products = Ok (health, ms) ->
  audit_engine lower rules products' = Ok (health', ms') ->
  audit_engine lower rules (products ++ products') =
    Ok (health ++ health', ms ++ ms') /\
  audit_categorization lower (products ++ products') =
    Ok (health ++ health', dedup (ms ++ ms')).
Proof.
  intros Hc Hc' Hd He He'.
  destruct (audit_engine_ok _ _ _ _ _ Hc He) as (Hs & -> & ->).
  destruct (audit_engine_ok _ _ _ _ _ Hc' He') as (Hs' & -> & ->).
  assert (E : audit_engine lower rules (products ++ products') =
              Ok (health_spec lower rules items ++ health_spec lower rules items',
                  mismatches_spec lower rules items ++
                  mismatches_spec lower rules items')).
  { rewrite audit_engine_spec, catalog_app, Hc, Hc'. cbn [bind].
    rewrite map_app, forallb_app, Hs, Hs'. cbn [andb].
    unfold health_spec, mismatches_spec.
    now rewrite (group_spec_app_disjoint _ _ Hd), map_app, flat_map_app. }
  split; [exact E |].
  unfold audit_categorization, audit. now rewrite E.
Qed.

Lemma audit_of_disjoint_catalogs_witness :
  audit_engine ascii_lower rules (one_in_three ++ [short_row]) =
  Ok ([(PyStr "Beverages",
        PyFloat (S754_finite false 4691249611844266 (-47)))]
      ++ [(PyNone, PyFloat (S754_zero false))],
      [mkMismatch "Basmati Rice" (PyStr "Beverages") "Foodgrains, Oil & Masala"]
      ++ [mkMismatch "Green Tea" PyNone "Beverages"]).
Proof.
  refine (proj1 (audit_of_disjoint_catalogs ascii_lower one_in_three [short_row]
                   _ _ _ _ _ _ eq_refl eq_refl _ eq_refl eq_refl)).
  cbn [map fst In]. intros c [<- | [<- | [<- | []]]] [H | []]; discriminate.
Defined.

(** ** The report *)

Lemma flagged_names lower items name :
  In name (map item (mismatches_spec lower rules items)) <->
  exists cat, In (cat, PyStr name) items /\ misfiled lower rules cat name.
Proof.
  unfold misfiled. rewrite in_map_iff. split.
  - intros (m & <- & Hm). apply in_mismatches_spec in Hm as (c & n & Hcn & Hm).
    destruct n as [| n]; [destruct Hm |].
    apply (in_item_mismatch lower rules rules_nodup rules_truthy) in Hm
      as (<- & <- & Hown & Hff).
    exists (current m). split; [exact Hcn |]. split; [exact Hown |].
    apply (first_foreign_match_exists lower rules rules_nodup).
    now exists (suggested m).
  - intros (cat & Hin & Hown & Hex).
    apply (first_foreign_match_exists lower rules rules_nodup) in Hex
      as [sug Hff].
    exists (mkMismatch name cat sug). split; [reflexivity |].
    apply in_mismatches_spec. exists cat, (PyStr name). split; [exact Hin |].
    apply (in_item_mismatch lower rules rules_nodup rules_truthy).
    cbn [item current suggested]. now repeat split.
Qed.

Lemma length_report_blocks l :
  length (flat_map report_block l) = (4 * length l)%nat.
Proof.
  induction l as [| m l IH]; [reflexivity |].
  cbn [flat_map]. rewrite length_app, IH. cbn [report_block length]. lia.
Qed.

(** X8.  The report counts names, not rows.  The total it prints is
    the number of distinct names of misfiled items, each listed once; at
    most 15 of them are shown, so the total can exceed what is shown.
    It says that no obvious mismatch was found exactly when no item of
    the catalog is misfiled. *)
Theorem report_counts_distinct_names (lower : string -> string)
        (products : list row) (items : list (pyval * pyval)) :
  catalog products = Ok items ->
  forallb is_str (map snd items) = true ->
  exists final,
    audit_report lower products = Ok (mismatch_report final) /\
    NoDup (map item final) /\
    (forall name, In name (map item final) <->
       exists cat, In (cat, PyStr name) items /\ misfiled lower rules cat name) /\
    (length (mismatch_report final) = 4 * min 15 (length final) + 2
     \/ final = [])%nat /\
    (mismatch_report final =
       [ "No obvious mismatches found.";
         (newline ++ "Total potential mismatches identified: 0")%string;
         "Note: In Indian retail (e.g. BigBasket), some items like 'Honey' or 'Pickles' are intentionally placed in 'Snacks & Branded Foods' or 'Foodgrains' depending on store strategy." ]
     <-> forall cat name, In (cat, PyStr name) items ->
                          ~ misfiled lower rules cat name).
Proof.
  intros Hc Hs. unfold audit_report, audit_categorization, audit.
  rewrite audit_engine_spec, Hc. cbn [bind]. rewrite Hs. cbn [bind].
  set (final := dedup (mismatches_spec lower rules items)).
  assert (Hnames : forall name, In name (map item final) <->
            exists cat, In (cat, PyStr name) items /\
                        misfiled lower rules cat name).
  { intros name. unfold final. rewrite dedup_names. apply flagged_names. }
  exists final. split; [reflexivity |]. split; [apply NoDup_dedup |].
  split; [exact Hnames |]. split.
  - destruct final as [| m l] eqn:E; [now right |]. left.
    unfold mismatch_report. rewrite length_app, length_report_blocks,
      length_firstn. cbn [length]. lia.
  - split.
    + intros Hrep cat name Hin Hmis.
      assert (Hn : In name (map item final)) by (apply Hnames; now exists cat).
      destruct final as [| m l]; [destruct Hn |].
      cbn in Hrep. discriminate.
    + intros Hnone. destruct final as [| m l]; [reflexivity |]. exfalso.
      destruct (proj1 (Hnames (item m)) (or_introl eq_refl))
        as (cat & Hin & Hmis).
      exact (Hnone cat (item m) Hin Hmis).
Qed.

Lemma report_counts_distinct_names_witness :
  exists final,
    audit_report ascii_lower sample_products = Ok (mismatch_report final) /\
    NoDup (map item final) /\
    (forall name, In name (map item final) <->
       exists cat,
         In (cat, PyStr name)
            [(PyStr "Bakery, Cakes & Dairy", PyStr "Green Tea");
             (PyStr "Bakery, Cakes & Dairy", PyStr "Choco Cake");
             (PyStr "Bakery, Cakes & Dairy", PyStr "Wooden Spoon");
             (PyStr "beverages", PyStr "Green Tea");
             (PyNone, PyStr "Olive Oil")] /\
         misfiled ascii_lower rules cat name).
Proof.
  destruct (report_counts_distinct_names ascii_lower sample_products _
              eq_refl eq_refl) as (final & H1 & H2 & H3 & _).
  exists final. split; [exact H1 | split; [exact H2 | exact H3]].
Defined.

(** * Properties of scripts/fetch_real_data.py *)

Lemma substring_0_app u v : substring 0 (String.length u) (u ++ v) = u.
Proof.
  induction u as [| c u IH]; cbn.
  - now destruct v.
  - now rewrite IH.
Qed.

Lemma length_append u v :
  String.length (u ++ v) = (String.length u + String.length v)%nat.
Proof. induction u as [| c u IH]; cbn; [reflexivity | now rewrite IH]. Qed.

Lemma ends_with_quote_snoc u :
  ends_with_quote (u ++ String dquote EmptyString) = true.
Proof.
  induction u as [| c u IH]; [reflexivity |].
  cbn [append ends_with_quote]. rewrite IH.
  destruct (u ++ String dquote EmptyString)%string eqn:E; [| reflexivity].
  now destruct u.
Qed.

Lemma slice_quoted u :
  slice_1_m1 (String dquote (u ++ String dquote EmptyString)) = u.
Proof.
  unfold slice_1_m1. cbn [String.length substring].
  rewrite length_append. cbn [String.length].
  replace (S (String.length u + 1) - 2)%nat with (String.length u) by lia.
  apply substring_0_app.
Qed.

Section FetchFacts.

Variable strip : string -> string.
Variable Price : Type.
Variable pricing : row -> Price.

(** X9.  [clean_name] removes one pair of enclosing double quotes from
    the stripped name and no more: a quoted text comes back as the text
    between the quotes, even when that text is itself quoted or padded
    with blanks; a name that is a lone double quote comes back empty;
    any other name comes back stripped.  [None] raises AttributeError. *)
Theorem clean_name_cases (s : string) :
  (forall u, strip s = String dquote (u ++ String dquote EmptyString) ->
             clean_name strip (PyStr s) = Ok u) /\
  (strip s = String dquote EmptyString ->
   clean_name strip (PyStr s) = Ok EmptyString) /\
  (starts_with_quote (strip s) = false \/ ends_with_quote (strip s) = false ->
   clean_name strip (PyStr s) = Ok (strip s)) /\
  clean_name strip PyNone = Raise AttributeError.
Proof.
  unfold clean_name. repeat split.
  - intros u ->. cbn [starts_with_quote]. rewrite Ascii.eqb_refl.
    change (ends_with_quote (String dquote (u ++ String dquote EmptyString)))
      with (ends_with_quote ((String dquote u) ++ String dquote EmptyString)).
    rewrite ends_with_quote_snoc. cbn [andb]. now rewrite slice_quoted.
  - intros ->. reflexivity.
  - intros [-> | ->]; [reflexivity | now rewrite andb_false_r].
Qed.

Lemma collect_invariant rows : forall products seen ps,
  collect_products strip Price pricing rows products seen = Ok ps ->
  (length products <= 1500)%nat ->
  (forall x, In x seen <-> In x (map p_name products)) ->
  NoDup (map p_name products) ->
  (length ps <= 1500)%nat /\ NoDup (map p_name ps).
Proof.
  induction rows as [| row rows IH]; intros products seen ps H Hlen Hseen Hnd;
    cbn [collect_products] in H.
  - injection H as <-. now split.
  - destruct (1500 <=? length products)%nat eqn:Hcap;
      [injection H as <-; now split |].
    apply Nat.leb_gt in Hcap.
    destruct (clean_name strip (row_get row "product" (PyStr ""))) as [name |];
      [| discriminate].
    destruct (clean_name strip (row_get row "brand" (PyStr ""))) as [brand |];
      [| discriminate].
    destruct (clean_name strip (row_get row "category" (PyStr ""))) as [cat |];
      [| discriminate].
    cbn [bind] in H.
    destruct (existsb (String.eqb (brand ++ " " ++ name)) seen) eqn:Hdup.
    + now apply (IH _ _ _ H).
    + apply (IH _ _ _ H).
      * rewrite length_app. cbn [length]. lia.
      * intros x. rewrite map_app, in_app_iff. cbn [In map p_name].
        rewrite Hseen. tauto.
      * rewrite map_app. cbn [map p_name].
        apply Permutation_NoDup with (l := (brand ++ " " ++ name)%string
                                           :: map p_name products).
        -- apply Permutation_cons_append.
        -- constructor; [| exact Hnd]. intros Hin. apply Hseen in Hin.
           apply existsb_string_eqb in Hin. congruence.
Qed.

(** X10.  The list that is saved has at most 1500 products and no two
    of them have the same full name. *)
Theorem fetch_cap_and_distinct (rows : list row) (ps : list (Product Price)) :
  fetch_products strip Price pricing rows = Ok ps ->
  (length ps <= 1500)%nat /\ NoDup (map p_name ps).
Proof.
  intros H. apply (collect_invariant rows [] [] ps H).
  - cbn. lia.
  - reflexivity.
  - constructor.
Qed.

Lemma collect_after_cap rows more : forall products seen ps,
  collect_products strip Price pricing rows products seen = Ok ps ->
  (1500 <= length ps)%nat ->
  collect_products strip Price pricing (rows ++ more) products seen = Ok ps.
Proof.
  induction rows as [| row rows IH]; intros products seen ps H Hlen;
    cbn [collect_products app] in *.
  - injection H as <-. destruct more as [| r more]; [reflexivity |].
    cbn [collect_products]. apply Nat.leb_le in Hlen. now rewrite Hlen.
  - destruct (1500 <=? length products)%nat; [exact H |].
    destruct (clean_name strip (row_get row "product" (PyStr ""))) as [name |];
      [| discriminate].
    destruct (clean_name strip (row_get row "brand" (PyStr ""))) as [brand |];
      [| discriminate].
    destruct (clean_name strip (row_get row "category" (PyStr ""))) as [cat |];
      [| discriminate].
    cbn [bind] in *.
    destruct (existsb (String.eqb (brand ++ " " ++ name)) seen);
      now apply IH.
Qed.

Lemma collect_provenance rows : forall products seen ps p,
  collect_products strip Price pricing rows products seen = Ok ps ->
  In p ps ->
  In p products \/
  (~ In (p_name p) seen /\
   exists before row after name brand category,
     rows = before ++ row :: after /\
     (forall r, In r before ->
        full_name_of strip r <> Ok (p_name p)) /\
     clean_name strip (row_get row "product" (PyStr "")) = Ok name /\
     clean_name strip (row_get row "brand" (PyStr "")) = Ok brand /\
     clean_name strip (row_get row "category" (PyStr "")) = Ok category /\
     p = mkProduct (brand ++ " " ++ name)
           (if pyval_eqb (row_get row "sub_category" (PyStr ""))
                         (PyStr "Health & Medicine")
            then "Health & Wellness" else category)
           (row_get row "sub_category" (PyStr "")) brand (pricing row)).
Proof.
  induction rows as [| row rows IH]; intros products seen ps p H Hp;
    cbn [collect_products] in H.
  - injection H as <-. now left.
  - destruct (1500 <=? length products)%nat;
      [injection H as <-; now left |].
    destruct (clean_name strip (row_get row "product" (PyStr "")))
      as [name |] eqn:Hn; [| discriminate].
    destruct (clean_name strip (row_get row "brand" (PyStr "")))
      as [brand |] eqn:Hb; [| discriminate].
    destruct (clean_name strip (row_get row "category" (PyStr "")))
      as [cat |] eqn:Hc; [| discriminate].
    cbn [bind] in H.
    assert (Hfull : full_name_of strip row = Ok (brand ++ " " ++ name)%string)
      by (unfold full_name_of; now rewrite Hn, Hb, Hc).
    destruct (existsb (String.eqb (brand ++ " " ++ name)) seen) eqn:Hdup.
    + apply existsb_string_eqb in Hdup.
      destruct (IH _ _ _ _ H Hp)
        as [Hin | (Hfresh & before & r & after & n & b & c & -> & Hbef & Rest)];
        [now left | right].
      split; [exact Hfresh |].
      exists (row :: before), r, after, n, b, c. split; [reflexivity |].
      split; [| exact Rest].
      intros q [<- | Hq]; [| now apply Hbef].
      rewrite Hfull. intros [= E]. apply Hfresh. rewrite <- E. exact Hdup.
    + assert (Hnew : ~ In (brand ++ " " ++ name)%string seen).
      { intros Hin. apply existsb_string_eqb in Hin. congruence. }
      destruct (IH _ _ _ _ H Hp)
        as [Hin | (Hfresh & before & r & after & n & b & c & -> & Hbef & Rest)].
      * apply in_app_or in Hin as [Hin | [<- | []]]; [now left | right].
        cbn [p_name]. split; [exact Hnew |].
        exists [], row, rows, name, brand, cat.
        split; [reflexivity |]. split; [intros r [] |].
        repeat split; try assumption.
        destruct (pyval_eqb (row_get row "sub_category" (PyStr ""))
                            (PyStr "Health & Medicine")); cbn [orb];
          [reflexivity |].
        now destruct (String.eqb cat "Baby Care").
      * right. cbn [In] in Hfresh. split; [tauto |].
        exists (row :: before), r, after, n, b, c. split; [reflexivity |].
        split; [| exact Rest].
        intros q [<- | Hq]; [| now apply Hbef].
        rewrite Hfull. intros [= E]. apply Hfresh. left. exact E.
Qed.

(** X12.  Every saved product is built from the first row that carries
    its full name, which is the cleaned brand, a space and the cleaned
    product name.  Its category is "Health & Wellness" when the row's
    sub-category is "Health & Medicine" and the cleaned category of the
    row otherwise: a "Baby Care" category by itself changes nothing. *)
Theorem fetch_product_provenance (rows : list row) (ps : list (Product Price))
        (p : Product Price) :
  fetch_products strip Price pricing rows = Ok ps ->
  In p ps ->
  exists before row after name brand category,
    rows = before ++ row :: after /\
    (forall r, In r before -> full_name_of strip r <> Ok (p_name p)) /\
    clean_name strip (row_get row "product" (PyStr "")) = Ok name /\
    clean_name strip (row_get row "brand" (PyStr "")) = Ok brand /\
    clean_name strip (row_get row "category" (PyStr "")) = Ok category /\
    p_name p = (brand ++ " " ++ name)%string /\
    p_brand p = brand /\
    p_sub_category p = row_get row "sub_category" (PyStr "") /\
    p_price p = pricing row /\
    p_category p =
      if pyval_eqb (row_get row "sub_category" (PyStr ""))
                   (PyStr "Health & Medicine")
      then "Health & Wellness" else category.
Proof.
  intros H Hp.
  destruct (collect_provenance rows [] [] ps p H Hp)
    as [[] | (_ & before & row & after & n & b & c & E & Hbef & Hn & Hb & Hc & ->)].
  exists before, row, after, n, b, c. now repeat split.
Qed.

Lemma collect_below_cap rows : forall products seen ps,
  collect_products strip Price pricing rows products seen = Ok ps ->
  (length ps < 1500)%nat ->
  (forall x, In x seen -> In x (map p_name products)) ->
  (forall x, In x (map p_name products) -> In x (map p_name ps)) /\
  forall r, In r rows ->
    exists n, full_name_of strip r = Ok n /\ In n (map p_name ps).
Proof.
  induction rows as [| row rows IH]; intros products seen ps H Hlen Hseen;
    cbn [collect_products] in H.
  - injection H as <-. split; [auto | intros r []].
  - destruct (1500 <=? length products)%nat eqn:Hcap.
    { injection H as <-. apply Nat.leb_le in Hcap. lia. }
    destruct (clean_name strip (row_get row "product" (PyStr "")))
      as [name |] eqn:Hn; [| discriminate].
    destruct (clean_name strip (row_get row "brand" (PyStr "")))
      as [brand |] eqn:Hb; [| discriminate].
    destruct (clean_name strip (row_get row "category" (PyStr "")))
      as [cat |] eqn:Hc; [| discriminate].
    cbn [bind] in H.
    assert (Hfull : full_name_of strip row = Ok (brand ++ " " ++ name)%string)
      by (unfold full_name_of; now rewrite Hn, Hb, Hc).
    destruct (existsb (String.eqb (brand ++ " " ++ name)) seen) eqn:Hdup.
    + destruct (IH _ _ _ H Hlen Hseen) as [Hkeep Hall].
      split; [exact Hkeep |].
      intros r [<- | Hr]; [| now apply Hall].
      exists (brand ++ " " ++ name)%string. split; [exact Hfull |].
      apply Hkeep, Hseen. now apply existsb_string_eqb.
    + destruct (IH _ _ _ H Hlen) as [Hkeep Hall].
      { intros x [<- | Hx]; rewrite map_app, in_app_iff;
          [right; now left | left; now apply Hseen]. }
      split.
      * intros x Hx. apply Hkeep. rewrite map_app, in_app_iff. now left.
      * intros r [<- | Hr]; [| now apply Hall].
        exists (brand ++ " " ++ name)%string. split; [exact Hfull |].
        apply Hkeep. rewrite map_app, in_app_iff. right. now left.
Qed.

(** X13.  A run that saves fewer than 1500 products has read every
    row: each row has a product, a brand and a category cell that is
    not [None], and its full name is among the saved products.  A short
    row met before the cap therefore fails the whole run. *)
Theorem fetch_below_cap_complete (rows : list row) (ps : list (Product Price)) :
  fetch_products strip Price pricing rows = Ok ps ->
  (length ps < 1500)%nat ->
  forall r, In r rows ->
    exists n, full_name_of strip r = Ok n /\ In n (map p_name ps).
Proof.
  intros H Hlen. apply (collect_below_cap rows [] [] ps H Hlen).
  intros x [].
Qed.

End FetchFacts.

Lemma clean_name_cases_witness :
  clean_name ascii_strip
    (PyStr (" " ++ String dquote ("Green Tea" ++ String dquote " "))) =
  Ok "Green Tea".
Proof.
  exact (proj1 (clean_name_cases ascii_strip
                  (" " ++ String dquote ("Green Tea" ++ String dquote " ")))
               "Green Tea" eq_refl).
Defined.

Lemma fetch_cap_and_distinct_witness :
  (length [mkProduct "Tata Green Tea" "Beverages" (PyStr "Tea") "Tata" tt;
           mkProduct "Dabur Cough Syrup" "Health & Wellness"
                     (PyStr "Health & Medicine") "Dabur" tt;
           mkProduct "Huggies Diapers" "Baby Care" (PyStr "Diapers & Wipes")
                     "Huggies" tt] <= 1500)%nat /\
  NoDup ["Tata Green Tea"; "Dabur Cough Syrup"; "Huggies Diapers"].
Proof.
  exact (fetch_cap_and_distinct ascii_strip unit (fun _ => tt) fetch_sample
           _ eq_refl).
Defined.

Lemma fetch_product_provenance_witness :
  exists before row after name brand category,
    fetch_sample = before ++ row :: after /\
    (forall r, In r before ->
       full_name_of ascii_strip r <> Ok "Dabur Cough Syrup") /\
    clean_name ascii_strip (row_get row "product" (PyStr "")) = Ok name /\
    clean_name ascii_strip (row_get row "brand" (PyStr "")) = Ok brand /\
    clean_name ascii_strip (row_get row "category" (PyStr "")) = Ok category /\
    "Dabur Cough Syrup" = (brand ++ " " ++ name)%string /\
    "Dabur" = brand /\
    PyStr "Health & Medicine" = row_get row "sub_category" (PyStr "") /\
    tt = tt /\
    "Health & Wellness" =
      if pyval_eqb (row_get row "sub_category" (PyStr ""))
                   (PyStr "Health & Medicine")
      then "Health & Wellness" else category.
Proof.
  exact (fetch_product_provenance ascii_strip unit (fun _ => tt) fetch_sample _
           (mkProduct "Dabur Cough Syrup" "Health & Wellness"
                      (PyStr "Health & Medicine") "Dabur" tt)
           eq_refl (or_intror (or_introl eq_refl))).
Defined.

Lemma fetch_below_cap_complete_witness :
  exists n,
    full_name_of ascii_strip
      [("product", PyStr "Green Tea"); ("brand", PyStr "Tata");
       ("category", PyStr "Gourmet & World Food");
       ("sub_category", PyStr "Tea")] = Ok n /\
    In n ["Tata Green Tea"; "Dabur Cough Syrup"; "Huggies Diapers"].
Proof.
  refine (fetch_below_cap_complete ascii_strip unit (fun _ => tt) fetch_sample
            _ eq_refl _ _ (or_intror (or_intror (or_introl eq_refl)))).
  cbn. lia.
Defined.

(** ** The reader and the cap *)

Section ReaderFacts.

Variable strip : string -> string.
Variable Price : Type.
Variable pricing : row -> Price.

(** Over lines that all parse, the loop over the reader is the loop over
    the rows. *)
Lemma read_parsed rows : forall products seen,
  read_products strip Price pricing (map Some rows) products seen =
  match collect_products strip Price pricing rows products seen with
  | Ok ps => Saved ps
  | Raise e => Failed e
  end.
Proof.
  induction rows as [| row rows IH]; intros products seen;
    cbn [map read_products collect_products]; [reflexivity |].
  destruct (1500 <=? length products)%nat; [reflexivity |].
  destruct (clean_name strip (row_get row "product" (PyStr ""))) as [name |];
    [| reflexivity].
  destruct (clean_name strip (row_get row "brand" (PyStr ""))) as [brand |];
    [| reflexivity].
  destruct (clean_name strip (row_get row "category" (PyStr ""))) as [cat |];
    [| reflexivity].
  cbn [bind].
  destruct (existsb (String.eqb (brand ++ " " ++ name)) seen); apply IH.
Qed.

Lemma read_after_cap rows row more : forall products seen ps,
  collect_products strip Price pricing rows products seen = Ok ps ->
  (1500 <= length ps)%nat ->
  read_products strip Price pricing (map Some rows ++ Some row :: more)
                products seen = Saved ps.
Proof.
  induction rows as [| r rows IH]; intros products seen ps H Hlen;
    cbn [map app read_products collect_products] in *.
  - injection H as <-. apply Nat.leb_le in Hlen. now rewrite Hlen.
  - destruct (1500 <=? length products)%nat; [now injection H as <- |].
    destruct (clean_name strip (row_get r "product" (PyStr ""))) as [name |];
      [| discriminate].
    destruct (clean_name strip (row_get r "brand" (PyStr ""))) as [brand |];
      [| discriminate].
    destruct (clean_name strip (row_get r "category" (PyStr ""))) as [cat |];
      [| discriminate].
    cbn [bind] in *.
    destruct (existsb (String.eqb (brand ++ " " ++ name)) seen);
      now apply IH.
Qed.

Lemma read_failure_after_last front last more : forall products seen ps0 ps,
  collect_products strip Price pricing front products seen = Ok ps0 ->
  (length ps0 < 1500)%nat ->
  collect_products strip Price pricing (front ++ [last]) products seen = Ok ps ->
  read_products strip Price pricing
                (map Some (front ++ [last]) ++ None :: more) products seen =
  CsvError.
Proof.
  induction front as [| r front IH]; intros products seen ps0 ps H0 Hlen H;
    cbn [map app read_products collect_products] in *.
  - injection H0 as <-. apply Nat.leb_gt in Hlen. rewrite Hlen in *.
    destruct (clean_name strip (row_get last "product" (PyStr ""))) as [name |];
      [| discriminate].
    destruct (clean_name strip (row_get last "brand" (PyStr ""))) as [brand |];
      [| discriminate].
    destruct (clean_name strip (row_get last "category" (PyStr ""))) as [cat |];
      [| discriminate].
    cbn [bind] in *.
    destruct (existsb (String.eqb (brand ++ " " ++ name)) seen); reflexivity.
  - destruct (1500 <=? length products)%nat eqn:Hcap;
      [injection H0 as <-; apply Nat.leb_le in Hcap; lia |].
    destruct (clean_name strip (row_get r "product" (PyStr ""))) as [name |];
      [| discriminate].
    destruct (clean_name strip (row_get r "brand" (PyStr ""))) as [brand |];
      [| discriminate].
    destruct (clean_name strip (row_get r "category" (PyStr ""))) as [cat |];
      [| discriminate].
    cbn [bind] in *.
    destruct (existsb (String.eqb (brand ++ " " ++ name)) seen);
      now apply (IH _ _ ps0 ps).
Qed.

(** X11.  The cap is tested after the reader has been asked for the next
    row.  When a run over parsed rows has collected 1500 products and
    the reader gives one more row, that row and whatever follows it,
    parsed or not, are ignored and the same list is saved.  But when the
    1500th product comes from the last row and the reader fails on the
    next line, the run ends in [csv.Error] and nothing is saved. *)
Theorem fetch_stops_at_cap (rows : list row) (ps : list (Product Price)) :
  fetch_products strip Price pricing rows = Ok ps ->
  length ps = 1500%nat ->
  (forall row more,
     fetch_from_reader strip Price pricing (map Some rows ++ Some row :: more)
     = Saved ps) /\
  (forall front last ps0 more,
     rows = front ++ [last] ->
     fetch_products strip Price pricing front = Ok ps0 ->
     (length ps0 < 1500)%nat ->
     fetch_from_reader strip Price pricing (map Some rows ++ None :: more)
     = CsvError).
Proof.
  intros H Hlen. split.
  - intros row more. apply read_after_cap; [exact H | lia].
  - intros front last ps0 more -> H0 Hlt.
    now apply (read_failure_after_last front last more [] [] ps0 ps).
Qed.

End ReaderFacts.

Lemma fetch_stops_at_cap_witness :
  fetch_from_reader ascii_strip unit (fun _ => tt)
    (map Some (numbered_rows 1500)
     ++ Some [("product", PyNone)] :: [None]) =
  Saved (numbered_products 1500) /\
  fetch_from_reader ascii_strip unit (fun _ => tt)
    (map Some (numbered_rows 1500) ++ [None]) = CsvError.
Proof.
  assert (H : fetch_products ascii_strip unit (fun _ => tt)
                (numbered_rows 1500) = Ok (numbered_products 1500))
    by (vm_compute; reflexivity).
  assert (Hlen : length (numbered_products 1500) = 1500%nat)
    by (vm_compute; reflexivity).
  destruct (fetch_stops_at_cap ascii_strip unit (fun _ => tt)
              (numbered_rows 1500) (numbered_products 1500) H Hlen)
    as [Hnext Hfail].
  split; [apply Hnext |].
  apply (Hfail (numbered_rows 1499)
               [("product", PyStr (str_of_nat 1499)); ("brand", PyStr "B");
                ("category", PyStr "C")]
               (numbered_products 1499) []).
  - vm_compute. reflexivity.
  - vm_compute. reflexivity.
  - vm_compute. lia.
Defined.

(** * Properties of scripts/remediate_db.py *)

Lemma for_each_snoc {A S} (body : S -> A -> res S) l x s :
  for_each body (l ++ [x]) s = (s' <- for_each body l s ;; body s' x).
Proof.
  revert s. induction l as [| a l IH]; intros s; cbn [app for_each bind].
  - now destruct (body s x).
  - destruct (body s a); cbn [bind]; [apply IH | reflexivity].
Qed.

Lemma dict_lookup_set {V} k k' (v : V) d :
  dict_lookup k (dict_set k' v d) =
  if pyval_eqb k' k then Some v else dict_lookup k d.
Proof.
  induction d as [| [k0 w] d IH]; cbn [dict_set dict_lookup]; [reflexivity |].
  destruct (pyval_eqb_spec k0 k') as [-> | Hne]; cbn [dict_lookup].
  - now destruct (pyval_eqb k' k).
  - rewrite IH. destruct (pyval_eqb_spec k0 k) as [-> | _]; [| reflexivity].
    destruct (pyval_eqb_spec k' k); [congruence | reflexivity].
Qed.

Lemma dict_mem_lookup {V} k (d : dict V) :
  dict_mem k d = match dict_lookup k d with Some _ => true | None => false end.
Proof.
  unfold dict_mem. induction d as [| [k0 w] d IH]; cbn [existsb dict_lookup fst];
    [reflexivity |].
  destruct (pyval_eqb k0 k); [reflexivity | exact IH].
Qed.

Lemma last_category_snoc l p n c0 name c :
  row_lookup p "name" = Some n ->
  row_lookup p "category" = Some c0 ->
  last_category (l ++ [p]) name c <->
  (n = name /\ c = c0) \/ (n <> name /\ last_category l name c).
Proof.
  intros Hn Hc0. unfold last_category. split.
  - intros (before & q & after & E & Hqn & Hqc & Hafter).
    destruct after as [| y after] using rev_ind.
    + apply app_inj_tail in E as [_ <-]. left. split; congruence.
    + clear IHafter. rewrite app_comm_cons, app_assoc in E.
      apply app_inj_tail in E as [-> <-]. right. split.
      * intros ->. apply (Hafter p); [apply in_or_app; right; now left | exact Hn].
      * exists before, q, after. repeat split; try assumption.
        intros r Hr. apply Hafter, in_or_app. now left.
  - intros [[<- ->] | (Hne & before & q & after & -> & Hqn & Hqc & Hafter)].
    + exists l, p, []. repeat split; try assumption. intros q [].
    + exists before, q, (after ++ [p]). rewrite <- app_assoc. cbn [app].
      repeat split; try assumption.
      intros r Hr. apply in_app_or in Hr as [Hr | [<- | []]];
        [now apply Hafter | congruence].
Qed.

Lemma build_name_to_cat_spec real_products : forall d,
  build_name_to_cat real_products = Ok d ->
  forall name c, dict_lookup name d = Some c <->
                 last_category real_products name c.
Proof.
  unfold build_name_to_cat.
  induction real_products as [| p l IH] using rev_ind; intros d H name c.
  - injection H as <-. cbn. split; [discriminate |].
    intros (before & q & after & E & _). now destruct before.
  - rewrite for_each_snoc in H.
    destruct (for_each name_to_cat_step l []) as [d0 |]; [| discriminate].
    cbn [bind] in H. unfold name_to_cat_step, row_getitem in H.
    destruct (row_lookup p "name") as [n |] eqn:Hn; [| discriminate].
    destruct (row_lookup p "category") as [c0 |] eqn:Hc0; [| discriminate].
    cbn [bind] in H. injection H as <-.
    rewrite dict_lookup_set, (last_category_snoc l p n c0 name c Hn Hc0).
    rewrite <- (IH d0 eq_refl).
    destruct (pyval_eqb_spec n name) as [-> | Hne].
    + split; [intros [= <-]; now left |].
      intros [[_ ->] | [Hne _]]; [reflexivity | congruence].
    + split; [intros H; now right |].
      intros [[E _] | [_ H]]; [congruence | exact H].
Qed.

Lemma remediate_step_eq d T n r :
  remediate_step d (T, n)
    (store_item_id r, normalized_product_name r, master_category_name r) =
  match dict_lookup (normalized_product_name r) d with
  | Some new_cat =>
      if negb (pyval_eqb new_cat (master_category_name r))
      then (update_category new_cat (store_item_id r) T, (n + 1)%Z)
      else (T, n)
  | None => (T, n)
  end.
Proof.
  unfold remediate_step. rewrite dict_mem_lookup.
  now destruct (dict_lookup (normalized_product_name r) d).
Qed.

Lemma demo_row_unique table r r' :
  NoDup (demo_ids table) ->
  In r (filter (fun r => String.eqb (store_id r) "demo-store") table) ->
  In r' (filter (fun r => String.eqb (store_id r) "demo-store") table) ->
  store_item_id r = store_item_id r' -> r = r'.
Proof.
  unfold demo_ids.
  induction (filter (fun r => String.eqb (store_id r) "demo-store") table)
    as [| a l IH]; intros Hnd Hr Hr' E; [destruct Hr |].
  cbn [map] in Hnd. inversion Hnd as [| ? ? Ha Hl]; subst.
  destruct Hr as [-> | Hr], Hr' as [-> | Hr'].
  - reflexivity.
  - elim Ha. rewrite E. now apply in_map.
  - elim Ha. rewrite <- E. now apply in_map.
  - now apply IH.
Qed.

Lemma remediated_unchanged d r :
  changed d r = false -> remediated d r = r.
Proof.
  unfold changed, remediated.
  destruct (String.eqb (store_id r) "demo-store"); [| reflexivity].
  destruct (dict_lookup (normalized_product_name r) d) as [new |];
    [| reflexivity].
  cbn [andb]. destruct (pyval_eqb_spec new (master_category_name r));
    [| discriminate].
  subst. now destruct r.
Qed.

Lemma remediated_fields d r :
  store_id (remediated d r) = store_id r /\
  store_item_id (remediated d r) = store_item_id r /\
  normalized_product_name (remediated d r) = normalized_product_name r.
Proof.
  unfold remediated. destruct (String.eqb (store_id r) "demo-store");
    [| now repeat split].
  destruct (dict_lookup (normalized_product_name r) d); now repeat split.
Qed.

Lemma partly_step d table ids r0 :
  NoDup (demo_ids table) ->
  In r0 (filter (fun r => String.eqb (store_id r) "demo-store") table) ->
  ~ In (store_item_id r0) ids ->
  map (fun r =>
         if String.eqb (store_id (partly_remediated d ids r)) "demo-store"
            && String.eqb (store_item_id (partly_remediated d ids r))
                          (store_item_id r0)
         then remediated d r0 else partly_remediated d ids r) table =
  map (partly_remediated d (ids ++ [store_item_id r0])) table.
Proof.
  intros Hnd Hr0 Hfresh. apply map_ext_in. intros r Hr.
  assert (Hf : store_id (partly_remediated d ids r) = store_id r /\
               store_item_id (partly_remediated d ids r) = store_item_id r).
  { unfold partly_remediated.
    destruct (String.eqb (store_id r) "demo-store"
              && existsb (String.eqb (store_item_id r)) ids); [| now split].
    destruct (remediated_fields d r) as (H1 & H2 & _). now split. }
  destruct Hf as [-> ->]. unfold partly_remediated.
  rewrite existsb_app. cbn [existsb]. rewrite orb_false_r.
  destruct (String.eqb (store_id r) "demo-store") eqn:Hdemo; cbn [andb];
    [| reflexivity].
  destruct (String.eqb_spec (store_item_id r) (store_item_id r0)) as [E | Hne].
  - assert (r = r0) as ->.
    { apply (demo_row_unique table); try assumption.
      apply filter_In. now split. }
    now rewrite orb_true_r.
  - now rewrite orb_false_r.
Qed.

Lemma update_category_remediated d new r0 T :
  dict_lookup (normalized_product_name r0) d = Some new ->
  String.eqb (store_id r0) "demo-store" = true ->
  (forall r, In r T ->
     String.eqb (store_id r) "demo-store"
     && String.eqb (store_item_id r) (store_item_id r0) = true ->
     normalized_product_name r = normalized_product_name r0 /\
     store_id r = store_id r0 /\ store_item_id r = store_item_id r0) ->
  update_category new (store_item_id r0) T =
  map (fun r =>
         if String.eqb (store_id r) "demo-store"
            && String.eqb (store_item_id r) (store_item_id r0)
         then remediated d r0 else r) T.
Proof.
  intros Hl Hdemo Hsame. unfold update_category. apply map_ext_in.
  intros r Hr.
  destruct (String.eqb (store_id r) "demo-store"
            && String.eqb (store_item_id r) (store_item_id r0)) eqn:E;
    [| reflexivity].
  destruct (Hsame r Hr E) as (-> & -> & ->).
  unfold remediated. now rewrite Hdemo, Hl.
Qed.

Lemma remediate_fold d table :
  NoDup (demo_ids table) ->
  forall todo done,
    filter (fun r => String.eqb (store_id r) "demo-store") table = done ++ todo ->
    fold_left (remediate_step d)
      (map (fun r => (store_item_id r, normalized_product_name r,
                      master_category_name r)) todo)
      (map (partly_remediated d (map store_item_id done)) table,
       Z.of_nat (length (filter (changed d) done))) =
    (map (remediated d) table,
     Z.of_nat (length (filter (changed d)
        (filter (fun r => String.eqb (store_id r) "demo-store") table)))).
Proof.
  intros Hnd. induction todo as [| r0 todo IH]; intros done E.
  - rewrite app_nil_r in E. subst done. cbn [map fold_left]. f_equal.
    apply map_ext_in. intros r Hr. unfold partly_remediated.
    destruct (String.eqb (store_id r) "demo-store") eqn:Hdemo; cbn [andb].
    + replace (existsb (String.eqb (store_item_id r)) _) with true;
        [reflexivity |].
      symmetry. apply existsb_string_eqb, in_map, filter_In. now split.
    + unfold remediated. now rewrite Hdemo.
  - assert (Hr0 : In r0 (filter (fun r => String.eqb (store_id r) "demo-store")
                                table)) by (rewrite E; apply in_elt).
    assert (Hdemo : String.eqb (store_id r0) "demo-store" = true)
      by (now apply filter_In in Hr0).
    assert (Hfresh : ~ In (store_item_id r0) (map store_item_id done)).
    { unfold demo_ids in Hnd. rewrite E, map_app in Hnd. cbn [map] in Hnd.
      apply NoDup_remove_2 in Hnd. intros H. apply Hnd, in_or_app. now left. }
    cbn [map fold_left]. rewrite remediate_step_eq.
    specialize (IH (done ++ [r0])). rewrite <- app_assoc in IH.
    specialize (IH E). rewrite map_app, filter_app, length_app in IH.
    cbn [map filter] in IH.
    rewrite <- (partly_step d table _ r0 Hnd Hr0 Hfresh) in IH.
    assert (Hch : changed d r0 =
                  match dict_lookup (normalized_product_name r0) d with
                  | Some new => negb (pyval_eqb new (master_category_name r0))
                  | None => false
                  end) by (unfold changed; now rewrite Hdemo).
    assert (Hkeep : changed d r0 = false ->
              map (fun r =>
                if String.eqb (store_id (partly_remediated d (map store_item_id done) r)) "demo-store"
                   && String.eqb (store_item_id (partly_remediated d (map store_item_id done) r))
                                 (store_item_id r0)
                then remediated d r0
                else partly_remediated d (map store_item_id done) r) table =
              map (partly_remediated d (map store_item_id done)) table).
    { intros Hc. apply map_ext_in. intros r Hr.
      destruct (String.eqb (store_id _) "demo-store" && _) eqn:Ecase;
        [| reflexivity].
      rewrite (remediated_unchanged d r0 Hc).
      apply andb_prop in Ecase as [E1 E2]. apply String.eqb_eq in E2.
      assert (Hparts : store_id (partly_remediated d (map store_item_id done) r)
                       = store_id r /\
                       store_item_id (partly_remediated d (map store_item_id done) r)
                       = store_item_id r).
      { unfold partly_remediated.
        destruct (String.eqb (store_id r) "demo-store" && _); [| now split].
        destruct (remediated_fields d r) as (H1 & H2 & _). now split. }
      destruct Hparts as [P1 P2]. rewrite P1 in E1. rewrite P2 in E2.
      assert (r = r0) as ->.
      { apply (demo_row_unique table); try assumption.
        apply filter_In. now split. }
      unfold partly_remediated. rewrite Hdemo. cbn [andb].
      replace (existsb (String.eqb (store_item_id r0)) (map store_item_id done))
        with false; [reflexivity |].
      symmetry. apply not_true_is_false. intros H.
      now apply existsb_string_eqb in H. }
    destruct (dict_lookup (normalized_product_name r0) d) as [new |] eqn:Hl.
    + destruct (pyval_eqb new (master_category_name r0)) eqn:Hsame;
        cbn [negb] in Hch |- *.
      * rewrite Hch in IH. rewrite (Hkeep Hch) in IH. cbn [length] in IH.
        rewrite Nat.add_0_r in IH. exact IH.
      * rewrite Hch in IH. cbn [length] in IH.
        rewrite (update_category_remediated d new r0 _ Hl Hdemo).
        -- rewrite map_map.
           replace (Z.of_nat (length (filter (changed d) done)) + 1)%Z
             with (Z.of_nat (length (filter (changed d) done) + 1))
             by lia.
           exact IH.
        -- intros r Hr Ecase. apply in_map_iff in Hr as (r1 & <- & Hr1).
           apply andb_prop in Ecase as [E1 E2]. apply String.eqb_eq in E2.
           assert (Hparts :
                     store_id (partly_remediated d (map store_item_id done) r1)
                     = store_id r1 /\
                     store_item_id (partly_remediated d (map store_item_id done) r1)
                     = store_item_id r1 /\
                     normalized_product_name
                       (partly_remediated d (map store_item_id done) r1)
                     = normalized_product_name r1).
           { unfold partly_remediated.
             destruct (String.eqb (store_id r1) "demo-store" && _);
               [apply remediated_fields | now repeat split]. }
           destruct Hparts as (P1 & P2 & P3).
           rewrite P1 in E1 |- *. rewrite P2 in E2 |- *. rewrite P3.
           assert (r1 = r0) as ->.
           { apply (demo_row_unique table); try assumption.
             apply filter_In. now split. }
           now repeat split.
    + rewrite Hch in IH. rewrite (Hkeep Hch) in IH. cbn [length] in IH.
      rewrite Nat.add_0_r in IH. exact IH.
Qed.

Lemma for_each_app {A S} (body : S -> A -> res S) l l' s :
  for_each body (l ++ l') s = (s' <- for_each body l s ;; for_each body l' s').
Proof.
  revert s. induction l as [| a l IH]; intros s; cbn [app for_each bind];
    [reflexivity |].
  destruct (body s a); cbn [bind]; [apply IH | reflexivity].
Qed.

Lemma name_to_cat_total l : forall d0,
  (forall p, In p l ->
     row_lookup p "name" <> None /\ row_lookup p "category" <> None) ->
  exists d, for_each name_to_cat_step l d0 = Ok d.
Proof.
  induction l as [| p l IH]; intros d0 H; [now exists d0 |].
  cbn [for_each]. unfold name_to_cat_step at 1. unfold row_getitem.
  destruct (H p (or_introl eq_refl)) as [Hn Hc].
  destruct (row_lookup p "name") as [n |]; [| contradiction].
  destruct (row_lookup p "category") as [c |]; [| contradiction].
  cbn [bind]. apply IH. intros q Hq. apply H. now right.
Qed.

Lemma remediate_database_spec real_products table d :
  NoDup (demo_ids table) ->
  build_name_to_cat real_products = Ok d ->
  remediate_database real_products table =
  Ok (map (remediated d) table,
      Z.of_nat (length (filter (changed d) table))).
Proof.
  intros Hnd Hd. unfold remediate_database, select_demo_store.
  rewrite Hd. cbn [bind]. f_equal.
  pose proof (remediate_fold d table Hnd
                (filter (fun r => String.eqb (store_id r) "demo-store") table)
                [] eq_refl) as H.
  cbn [map filter length] in H. change (Z.of_nat 0) with 0%Z in H.
  replace (map (partly_remediated d []) table) with table in H.
  - cbv zeta. rewrite H. f_equal. f_equal. f_equal. clear.
    induction table as [| r t IH]; [reflexivity |]. cbn [filter].
    destruct (String.eqb (store_id r) "demo-store") eqn:E; cbn [filter].
    + destruct (changed d r); now rewrite IH.
    + replace (changed d r) with false; [exact IH |].
      unfold changed. now rewrite E.
  - symmetry. erewrite map_ext; [apply map_id |]. intros r.
    unfold partly_remediated. cbn [existsb]. now rewrite andb_false_r.
Qed.

Lemma remediated_idem d r : remediated d (remediated d r) = remediated d r.
Proof.
  unfold remediated at 2.
  destruct (String.eqb (store_id r) "demo-store") eqn:E; [| reflexivity].
  destruct (dict_lookup (normalized_product_name r) d) as [new |] eqn:Hl;
    [| reflexivity].
  unfold remediated. cbn [store_id normalized_product_name]. now rewrite E, Hl.
Qed.

Lemma changed_after d r : changed d (remediated d r) = false.
Proof.
  unfold changed, remediated.
  destruct (String.eqb (store_id r) "demo-store") eqn:E;
    [| now rewrite E].
  destruct (dict_lookup (normalized_product_name r) d) as [new |] eqn:Hl.
  - cbn [store_id normalized_product_name master_category_name].
    now rewrite E, Hl, pyval_eqb_refl.
  - now rewrite E, Hl.
Qed.

Lemma demo_ids_remediated d table :
  demo_ids (map (remediated d) table) = demo_ids table.
Proof.
  unfold demo_ids. induction table as [| r t IH]; [reflexivity |].
  cbn [map filter]. destruct (remediated_fields d r) as (H1 & H2 & _).
  rewrite H1. destruct (String.eqb (store_id r) "demo-store"); cbn [map];
    now rewrite ?H2, IH.
Qed.

(** X14.  When the identifiers of the demo store are distinct and every
    listed product has a name and a category, the script leaves the
    table with the same rows, identifiers and names; a row of the demo
    store whose name is listed gets the category of the last product
    listed under that name; every other row, of another store or with a
    name that is not listed, keeps its category.  The count it prints is
    the number of rows whose category changed. *)
Theorem remediate_outcome (real_products : list row) (table : list SkuRow) :
  NoDup (demo_ids table) ->
  (forall p, In p real_products ->
     row_lookup p "name" <> None /\ row_lookup p "category" <> None) ->
  exists table' updates,
    remediate_database real_products table = Ok (table', updates) /\
    Forall2
      (fun r r' =>
         store_id r' = store_id r /\
         store_item_id r' = store_item_id r /\
         normalized_product_name r' = normalized_product_name r /\
         (store_id r = "demo-store" ->
          forall c, last_category real_products (normalized_product_name r) c ->
                    master_category_name r' = c) /\
         (store_id r <> "demo-store" \/
          (forall c, ~ last_category real_products (normalized_product_name r) c)
          -> master_category_name r' = master_category_name r))
      table table' /\
    updates =
      Z.of_nat (length (filter
        (fun rr => negb (pyval_eqb (master_category_name (fst rr))
                                   (master_category_name (snd rr))))
        (combine table table'))).
Proof.
  intros Hnd Hkeys.
  destruct (name_to_cat_total real_products [] Hkeys) as [d Hd].
  pose proof (build_name_to_cat_spec real_products d Hd) as Hspec.
  exists (map (remediated d) table), (Z.of_nat (length (filter (changed d) table))).
  split; [now apply remediate_database_spec |]. split.
  - clear Hnd. induction table as [| r t IH]; cbn [map]; constructor;
      [| exact IH].
    destruct (remediated_fields d r) as (H1 & H2 & H3).
    repeat split; try assumption.
    + intros Hdemo c Hc. apply Hspec in Hc. unfold remediated.
      apply String.eqb_eq in Hdemo. now rewrite Hdemo, Hc.
    + intros [Hother | Hnone]; unfold remediated.
      * destruct (String.eqb_spec (store_id r) "demo-store");
          [contradiction | reflexivity].
      * destruct (String.eqb (store_id r) "demo-store"); [| reflexivity].
        destruct (dict_lookup (normalized_product_name r) d) as [c |] eqn:Hl;
          [| reflexivity].
        apply Hspec in Hl. now elim (Hnone c).
  - f_equal. clear Hnd. induction table as [| r t IH]; [reflexivity |].
    cbn [map combine filter fst snd].
    replace (negb (pyval_eqb (master_category_name r)
                             (master_category_name (remediated d r))))
      with (changed d r).
    + destruct (changed d r); cbn [length]; now rewrite IH.
    + unfold changed, remediated.
      destruct (String.eqb (store_id r) "demo-store"); cbn [andb].
      * destruct (dict_lookup (normalized_product_name r) d) as [c |].
        -- cbn [master_category_name]. f_equal.
           destruct (pyval_eqb_spec c (master_category_name r)),
                    (pyval_eqb_spec (master_category_name r) c);
             congruence.
        -- now rewrite pyval_eqb_refl.
      * now rewrite pyval_eqb_refl.
Qed.

Lemma remediate_outcome_witness :
  exists table' updates,
    remediate_database sample_real_products sample_table =
      Ok (table', updates) /\
    table' =
      [ mkSkuRow "demo-store" "sku-1" (PyStr "Tata Green Tea") (PyStr "Beverages");
        mkSkuRow "other-store" "sku-1" (PyStr "Tata Green Tea") (PyStr "Bakery");
        mkSkuRow "demo-store" "sku-2" (PyStr "Dabur Cough Syrup")
                 (PyStr "Health & Wellness");
        mkSkuRow "demo-store" "sku-3" (PyStr "Wooden Spoon") PyNone;
        mkSkuRow "demo-store" "sku-4" PyNone (PyStr "Bakery") ] /\
    updates = 1%Z.
Proof.
  assert (Hnd : NoDup (demo_ids sample_table)).
  { cbn. repeat (constructor; [cbn [In]; intuition discriminate |]).
    constructor. }
  assert (Hkeys : forall p, In p sample_real_products ->
            row_lookup p "name" <> None /\ row_lookup p "category" <> None).
  { intros p [<- | [<- | [<- | []]]]; split; discriminate. }
  destruct (remediate_outcome sample_real_products sample_table Hnd Hkeys)
    as (table' & updates & Hrun & _ & _).
  exists table', updates. split; [exact Hrun |].
  vm_compute in Hrun. injection Hrun as <- <-. now split.
Defined.

(** X15.  Run a second time on the table it has just remediated, the
    script changes nothing and counts no update. *)
Theorem remediate_idempotent (real_products : list row)
        (table table' : list SkuRow) (updates : Z) :
  NoDup (demo_ids table) ->
  remediate_database real_products table = Ok (table', updates) ->
  remediate_database real_products table' = Ok (table', 0%Z).
Proof.
  intros Hnd Hrun.
  destruct (build_name_to_cat real_products) as [d |] eqn:Hd.
  - rewrite (remediate_database_spec _ _ d Hnd Hd) in Hrun.
    injection Hrun as <- _.
    rewrite (remediate_database_spec _ _ d); [| | exact Hd].
    + f_equal. f_equal.
      * rewrite map_map. apply map_ext. apply remediated_idem.
      * rewrite filter_none; [reflexivity |].
        intros r Hr. apply in_map_iff in Hr as (r0 & <- & _).
        apply changed_after.
    + now rewrite demo_ids_remediated.
  - unfold remediate_database in Hrun. rewrite Hd in Hrun. discriminate.
Qed.

Lemma remediate_idempotent_witness :
  remediate_database sample_real_products
    [ mkSkuRow "demo-store" "sku-1" (PyStr "Tata Green Tea") (PyStr "Beverages");
      mkSkuRow "other-store" "sku-1" (PyStr "Tata Green Tea") (PyStr "Bakery");
      mkSkuRow "demo-store" "sku-2" (PyStr "Dabur Cough Syrup")
               (PyStr "Health & Wellness");
      mkSkuRow "demo-store" "sku-3" (PyStr "Wooden Spoon") PyNone;
      mkSkuRow "demo-store" "sku-4" PyNone (PyStr "Bakery") ] =
  Ok ([ mkSkuRow "demo-store" "sku-1" (PyStr "Tata Green Tea") (PyStr "Beverages");
        mkSkuRow "other-store" "sku-1" (PyStr "Tata Green Tea") (PyStr "Bakery");
        mkSkuRow "demo-store" "sku-2" (PyStr "Dabur Cough Syrup")
                 (PyStr "Health & Wellness");
        mkSkuRow "demo-store" "sku-3" (PyStr "Wooden Spoon") PyNone;
        mkSkuRow "demo-store" "sku-4" PyNone (PyStr "Bakery") ], 0%Z).
Proof.
  refine (remediate_idempotent sample_real_products sample_table _ 1%Z _ eq_refl).
  cbn. repeat (constructor; [cbn [In]; intuition discriminate |]).
  constructor.
Defined.

(** X16.  The mapping is built before the database is opened: when a
    listed product has no "name" or no "category" key, the script ends
    in the KeyError of the first such product, "name" being looked up
    first, and the table is not touched. *)
Theorem remediate_missing_key (before after : list row) (p : row)
        (table : list SkuRow) :
  (forall q, In q before ->
     row_lookup q "name" <> None /\ row_lookup q "category" <> None) ->
  row_lookup p "name" = None \/ row_lookup p "category" = None ->
  remediate_database (before ++ p :: after) table =
  Raise (KeyError (match row_lookup p "name" with
                   | None => "name"
                   | Some _ => "category"
                   end)).
Proof.
  intros Hbefore Hp. unfold remediate_database, build_name_to_cat.
  rewrite for_each_app.
  destruct (name_to_cat_total before [] Hbefore) as [d ->].
  cbn [bind for_each]. unfold name_to_cat_step, row_getitem.
  destruct (row_lookup p "name"); cbn [bind]; [| reflexivity].
  destruct Hp as [Hp | Hp]; [discriminate |]. now rewrite Hp.
Qed.

Lemma remediate_missing_key_witness :
  remediate_database
    (sample_real_products ++ [("name", PyStr "Amul Butter")] :: [])
    sample_table =
  Raise (KeyError "category").
Proof.
  refine (remediate_missing_key sample_real_products []
            [("name", PyStr "Amul Butter")] sample_table _ _).
  - intros q [<- | [<- | [<- | []]]]; split; discriminate.
  - right. reflexivity.
Defined.

(** * The two scripts together *)

Lemma last_category_saved {Price} (ps : list (Product Price)) p :
  NoDup (map p_name ps) -> In p ps ->
  last_category (map saved_row ps) (PyStr (p_name p)) (PyStr (p_category p)).
Proof.
  intros Hnd Hin. apply in_split in Hin as (l1 & l2 & ->).
  exists (map saved_row l1), (saved_row p), (map saved_row l2).
  split; [now rewrite map_app |]. split; [reflexivity |].
  split; [reflexivity |].
  intros q Hq E. apply in_map_iff in Hq as (p' & <- & Hp').
  cbn in E. injection E as E.
  rewrite map_app in Hnd. cbn [map] in Hnd. apply NoDup_remove_2 in Hnd.
  apply Hnd, in_or_app. right. rewrite <- E. now apply in_map.
Qed.

(** X17.  The file the fetch script saves never makes the remediation
    fail on a missing key, and, the identifiers of the demo store being
    distinct, every row of the demo store that carries the full name of
    a saved product ends with the category of that product, which is
    the one of the first fetched row of that name. *)
Theorem fetched_products_remediate (strip : string -> string) (Price : Type)
        (pricing : row -> Price) (rows : list row)
        (ps : list (Product Price)) (table : list SkuRow) :
  fetch_products strip Price pricing rows = Ok ps ->
  NoDup (demo_ids table) ->
  exists table' updates,
    remediate_database (map saved_row ps) table = Ok (table', updates) /\
    Forall2
      (fun r r' =>
         forall p, In p ps ->
                   store_id r = "demo-store" ->
                   normalized_product_name r = PyStr (p_name p) ->
                   master_category_name r' = PyStr (p_category p))
      table table'.
Proof.
  intros Hfetch Hnd.
  assert (Hnames : NoDup (map p_name ps)).
  { apply (collect_invariant strip Price pricing rows [] [] ps Hfetch);
      [cbn; lia | intros x; reflexivity | constructor]. }
  destruct (name_to_cat_total (map saved_row ps) []) as [d Hd].
  { intros q Hq. apply in_map_iff in Hq as (p & <- & _).
    split; discriminate. }
  exists (map (remediated d) table),
         (Z.of_nat (length (filter (changed d) table))).
  split; [now apply remediate_database_spec |].
  clear Hnd. induction table as [| r t IH]; cbn [map]; constructor;
    [| exact IH].
  intros p Hp Hdemo Hname.
  apply (last_category_saved ps p Hnames) in Hp.
  apply (build_name_to_cat_spec _ d Hd) in Hp.
  unfold remediated. apply String.eqb_eq in Hdemo.
  now rewrite Hdemo, Hname, Hp.
Qed.

Lemma fetched_products_remediate_witness :
  exists table' updates,
    remediate_database
      (map saved_row
         [ mkProduct "Tata Green Tea" "Beverages" (PyStr "Tea") "Tata" tt;
           mkProduct "Dabur Cough Syrup" "Health & Wellness"
                     (PyStr "Health & Medicine") "Dabur" tt;
           mkProduct "Huggies Diapers" "Baby Care" (PyStr "Diapers & Wipes")
                     "Huggies" tt ])
      sample_table = Ok (table', updates) /\
    Forall2
      (fun r r' =>
         forall p,
           In p [ mkProduct "Tata Green Tea" "Beverages" (PyStr "Tea") "Tata" tt;
                  mkProduct "Dabur Cough Syrup" "Health & Wellness"
                            (PyStr "Health & Medicine") "Dabur" tt;
                  mkProduct "Huggies Diapers" "Baby Care"
                            (PyStr "Diapers & Wipes") "Huggies" tt ] ->
           store_id r = "demo-store" ->
           normalized_product_name r = PyStr (p_name p) ->
           master_category_name r' = PyStr (p_category p))
      sample_table table'.
Proof.
  refine (fetched_products_remediate ascii_strip unit (fun _ => tt)
            fetch_sample _ sample_table eq_refl _).
  cbn. repeat (constructor; [cbn [In]; intuition discriminate |]).
  constructor.
Defined.
